(** * Odoo operator: reconciliation, database lifecycle and admission gate

    A shallow embedding of [odoo-operator/python/operator.py].

    Conventions.
    - A Python [str] is a [string]; every [ascii] stands for one code point
      below 256, so slicing and [len] count characters as Python does.
    - Python values that travel as JSON (specifications, rendered
      manifests, status blocks, admission objects) are terms of [value];
      a [dict] keeps its insertion order, as in Python.  Numbers are
      integers: a specification with a fractional number is outside the
      model.
    - The module defines [create_deployment], [create_service] and
      [create_ingress] twice.  Python binds a name to its latest [def], so
      the handlers call the later definitions; these keep their names at
      top level here and the earlier ones live in [Module Shadowed]. *)

From Stdlib Require Import ZArith Ascii String List Bool Lia.
From stdpp Require Import base option gmap strings.

Import ListNotations.
Local Open Scope list_scope.
Local Open Scope string_scope.
Local Open Scope Z_scope.

(** ** Python values *)

#[local] Set Warnings "-register-all".

Inductive value : Type :=
| VNone
| VBool (b : bool)
| VInt (n : Z)
| VStr (s : string)
| VList (l : list value)
| VDict (d : list (string * value)).

Inductive Exn : Type :=
| ApiException (status : Z) (text : string)
| NameError (msg : string)
| KeyError (key : string)
| TypeError (msg : string)
| AttributeError (msg : string)
| ValueError (msg : string)
| IndexError (msg : string)
| ImportError (msg : string)
| DatabaseError (msg : string)
| PermanentError (msg : string).

Inductive Result (A : Type) : Type :=
| Ok (a : A)
| Raise (e : Exn).
Arguments Ok {A} a.
Arguments Raise {A} e.

(** [bool(v)] *)
Definition truthy (v : value) : bool :=
  match v with
  | VNone => false
  | VBool b => b
  | VInt n => negb (n =? 0)
  | VStr s => negb (String.eqb s "")
  | VList l => match l with [] => false | _ => true end
  | VDict d => match d with [] => false | _ => true end
  end.

(** ** Dictionaries *)

Fixpoint dict_lookup (k : string) (d : list (string * value)) : option value :=
  match d with
  | [] => None
  | (k', v) :: d' => if String.eqb k k' then Some v else dict_lookup k d'
  end.

(** [d[k] = v]: an existing key keeps its position, a new key goes last. *)
Fixpoint dict_set (k : string) (v : value) (d : list (string * value))
  : list (string * value) :=
  match d with
  | [] => [(k, v)]
  | (k', v') :: d' =>
      if String.eqb k k' then (k', v) :: d' else (k', v') :: dict_set k v d'
  end.

Fixpoint dict_del (k : string) (d : list (string * value))
  : list (string * value) :=
  match d with
  | [] => []
  | (k', v') :: d' =>
      if String.eqb k k' then d' else (k', v') :: dict_del k d'
  end.

(** [d.update(other)] *)
Definition dict_update (d other : list (string * value)) : list (string * value) :=
  fold_left (fun acc kv => dict_set (fst kv) (snd kv) acc) other d.

(** [k in d] *)
Definition dict_has (k : string) (d : list (string * value)) : bool :=
  match dict_lookup k d with Some _ => true | None => false end.

(** [d.get(k, default)] on a dictionary *)
Definition dict_get (d : list (string * value)) (k : string) (default : value) : value :=
  match dict_lookup k d with Some v => v | None => default end.

(** ** Strings *)

(** [s[:n]] *)
Definition str_upto (n : nat) (s : string) : string := String.substring 0 n s.

Definition quote : string := String (ascii_of_nat 34) EmptyString.

Fixpoint str_join (sep : string) (l : list string) : string :=
  match l with
  | [] => ""
  | [s] => s
  | s :: l' => s ++ sep ++ str_join sep l'
  end.

(** Decimal rendering of an integer, [str(n)]. *)
Fixpoint digits_fuel (fuel : nat) (n : Z) (acc : string) : string :=
  match fuel with
  | O => acc
  | S f =>
      let d := String (ascii_of_nat (48 + Z.to_nat (n mod 10))) acc in
      if n <? 10 then d else digits_fuel f (n / 10) d
  end.

Definition str_of_Z (n : Z) : string :=
  if n <? 0 then "-" ++ digits_fuel (S (Z.to_nat (Z.log2 (- n)))) (- n) ""
  else digits_fuel (S (Z.to_nat (Z.log2 n))) n "".

(** ** Database identity ([generate_db_name], [generate_db_username]) *)

Definition generate_db_name (instance_name namespace : string) : string :=
  str_upto 63 ("odoo_" ++ namespace ++ "_" ++ instance_name).

Definition generate_db_username (instance_name namespace : string) : string :=
  str_upto 63 ("odoo_user_" ++ namespace ++ "_" ++ instance_name).

(** ** The world outside the process

    The cluster API server, the PostgreSQL server, the log and the random
    source are one explicit state.  Every call that leaves the process is
    counted in [clock]; [faults] may make the n-th call fail at a given
    endpoint, which is how unreachable servers and rejected requests are
    described.  Without a scheduled fault a call has its usual meaning:
    creating an object that exists answers 409, reading one that does not
    answers 404.  [heap] holds the mutable objects of the process that
    are reached through more than one name. *)

Inductive Level : Type := INFO | WARNING | ERROR.

Inductive Kind : Type :=
| PersistentVolumeClaim | ConfigMap | Secret | Deployment | Service | Ingress.

Inductive Endpoint : Type :=
| CreateNamespaced (k : Kind)
| ReadNamespaced (k : Kind)
| PatchNamespaced (k : Kind)
| DeleteNamespaced (k : Kind)
| GetCustomObject
| PatchCustomObjectStatus
| PgConnect
| PgExecute.

#[global] Instance Kind_eq_dec : EqDecision Kind.
Proof. solve_decision. Defined.

#[global] Instance Endpoint_eq_dec : EqDecision Endpoint.
Proof. solve_decision. Defined.

Definition Kind_code (k : Kind) : nat :=
  match k with
  | PersistentVolumeClaim => 0 | ConfigMap => 1 | Secret => 2
  | Deployment => 3 | Service => 4 | Ingress => 5
  end%nat.

Definition Kind_of_code (n : nat) : option Kind :=
  match n with
  | 0 => Some PersistentVolumeClaim | 1 => Some ConfigMap | 2 => Some Secret
  | 3 => Some Deployment | 4 => Some Service | 5 => Some Ingress
  | _ => None
  end%nat.

#[global] Instance Kind_countable : Countable Kind.
Proof.
  apply (inj_countable Kind_code Kind_of_code). intros []; reflexivity.
Defined.

(** Objects are addressed by kind, namespace and name. *)
Abbreviation ObjKey := (Kind * string * string)%type.

Record World : Type := mkWorld {
  cluster : gmap ObjKey value;
  instances : gmap (string * string) value;
  pg_roles : gmap string string;
  pg_databases : gmap string string;
  pg_sessions : list string;
  installed : string -> bool;
  entropy : list nat;
  log : list (Level * string);
  clock : nat;
  faults : nat -> Endpoint -> option Exn;
  heap : gmap nat value
}.

Definition set_cluster (f : gmap ObjKey value -> gmap ObjKey value) (w : World) : World :=
  mkWorld (f (cluster w)) (instances w) (pg_roles w) (pg_databases w)
    (pg_sessions w) (installed w) (entropy w) (log w) (clock w) (faults w) (heap w).

Definition set_instances
  (f : gmap (string * string) value -> gmap (string * string) value) (w : World) : World :=
  mkWorld (cluster w) (f (instances w)) (pg_roles w) (pg_databases w)
    (pg_sessions w) (installed w) (entropy w) (log w) (clock w) (faults w) (heap w).

Definition set_pg_roles (f : gmap string string -> gmap string string) (w : World) : World :=
  mkWorld (cluster w) (instances w) (f (pg_roles w)) (pg_databases w)
    (pg_sessions w) (installed w) (entropy w) (log w) (clock w) (faults w) (heap w).

Definition set_pg_databases (f : gmap string string -> gmap string string) (w : World) : World :=
  mkWorld (cluster w) (instances w) (pg_roles w) (f (pg_databases w))
    (pg_sessions w) (installed w) (entropy w) (log w) (clock w) (faults w) (heap w).

Definition set_pg_sessions (f : list string -> list string) (w : World) : World :=
  mkWorld (cluster w) (instances w) (pg_roles w) (pg_databases w)
    (f (pg_sessions w)) (installed w) (entropy w) (log w) (clock w) (faults w) (heap w).

Definition set_entropy (f : list nat -> list nat) (w : World) : World :=
  mkWorld (cluster w) (instances w) (pg_roles w) (pg_databases w)
    (pg_sessions w) (installed w) (f (entropy w)) (log w) (clock w) (faults w) (heap w).

Definition set_log (f : list (Level * string) -> list (Level * string)) (w : World) : World :=
  mkWorld (cluster w) (instances w) (pg_roles w) (pg_databases w)
    (pg_sessions w) (installed w) (entropy w) (f (log w)) (clock w) (faults w) (heap w).

Definition set_heap (f : gmap nat value -> gmap nat value) (w : World) : World :=
  mkWorld (cluster w) (instances w) (pg_roles w) (pg_databases w)
    (pg_sessions w) (installed w) (entropy w) (log w) (clock w) (faults w)
    (f (heap w)).

Definition tick (w : World) : World :=
  mkWorld (cluster w) (instances w) (pg_roles w) (pg_databases w)
    (pg_sessions w) (installed w) (entropy w) (log w) (S (clock w)) (faults w) (heap w).

(** ** Computations: state and exceptions *)

Definition M (A : Type) : Type := World -> Result A * World.

Definition ret {A} (a : A) : M A := fun w => (Ok a, w).

Definition raise {A} (e : Exn) : M A := fun w => (Raise e, w).

Definition bind {A B} (m : M A) (k : A -> M B) : M B :=
  fun w => match m w with
           | (Ok a, w') => k a w'
           | (Raise e, w') => (Raise e, w')
           end.

Declare Scope py_scope.
Delimit Scope py_scope with py.
Notation "x <- c1 ;; c2" := (bind c1 (fun x => c2))
  (at level 100, c1 at next level, right associativity) : py_scope.
Notation "c1 ;; c2" := (bind c1 (fun _ => c2))
  (at level 100, right associativity) : py_scope.
Local Open Scope py_scope.
Local Open Scope string_scope.
Local Open Scope Z_scope.

(** [try: body  except ...: handler].  The handler answers [None] for an
    exception that no [except] clause matches. *)
Definition try_except {A} (body : M A) (handler : Exn -> option (M A)) : M A :=
  fun w => match body w with
           | (Ok a, w') => (Ok a, w')
           | (Raise e, w') =>
               match handler e with
               | Some h => h w'
               | None => (Raise e, w')
               end
           end.

(** Lifting of a pure computation that may raise. *)
Definition lift {A} (r : Result A) : M A := fun w => (r, w).

Definition logger (lvl : Level) (msg : string) : M unit :=
  fun w => (Ok tt, set_log (fun l => (l ++ [(lvl, msg)])%list) w).

(** A call that leaves the process. *)
Definition external {A} (ep : Endpoint) (usual : M A) : M A :=
  fun w => match faults w (clock w) ep with
           | Some e => (Raise e, tick w)
           | None => usual (tick w)
           end.

(** ** Operations on values *)

(** [v.get(k, default)]: only a dictionary has the method. *)
Definition py_get (v : value) (k : string) (default : value) : Result value :=
  match v with
  | VDict d => Ok (dict_get d k default)
  | _ => Raise (AttributeError "object has no attribute 'get'")
  end.

Fixpoint is_prefix (p s : string) : bool :=
  match p, s with
  | EmptyString, _ => true
  | String a p', String b s' => if Ascii.eqb a b then is_prefix p' s' else false
  | String _ _, EmptyString => false
  end.

Fixpoint is_substring (p s : string) : bool :=
  match s with
  | EmptyString => is_prefix p s
  | String _ s' => is_prefix p s || is_substring p s'
  end.

(** [k in v] for a string [k]: key of a dictionary, element of a list,
    substring of a string; other values are not containers. *)
Definition py_in (k : string) (v : value) : Result bool :=
  match v with
  | VDict d => Ok (dict_has k d)
  | VList l => Ok (existsb (fun x => match x with VStr s => String.eqb s k | _ => false end) l)
  | VStr s => Ok (is_substring k s)
  | _ => Raise (TypeError "argument is not iterable")
  end.

(** [v[k]] for a string [k] *)
Definition subscript (v : value) (k : string) : Result value :=
  match v with
  | VDict d =>
      match dict_lookup k d with
      | Some x => Ok x
      | None => Raise (KeyError k)
      end
  | VList _ => Raise (TypeError "list indices must be integers or slices, not str")
  | VStr _ => Raise (TypeError "string indices must be integers, not 'str'")
  | _ => Raise (TypeError "object is not subscriptable")
  end.

(** [a == b] *)
Fixpoint py_eq (a b : value) {struct a} : bool :=
  match a, b with
  | VNone, VNone => true
  | VBool x, VBool y => Bool.eqb x y
  | VBool x, VInt n | VInt n, VBool x => n =? (if x then 1 else 0)
  | VInt m, VInt n => m =? n
  | VStr s, VStr t => String.eqb s t
  | VList l, VList l' =>
      (fix go (l l' : list value) : bool :=
         match l, l' with
         | [], [] => true
         | x :: r, y :: r' => py_eq x y && go r r'
         | _, _ => false
         end) l l'
  | VDict d, VDict d' =>
      (length d =? length d')%nat
      && (fix go (d : list (string * value)) : bool :=
            match d with
            | [] => true
            | (k, v) :: r =>
                match dict_lookup k d' with
                | Some v' => py_eq v v'
                | None => false
                end && go r
            end) d
  | _, _ => false
  end.

(** [l.remove(x)]: the first element equal to [x] goes. *)
Fixpoint list_remove (x : value) (l : list value) : Result (list value) :=
  match l with
  | [] => Raise (ValueError "list.remove(x): x not in list")
  | y :: l' =>
      if py_eq y x then Ok l'
      else match list_remove x l' with
           | Ok r => Ok (y :: r)
           | Raise e => Raise e
           end
  end.

(** JSON merge patch: a dictionary is merged key by key, [None] removes a
    key, anything else replaces the target. *)
Fixpoint merge_patch (target patch : value) {struct patch} : value :=
  match patch with
  | VDict p =>
      let fix go (p : list (string * value)) (acc : list (string * value)) :=
        match p with
        | [] => acc
        | (k, v) :: p' =>
            go p' (match v with
                   | VNone => dict_del k acc
                   | _ => dict_set k (merge_patch (dict_get acc k VNone) v) acc
                   end)
        end in
      VDict (go p (match target with VDict t => t | _ => [] end))
  | _ => patch
  end.

(** Attribute and item assignment on an object read from the store:
    [obj.a.b[0].c = v]. *)
Inductive Step : Type := Attr (k : string) | Item (i : nat).

Fixpoint list_assign (i : nat) (x : value) (l : list value) : option (list value) :=
  match l, i with
  | [], _ => None
  | _ :: l', O => Some (x :: l')
  | y :: l', S i' =>
      match list_assign i' x l' with
      | Some r => Some (y :: r)
      | None => None
      end
  end.

Fixpoint assign (path : list Step) (v : value) (obj : value) : Result value :=
  match path with
  | [] => Ok v
  | Attr k :: rest =>
      match obj with
      | VDict d =>
          match rest with
          | [] => Ok (VDict (dict_set k v d))
          | _ =>
              match assign rest v (dict_get d k VNone) with
              | Ok sub => Ok (VDict (dict_set k sub d))
              | Raise e => Raise e
              end
          end
      | _ => Raise (AttributeError ("object has no attribute '" ++ k ++ "'"))
      end
  | Item i :: rest =>
      match obj with
      | VList l =>
          match nth_error l i with
          | Some x =>
              match assign rest v x with
              | Ok sub =>
                  match list_assign i sub l with
                  | Some l' => Ok (VList l')
                  | None => Raise (IndexError "list index out of range")
                  end
              | Raise e => Raise e
              end
          | None => Raise (IndexError "list index out of range")
          end
      | _ => Raise (TypeError "object is not subscriptable")
      end
  end.

(** ** Encodings ([str.encode], [bytes.decode], [base64])

    A byte string is a [string] as well.  [base64.b64decode] follows the
    lenient default of the library: characters outside the alphabet are
    skipped and decoding stops at the padding that closes a group. *)

Definition newline : string := String (ascii_of_nat 10) EmptyString.

Fixpoint utf8_encode (s : string) : string :=
  match s with
  | EmptyString => EmptyString
  | String c s' =>
      let n := N_of_ascii c in
      if (n <? 128)%N then String c (utf8_encode s')
      else String (ascii_of_N (192 + N.shiftr n 6))
             (String (ascii_of_N (128 + N.land n 63)) (utf8_encode s'))
  end.

Fixpoint utf8_decode (b : string) : Result string :=
  match b with
  | EmptyString => Ok EmptyString
  | String c b' =>
      let n := N_of_ascii c in
      if (n <? 128)%N then
        match utf8_decode b' with
        | Ok s => Ok (String c s)
        | Raise e => Raise e
        end
      else
        match b' with
        | String c2 b'' =>
            let n2 := N_of_ascii c2 in
            if ((n =? 194) || (n =? 195))%N && (128 <=? n2)%N && (n2 <? 192)%N then
              match utf8_decode b'' with
              | Ok s => Ok (String (ascii_of_N (N.shiftl (N.land n 3) 6 + N.land n2 63)) s)
              | Raise e => Raise e
              end
            else Raise (ValueError "'utf-8' codec can't decode byte")
        | EmptyString => Raise (ValueError "'utf-8' codec can't decode byte")
        end
  end.

Definition b64_alphabet : string :=
  "ABCDEFGHIJKLMNOPQRSTUVWXYZabcdefghijklmnopqrstuvwxyz0123456789+/".

Definition b64_char (n : N) : ascii :=
  match String.get (N.to_nat n) b64_alphabet with
  | Some c => c
  | None => "="%char
  end.

Fixpoint b64_index_in (c : ascii) (alphabet : string) (i : N) : option N :=
  match alphabet with
  | EmptyString => None
  | String a rest => if Ascii.eqb a c then Some i else b64_index_in c rest (N.succ i)
  end.

Definition b64_index (c : ascii) : option N := b64_index_in c b64_alphabet 0%N.

Fixpoint b64encode_bytes (l : list N) : string :=
  match l with
  | [] => EmptyString
  | [a] =>
      String (b64_char (N.shiftr a 2))
        (String (b64_char (N.shiftl (N.land a 3) 4)) "==")
  | [a; b] =>
      String (b64_char (N.shiftr a 2))
        (String (b64_char (N.shiftl (N.land a 3) 4 + N.shiftr b 4))
           (String (b64_char (N.shiftl (N.land b 15) 2)) "="))
  | a :: b :: c :: rest =>
      String (b64_char (N.shiftr a 2))
        (String (b64_char (N.shiftl (N.land a 3) 4 + N.shiftr b 4))
           (String (b64_char (N.shiftl (N.land b 15) 2 + N.shiftr c 6))
              (String (b64_char (N.land c 63)) (b64encode_bytes rest))))
  end.

Definition bytes_of (s : string) : list N := map N_of_ascii (list_ascii_of_string s).

Definition b64encode (b : string) : string := b64encode_bytes (bytes_of b).

(** The loop of [binascii.a2b_base64] in its lenient mode.  [quad_pos]
    is the position in the current group of four, [leftchar] the bits
    left over from the characters before, [pads] the number of padding
    characters met since the last character of the alphabet, and [count]
    the number of characters of the alphabet read so far.  A padding
    character stops the decoding when it completes a group that holds at
    least two characters; before that it is skipped, like any character
    outside the alphabet. *)
Fixpoint a2b_base64 (s : string) (quad_pos : nat) (leftchar : N) (pads count : nat)
  : Result string :=
  match s with
  | EmptyString =>
      match quad_pos with
      | O => Ok EmptyString
      | 1%nat =>
          Raise (ValueError
                   ("Invalid base64-encoded string: number of data characters ("
                    ++ str_of_Z (Z.of_nat count)
                    ++ ") cannot be 1 more than a multiple of 4"))
      | _ => Raise (ValueError "Incorrect padding")
      end
  | String c rest =>
      if Ascii.eqb c "="%char then
        if (2 <=? quad_pos)%nat then
          if (4 <=? quad_pos + S pads)%nat then Ok EmptyString
          else a2b_base64 rest quad_pos leftchar (S pads) count
        else a2b_base64 rest quad_pos leftchar pads count
      else
        match b64_index c with
        | None => a2b_base64 rest quad_pos leftchar pads count
        | Some n =>
            let emit (byte : N) (r : Result string) : Result string :=
              match r with
              | Ok out => Ok (String (ascii_of_N byte) out)
              | Raise e => Raise e
              end in
            match quad_pos with
            | O => a2b_base64 rest 1%nat n 0%nat (S count)
            | 1%nat =>
                emit (N.lor (N.shiftl leftchar 2) (N.shiftr n 4))
                  (a2b_base64 rest 2%nat (N.land n 15) 0%nat (S count))
            | 2%nat =>
                emit (N.lor (N.shiftl leftchar 4) (N.shiftr n 2))
                  (a2b_base64 rest 3%nat (N.land n 3) 0%nat (S count))
            | _ =>
                emit (N.lor (N.shiftl leftchar 6) n)
                  (a2b_base64 rest 0%nat 0%N 0%nat (S count))
            end
        end
  end.

(** [base64.b64decode(s)] for a [str]: the argument is encoded as ASCII
    first, which fails on any other character. *)
Definition b64decode (s : string) : Result string :=
  if forallb (fun c => (N_of_ascii c <? 128)%N) (list_ascii_of_string s)
  then a2b_base64 s 0 0%N 0 0
  else Raise (ValueError "string argument should contain only ASCII characters").

(** [base64.b64encode(s.encode()).decode()] *)
Definition b64 (s : string) : string := b64encode (utf8_encode s).

(** ** Rendering ([str], [repr], f-strings) *)

Definition hex_digit (n : N) : ascii :=
  match String.get (N.to_nat n) "0123456789abcdef" with
  | Some c => c
  | None => "0"%char
  end.

Definition has_char (c : ascii) (s : string) : bool :=
  existsb (Ascii.eqb c) (list_ascii_of_string s).

Definition backslash : string := String (ascii_of_nat 92) EmptyString.

(** Escapes of [repr] for one character inside the quote [q]. *)
Definition repr_char (q : ascii) (c : ascii) : string :=
  let n := N_of_ascii c in
  if Ascii.eqb c q then backslash ++ String q EmptyString
  else if (n =? 92)%N then backslash ++ backslash
  else if (n =? 10)%N then backslash ++ "n"
  else if (n =? 13)%N then backslash ++ "r"
  else if (n =? 9)%N then backslash ++ "t"
  else if ((n <? 32) || ((127 <=? n) && (n <=? 160)) || (n =? 173))%N then
    backslash ++ "x" ++ String (hex_digit (N.shiftr n 4))
                          (String (hex_digit (N.land n 15)) EmptyString)
  else String c EmptyString.

Definition repr_str (s : string) : string :=
  let single := "'"%char in
  let double := ascii_of_nat 34 in
  let q := if has_char single s && negb (has_char double s) then double else single in
  String q (String.concat "" (map (repr_char q) (list_ascii_of_string s)))
    ++ String q EmptyString.

Fixpoint py_repr (v : value) : string :=
  match v with
  | VNone => "None"
  | VBool true => "True"
  | VBool false => "False"
  | VInt n => str_of_Z n
  | VStr s => repr_str s
  | VList l => "[" ++ str_join ", " (map py_repr l) ++ "]"
  | VDict d =>
      "{" ++ str_join ", "
               (map (fun kv => (repr_str (fst kv) ++ ": " ++ py_repr (snd kv))%string) d)
          ++ "}"
  end.

(** [str(v)], also what an f-string inserts. *)
Definition py_str (v : value) : string :=
  match v with
  | VStr s => s
  | _ => py_repr v
  end.

(** [str(e)] *)
Definition str_exn (e : Exn) : string :=
  match e with
  | ApiException _ text => text
  | KeyError k => repr_str k
  | NameError m | TypeError m | AttributeError m | ValueError m
  | IndexError m | ImportError m | DatabaseError m | PermanentError m => m
  end.

(** ** The cluster API client *)

Definition api_error (status : Z) (reason : string) : Exn :=
  ApiException status
    ("(" ++ str_of_Z status ++ ")" ++ newline ++ "Reason: " ++ reason ++ newline).

Definition metadata_name (body : value) : option string :=
  match body with
  | VDict d =>
      match dict_lookup "metadata" d with
      | Some (VDict md) =>
          match dict_lookup "name" md with
          | Some (VStr n) => Some n
          | _ => None
          end
      | _ => None
      end
  | _ => None
  end.

Definition create_namespaced (k : Kind) (namespace : string) (body : value) : M unit :=
  external (CreateNamespaced k) (fun w =>
    match metadata_name body with
    | None => (Raise (api_error 422 "Unprocessable Entity"), w)
    | Some name =>
        match cluster w !! (k, namespace, name) with
        | Some _ => (Raise (api_error 409 "Conflict"), w)
        | None => (Ok tt, set_cluster (insert (k, namespace, name) body) w)
        end
    end).

Definition read_namespaced (k : Kind) (name namespace : string) : M value :=
  external (ReadNamespaced k) (fun w =>
    match cluster w !! (k, namespace, name) with
    | Some obj => (Ok obj, w)
    | None => (Raise (api_error 404 "Not Found"), w)
    end).

Definition patch_namespaced (k : Kind) (name namespace : string) (body : value) : M unit :=
  external (PatchNamespaced k) (fun w =>
    match cluster w !! (k, namespace, name) with
    | Some obj =>
        (Ok tt, set_cluster (insert (k, namespace, name) (merge_patch obj body)) w)
    | None => (Raise (api_error 404 "Not Found"), w)
    end).

Definition delete_namespaced (k : Kind) (name namespace : string) : M unit :=
  external (DeleteNamespaced k) (fun w =>
    match cluster w !! (k, namespace, name) with
    | Some _ => (Ok tt, set_cluster (delete (k, namespace, name)) w)
    | None => (Raise (api_error 404 "Not Found"), w)
    end).

(** [custom_objects.get_namespaced_custom_object(group=GROUP, version=VERSION,
    namespace=..., plural=PLURAL, name=...)] *)
Definition get_namespaced_custom_object (namespace name : string) : M value :=
  external GetCustomObject (fun w =>
    match instances w !! (namespace, name) with
    | Some obj => (Ok obj, w)
    | None => (Raise (api_error 404 "Not Found"), w)
    end).

(** The status subresource: the body is merged into the stored object. *)
Definition patch_namespaced_custom_object_status
  (namespace name : string) (body : value) : M unit :=
  external PatchCustomObjectStatus (fun w =>
    match instances w !! (namespace, name) with
    | Some obj =>
        (Ok tt, set_instances (insert (namespace, name) (merge_patch obj body)) w)
    | None => (Raise (api_error 404 "Not Found"), w)
    end).

(** ** The PostgreSQL client

    One function per statement the operator issues.  A role maps to its
    password, a database to its owner; [pg_sessions] lists the databases
    that other clients are connected to. *)

(** [psycopg2.connect(host=..., port=..., user=..., password=..., dbname=...)] *)
Definition psycopg2_connect (host port user password dbname : string) : M unit :=
  external PgConnect (ret tt).

(** [SELECT 1 FROM pg_roles WHERE rolname = %s] and [fetchone() is not None] *)
Definition pg_role_exists (role : string) : M bool :=
  external PgExecute (fun w => (Ok (bool_decide (is_Some (pg_roles w !! role))), w)).

(** [SELECT 1 FROM pg_database WHERE datname = %s] and [fetchone() is not None] *)
Definition pg_database_exists (db : string) : M bool :=
  external PgExecute (fun w => (Ok (bool_decide (is_Some (pg_databases w !! db))), w)).

(** [CREATE USER role WITH PASSWORD password] *)
Definition pg_create_user (role password : string) : M unit :=
  external PgExecute (fun w =>
    match pg_roles w !! role with
    | Some _ => (Raise (DatabaseError ("role " ++ role ++ " already exists")), w)
    | None => (Ok tt, set_pg_roles (insert role password) w)
    end).

(** [ALTER USER role WITH PASSWORD password] *)
Definition pg_alter_user_password (role password : string) : M unit :=
  external PgExecute (fun w =>
    match pg_roles w !! role with
    | Some _ => (Ok tt, set_pg_roles (insert role password) w)
    | None => (Raise (DatabaseError ("role " ++ role ++ " does not exist")), w)
    end).

(** [CREATE DATABASE db OWNER role] *)
Definition pg_create_database (db role : string) : M unit :=
  external PgExecute (fun w =>
    match pg_databases w !! db, pg_roles w !! role with
    | Some _, _ => (Raise (DatabaseError ("database " ++ db ++ " already exists")), w)
    | None, None => (Raise (DatabaseError ("role " ++ role ++ " does not exist")), w)
    | None, Some _ => (Ok tt, set_pg_databases (insert db role) w)
    end).

(** [ALTER DATABASE db OWNER TO role] *)
Definition pg_alter_database_owner (db role : string) : M unit :=
  external PgExecute (fun w =>
    match pg_databases w !! db, pg_roles w !! role with
    | None, _ => (Raise (DatabaseError ("database " ++ db ++ " does not exist")), w)
    | Some _, None => (Raise (DatabaseError ("role " ++ role ++ " does not exist")), w)
    | Some _, Some _ => (Ok tt, set_pg_databases (insert db role) w)
    end).

(** [SELECT pg_terminate_backend(pid) FROM pg_stat_activity WHERE datname = db] *)
Definition pg_terminate_backends (db : string) : M unit :=
  external PgExecute (fun w =>
    (Ok tt, set_pg_sessions (filter (fun d => negb (String.eqb d db))) w)).

(** [DROP DATABASE IF EXISTS db] *)
Definition pg_drop_database_if_exists (db : string) : M unit :=
  external PgExecute (fun w =>
    if existsb (String.eqb db) (pg_sessions w)
    then (Raise (DatabaseError ("database " ++ db ++ " is being accessed by other users")), w)
    else (Ok tt, set_pg_databases (delete db) w)).

(** [DROP ROLE IF EXISTS role] *)
Definition pg_drop_role_if_exists (role : string) : M unit :=
  external PgExecute (fun w =>
    if bool_decide (map_Exists (fun _ owner => owner = role) (pg_databases w))
    then (Raise (DatabaseError ("role " ++ role
                   ++ " cannot be dropped because some objects depend on it")), w)
    else (Ok tt, set_pg_roles (delete role) w)).

(** [import module], for a module that may be missing from the image. *)
Definition import_module (module : string) : M unit :=
  fun w => if installed w module then (Ok tt, w)
           else (Raise (ImportError ("No module named '" ++ module ++ "'")), w).

(** [random.choice(alphabet)] *)
Definition random_choice (alphabet : string) : M string :=
  fun w =>
    let n := match entropy w with x :: _ => x | [] => O end in
    let c := match String.get (n mod String.length alphabet) alphabet with
             | Some c => String c EmptyString
             | None => EmptyString
             end in
    (Ok c, set_entropy (fun l => tl l) w).

(** An attribute of an object read from the store; an unset one is [None]. *)
Definition py_attr (obj : value) (k : string) : Result value :=
  match obj with
  | VDict d => Ok (dict_get d k VNone)
  | _ => Raise (AttributeError ("object has no attribute '" ++ k ++ "'"))
  end.

Abbreviation dict := (list (string * value)).

(** [v.update(other)] *)
Definition py_update (v : value) (other : dict) : Result value :=
  match v with
  | VDict d => Ok (VDict (dict_update d other))
  | _ => Raise (AttributeError "object has no attribute 'update'")
  end.

(** ** The operator *)

Section Operator.

(** The process environment, read once when the module is loaded. *)
Variable environ : string -> option string.

Definition os_environ_get (k default : string) : string :=
  match environ k with
  | Some v => v
  | None => default
  end.

Definition GROUP : string := "odoo.bemade.org".
Definition VERSION : string := "v1".
Definition PLURAL : string := "odooinstances".

Definition DEFAULT_ODOO_IMAGE : string := os_environ_get "DEFAULT_ODOO_IMAGE" "odoo:17.0".
Definition DEFAULT_STORAGE_CLASS : string := os_environ_get "DEFAULT_STORAGE_CLASS" "standard".
Definition DEFAULT_INGRESS_CLASS : string := os_environ_get "DEFAULT_INGRESS_CLASS" "nginx".

Definition DB_HOST : string := os_environ_get "DB_HOST" "postgres".
Definition DB_PORT : string := os_environ_get "DB_PORT" "5432".
Definition DB_ADMIN_USER : string := os_environ_get "DB_ADMIN_USER" "postgres".
Definition DB_ADMIN_PASSWORD_SECRET : string :=
  os_environ_get "DB_ADMIN_PASSWORD_SECRET" "postgres-admin".
Definition DB_ADMIN_PASSWORD_SECRET_KEY : string :=
  os_environ_get "DB_ADMIN_PASSWORD_SECRET_KEY" "password".
Definition DB_ADMIN_PASSWORD_SECRET_NAMESPACE : string :=
  os_environ_get "DB_ADMIN_PASSWORD_SECRET_NAMESPACE" "".

(** The [ownerReferences] entry that every manifest carries; building it
    reads the instance back from the store for its uid. *)
Definition owner_references (name namespace : string) : M value :=
  obj <- get_namespaced_custom_object namespace name ;;
  metadata <- lift (subscript obj "metadata") ;;
  uid <- lift (subscript metadata "uid") ;;
  ret (VList [VDict [
    ("apiVersion", VStr (GROUP ++ "/" ++ VERSION));
    ("kind", VStr "OdooInstance");
    ("name", VStr name);
    ("uid", uid);
    ("controller", VBool true);
    ("blockOwnerDeletion", VBool true)]]).

Definition patch_status (name namespace : string) (status_patch : dict) : M unit :=
  try_except
    (current <- get_namespaced_custom_object namespace name ;;
     current_status <- lift (py_get current "status" (VDict [])) ;;
     current_status <- lift (py_update current_status status_patch) ;;
     patch_namespaced_custom_object_status namespace name
       (VDict [("status", current_status)]))
    (fun e =>
       match e with
       | ApiException _ _ =>
           Some (logger ERROR ("Error updating status: " ++ str_exn e))
       | _ => None
       end).

Definition create_database_pvc (name namespace : string) (spec : dict) : M unit :=
  db_spec <- ret (dict_get spec "database" (VDict [])) ;;
  storage_size <- lift (py_get db_spec "storageSize" (VStr "10Gi")) ;;
  storage_class <- lift (py_get db_spec "storageClass" (VStr DEFAULT_STORAGE_CLASS)) ;;
  let pvc_name := "odoo-db-" ++ name in
  owner <- owner_references name namespace ;;
  let pvc := VDict [
    ("apiVersion", VStr "v1");
    ("kind", VStr "PersistentVolumeClaim");
    ("metadata", VDict [
      ("name", VStr pvc_name);
      ("namespace", VStr namespace);
      ("labels", VDict [
        ("app.kubernetes.io/name", VStr "odoo");
        ("app.kubernetes.io/instance", VStr name);
        ("app.kubernetes.io/managed-by", VStr "odoo-operator");
        ("app.kubernetes.io/component", VStr "database")]);
      ("ownerReferences", owner)]);
    ("spec", VDict [
      ("accessModes", VList [VStr "ReadWriteOnce"]);
      ("resources", VDict [("requests", VDict [("storage", storage_size)])]);
      ("storageClassName", storage_class)])] in
  try_except
    (create_namespaced PersistentVolumeClaim namespace pvc)
    (fun e =>
       match e with
       | ApiException status _ =>
           Some (if status =? 409
                 then logger INFO ("PVC " ++ pvc_name ++ " already exists, skipping creation")
                 else raise e)
       | _ => None
       end).

Definition odoo_conf : string := "
[options]
; This is the password that allows database operations:
admin_passwd = $ODOO_ADMIN_PASSWORD
db_host = $ODOO_DB_HOST
db_port = $ODOO_DB_PORT
db_user = $ODOO_DB_USER
db_password = $ODOO_DB_PASSWORD
addons_path = /mnt/extra-addons
data_dir = /var/lib/odoo
proxy_mode = True
".

Definition create_config_map (name namespace : string) (spec : dict) : M unit :=
  let config_map_name := "odoo-config-" ++ name in
  owner <- owner_references name namespace ;;
  let config_map := VDict [
    ("apiVersion", VStr "v1");
    ("kind", VStr "ConfigMap");
    ("metadata", VDict [
      ("name", VStr config_map_name);
      ("namespace", VStr namespace);
      ("labels", VDict [
        ("app.kubernetes.io/name", VStr "odoo");
        ("app.kubernetes.io/instance", VStr name);
        ("app.kubernetes.io/managed-by", VStr "odoo-operator")]);
      ("ownerReferences", owner)]);
    ("data", VDict [("odoo.conf", VStr odoo_conf)])] in
  try_except
    (create_namespaced ConfigMap namespace config_map)
    (fun e =>
       match e with
       | ApiException status _ =>
           Some (if status =? 409
                 then logger INFO ("ConfigMap " ++ config_map_name
                                   ++ " already exists, skipping creation")
                 else raise e)
       | _ => None
       end).

Definition update_config_map (name namespace : string) (spec : dict) : M unit :=
  let config_map_name := "odoo-config-" ++ name in
  try_except
    (current_cm <- read_namespaced ConfigMap config_map_name namespace ;;
     patch_namespaced ConfigMap config_map_name namespace current_cm)
    (fun e =>
       match e with
       | ApiException status _ =>
           Some (if status =? 404
                 then create_config_map name namespace spec
                 else raise e)
       | _ => None
       end).

Definition create_filestore_pvc (name namespace : string) (spec : dict) : M unit :=
  filestore_spec <- ret (dict_get spec "filestore" (VDict [])) ;;
  storage_size <- lift (py_get filestore_spec "storageSize" (VStr "10Gi")) ;;
  storage_class <- lift (py_get filestore_spec "storageClass" (VStr DEFAULT_STORAGE_CLASS)) ;;
  let pvc_name := "odoo-filestore-" ++ name in
  owner <- owner_references name namespace ;;
  let pvc := VDict [
    ("apiVersion", VStr "v1");
    ("kind", VStr "PersistentVolumeClaim");
    ("metadata", VDict [
      ("name", VStr pvc_name);
      ("namespace", VStr namespace);
      ("labels", VDict [
        ("app.kubernetes.io/name", VStr "odoo");
        ("app.kubernetes.io/instance", VStr name);
        ("app.kubernetes.io/managed-by", VStr "odoo-operator");
        ("app.kubernetes.io/component", VStr "filestore")]);
      ("ownerReferences", owner)]);
    ("spec", VDict [
      ("accessModes", VList [VStr "ReadWriteOnce"]);
      ("resources", VDict [("requests", VDict [("storage", storage_size)])]);
      ("storageClassName", storage_class)])] in
  try_except
    (create_namespaced PersistentVolumeClaim namespace pvc)
    (fun e =>
       match e with
       | ApiException status _ =>
           Some (if status =? 409
                 then logger INFO ("PVC " ++ pvc_name ++ " already exists, skipping creation")
                 else raise e)
       | _ => None
       end).

(** Iteration over a value, as [for x in v] sees it. *)
Definition py_iter (v : value) : Result (list value) :=
  match v with
  | VList l => Ok l
  | VStr s => Ok (map (fun c => VStr (String c EmptyString)) (list_ascii_of_string s))
  | VDict d => Ok (map (fun kv => VStr (fst kv)) d)
  | _ => Raise (TypeError "object is not iterable")
  end.

Definition str_of_nat (i : nat) : string := str_of_Z (Z.of_nat i).

(** One round of the addon loop of [create_deployment]: the scratch
    volume, the init container and the mount of addon number [i]. *)
Definition addon_round (i : nat) (addon : value) : Result (value * value * value) :=
  match py_get addon "repo" VNone with
  | Raise e => Raise e
  | Ok repo =>
  match py_get addon "branch" (VStr "main") with
  | Raise e => Raise e
  | Ok branch =>
  match py_get addon "path" (VStr "") with
  | Raise e => Raise e
  | Ok path =>
      let volume_name := "addon-" ++ str_of_nat i in
      let mount_path := "/mnt/addons/" ++ str_of_nat i in
      let target_path := "/mnt/extra-addons/" ++ str_of_nat i in
      let target_path :=
        if truthy path then target_path ++ "/" ++ py_str path else target_path in
      Ok (VDict [("name", VStr volume_name); ("emptyDir", VDict [])],
          VDict [
            ("name", VStr ("clone-" ++ str_of_nat i));
            ("image", VStr "alpine/git");
            ("command", VList [VStr "git"; VStr "clone"; VStr "--depth"; VStr "1";
                               VStr "--branch"; branch; repo; VStr mount_path]);
            ("volumeMounts", VList [VDict [
               ("name", VStr volume_name); ("mountPath", VStr mount_path)]])],
          VDict [("name", VStr volume_name);
                 ("mountPath", VStr target_path);
                 ("subPath", path)])
  end end end.

(** [for i, addon in enumerate(addons)], collecting the three lists. *)
Fixpoint addon_loop (i : nat) (addons : list value)
  : Result (list value * list value * list value) :=
  match addons with
  | [] => Ok ([], [], [])
  | addon :: rest =>
      match addon_round i addon with
      | Raise e => Raise e
      | Ok (volume, init_container, mount) =>
          match addon_loop (S i) rest with
          | Raise e => Raise e
          | Ok (volumes, init_containers, mounts) =>
              Ok (volume :: volumes, init_container :: init_containers, mount :: mounts)
          end
      end
  end.

Definition create_deployment (name namespace : string) (spec : dict) : M unit :=
  let image := dict_get spec "image" (VStr DEFAULT_ODOO_IMAGE) in
  let image :=
    if negb (truthy image)
    then VStr ("odoo:" ++ py_str (dict_get spec "version" (VStr "17.0")))
    else image in
  let replicas := dict_get spec "replicas" (VInt 1) in
  let resources := dict_get spec "resources" (VDict [
    ("limits", VDict [("cpu", VStr "2"); ("memory", VStr "4Gi")]);
    ("requests", VDict [("cpu", VStr "500m"); ("memory", VStr "1Gi")])]) in
  let env := dict_get spec "env" (VList []) in
  owner <- owner_references name namespace ;;
  let addons := dict_get spec "addons" (VList []) in
  parts <- (if truthy addons
            then (l <- lift (py_iter addons) ;; lift (addon_loop 0 l))
            else ret ([], [], [])) ;;
  let '(addon_volumes, init_containers, addon_volume_mounts) := parts in
  let deployment := VDict [
    ("apiVersion", VStr "apps/v1");
    ("kind", VStr "Deployment");
    ("metadata", VDict [
      ("name", VStr name);
      ("namespace", VStr namespace);
      ("labels", VDict [
        ("app.kubernetes.io/name", VStr "odoo");
        ("app.kubernetes.io/instance", VStr name);
        ("app.kubernetes.io/managed-by", VStr "odoo-operator")]);
      ("ownerReferences", owner)]);
    ("spec", VDict [
      ("replicas", replicas);
      ("selector", VDict [("matchLabels", VDict [
        ("app.kubernetes.io/name", VStr "odoo");
        ("app.kubernetes.io/instance", VStr name)])]);
      ("template", VDict [
        ("metadata", VDict [("labels", VDict [
          ("app.kubernetes.io/name", VStr "odoo");
          ("app.kubernetes.io/instance", VStr name)])]);
        ("spec", VDict ([
          ("containers", VList [VDict [
            ("name", VStr "odoo");
            ("image", image);
            ("ports", VList [
              VDict [("name", VStr "http"); ("containerPort", VInt 8069);
                     ("protocol", VStr "TCP")];
              VDict [("name", VStr "longpolling"); ("containerPort", VInt 8072);
                     ("protocol", VStr "TCP")]]);
            ("volumeMounts", VList (
              VDict [("name", VStr "filestore"); ("mountPath", VStr "/var/lib/odoo")]
              :: addon_volume_mounts));
            ("resources", resources);
            ("env", env)]]);
          ("volumes", VList (
            VDict [("name", VStr "filestore");
                   ("persistentVolumeClaim", VDict [
                      ("claimName", VStr (name ++ "-filestore"))])]
            :: addon_volumes))]
          ++ (if truthy addons
              then [("initContainers", VList init_containers)]
              else []))%list)])])] in
  try_except
    (create_namespaced Deployment namespace deployment ;;
     logger INFO ("Created Deployment: " ++ name ++ " in namespace: " ++ namespace))
    (fun e =>
       match e with
       | ApiException status _ =>
           Some (if status =? 409
                 then logger INFO ("Deployment " ++ name
                                   ++ " already exists in namespace: " ++ namespace)
                 else raise e)
       | _ => None
       end).

Definition update_deployment (name namespace : string) (spec : dict) : M unit :=
  try_except
    (current_deployment <- read_namespaced Deployment name namespace ;;
     let image := dict_get spec "image" (VStr DEFAULT_ODOO_IMAGE) in
     let image :=
       if negb (truthy image)
       then VStr ("odoo:" ++ py_str (dict_get spec "version" (VStr "17.0")))
       else image in
     let replicas := dict_get spec "replicas" (VInt 1) in
     let resources := dict_get spec "resources" (VDict []) in
     let env := dict_get spec "env" (VList []) in
     let container := [Attr "spec"; Attr "template"; Attr "spec"; Attr "containers"; Item 0] in
     current_deployment <- lift (assign [Attr "spec"; Attr "replicas"] replicas current_deployment) ;;
     current_deployment <- lift (assign (container ++ [Attr "image"])%list image current_deployment) ;;
     current_deployment <-
       (if truthy resources
        then lift (assign (container ++ [Attr "resources"])%list resources current_deployment)
        else ret current_deployment) ;;
     current_deployment <-
       (if truthy env
        then lift (assign (container ++ [Attr "env"])%list env current_deployment)
        else ret current_deployment) ;;
     patch_namespaced Deployment name namespace current_deployment ;;
     logger INFO ("Updated Deployment: " ++ name ++ " in namespace: " ++ namespace))
    (fun e =>
       match e with
       | ApiException status _ =>
           Some (if status =? 404
                 then create_deployment name namespace spec
                 else raise e)
       | _ => None
       end).

Definition create_service (name namespace : string) (spec : dict) : M unit :=
  owner <- owner_references name namespace ;;
  let service := VDict [
    ("apiVersion", VStr "v1");
    ("kind", VStr "Service");
    ("metadata", VDict [
      ("name", VStr name);
      ("namespace", VStr namespace);
      ("labels", VDict [
        ("app.kubernetes.io/name", VStr "odoo");
        ("app.kubernetes.io/instance", VStr name);
        ("app.kubernetes.io/managed-by", VStr "odoo-operator")]);
      ("ownerReferences", owner)]);
    ("spec", VDict [
      ("selector", VDict [
        ("app.kubernetes.io/name", VStr "odoo");
        ("app.kubernetes.io/instance", VStr name)]);
      ("ports", VList [
        VDict [("name", VStr "http"); ("port", VInt 80);
               ("targetPort", VStr "http"); ("protocol", VStr "TCP")];
        VDict [("name", VStr "longpolling"); ("port", VInt 8072);
               ("targetPort", VStr "longpolling"); ("protocol", VStr "TCP")]])])] in
  try_except
    (create_namespaced Service namespace service ;;
     logger INFO ("Created Service: " ++ name ++ " in namespace: " ++ namespace))
    (fun e =>
       match e with
       | ApiException status _ =>
           Some (if status =? 409
                 then logger INFO ("Service " ++ name
                                   ++ " already exists in namespace: " ++ namespace)
                 else raise e)
       | _ => None
       end).

Definition update_service (name namespace : string) (spec : dict) : M unit :=
  let service_name := "odoo-" ++ name in
  try_except
    (current_svc <- read_namespaced Service service_name namespace ;;
     ret tt)
    (fun e =>
       match e with
       | ApiException status _ =>
           Some (if status =? 404
                 then create_service name namespace spec
                 else raise e)
       | _ => None
       end).

Definition create_ingress (name namespace : string) (spec : dict) : M unit :=
  let ingress_spec := dict_get spec "ingress" (VDict []) in
  hostname <- lift (py_get ingress_spec "hostname" VNone) ;;
  ingress_class <- lift (py_get ingress_spec "className" (VStr DEFAULT_INGRESS_CLASS)) ;;
  annotations <- lift (py_get ingress_spec "annotations" (VDict [])) ;;
  tls <- lift (py_get ingress_spec "tls" (VBool true)) ;;
  tls_secret <- lift (py_get ingress_spec "tlsSecret" (VStr (name ++ "-tls"))) ;;
  owner <- owner_references name namespace ;;
  let ingress := VDict [
    ("apiVersion", VStr "networking.k8s.io/v1");
    ("kind", VStr "Ingress");
    ("metadata", VDict [
      ("name", VStr name);
      ("namespace", VStr namespace);
      ("labels", VDict [
        ("app.kubernetes.io/name", VStr "odoo");
        ("app.kubernetes.io/instance", VStr name);
        ("app.kubernetes.io/managed-by", VStr "odoo-operator")]);
      ("annotations", annotations);
      ("ownerReferences", owner)]);
    ("spec", VDict ([
      ("ingressClassName", ingress_class);
      ("rules", VList [VDict [
        ("host", hostname);
        ("http", VDict [("paths", VList [VDict [
          ("path", VStr "/");
          ("pathType", VStr "Prefix");
          ("backend", VDict [("service", VDict [
            ("name", VStr name);
            ("port", VDict [("name", VStr "http")])])])]])])]])]
      ++ (if truthy tls
          then [("tls", VList [VDict [
                  ("hosts", VList [hostname]);
                  ("secretName", tls_secret)]])]
          else []))%list)] in
  try_except
    (create_namespaced Ingress namespace ingress ;;
     logger INFO ("Created Ingress: " ++ name ++ " in namespace: " ++ namespace))
    (fun e =>
       match e with
       | ApiException status _ =>
           Some (if status =? 409
                 then logger INFO ("Ingress " ++ name
                                   ++ " already exists in namespace: " ++ namespace)
                 else raise e)
       | _ => None
       end).

Definition update_ingress (name namespace : string) (spec : dict) : M unit :=
  try_except
    (current_ingress <- read_namespaced Ingress name namespace ;;
     let ingress_spec := dict_get spec "ingress" (VDict []) in
     hostname <- lift (py_get ingress_spec "hostname" VNone) ;;
     ingress_class <- lift (py_get ingress_spec "className" (VStr DEFAULT_INGRESS_CLASS)) ;;
     annotations <- lift (py_get ingress_spec "annotations" (VDict [])) ;;
     tls <- lift (py_get ingress_spec "tls" (VBool true)) ;;
     tls_secret <- lift (py_get ingress_spec "tlsSecret" (VStr (name ++ "-tls"))) ;;
     current_ingress <-
       lift (assign [Attr "spec"; Attr "ingressClassName"] ingress_class current_ingress) ;;
     current_ingress <-
       (if truthy hostname
        then lift (assign [Attr "spec"; Attr "rules"; Item 0; Attr "host"]
                     hostname current_ingress)
        else ret current_ingress) ;;
     current_ingress <-
       (if truthy annotations
        then lift (assign [Attr "metadata"; Attr "annotations"] annotations current_ingress)
        else ret current_ingress) ;;
     current_ingress <-
       (if truthy tls
        then lift (assign [Attr "spec"; Attr "tls"]
                     (VList [VDict [("hosts", VList [hostname]);
                                    ("secretName", tls_secret)]])
                     current_ingress)
        else lift (assign [Attr "spec"; Attr "tls"] (VList []) current_ingress)) ;;
     patch_namespaced Ingress name namespace current_ingress ;;
     logger INFO ("Updated Ingress: " ++ name ++ " in namespace: " ++ namespace))
    (fun e =>
       match e with
       | ApiException status _ =>
           Some (if status =? 404
                 then create_ingress name namespace spec
                 else raise e)
       | _ => None
       end).

Fixpoint random_string (alphabet : string) (n : nat) : M string :=
  match n with
  | O => ret ""
  | S n' =>
      c <- random_choice alphabet ;;
      rest <- random_string alphabet n' ;;
      ret (c ++ rest)
  end.

Definition ascii_letters : string :=
  "abcdefghijklmnopqrstuvwxyzABCDEFGHIJKLMNOPQRSTUVWXYZ".
Definition digits : string := "0123456789".

Definition generate_db_password : M string :=
  random_string (ascii_letters ++ digits) 16.

Definition create_db_credentials_secret
  (name namespace db_user db_password : string) (db_name : option string) : M unit :=
  let secret_name := "odoo-db-credentials-" ++ name in
  owner <- owner_references name namespace ;;
  let secret := VDict [
    ("apiVersion", VStr "v1");
    ("kind", VStr "Secret");
    ("metadata", VDict [
      ("name", VStr secret_name);
      ("namespace", VStr namespace);
      ("labels", VDict [
        ("app.kubernetes.io/name", VStr "odoo");
        ("app.kubernetes.io/instance", VStr name);
        ("app.kubernetes.io/managed-by", VStr "odoo-operator")]);
      ("ownerReferences", owner)]);
    ("type", VStr "Opaque");
    ("data", VDict ([
      ("host", VStr (b64 DB_HOST));
      ("port", VStr (b64 DB_PORT));
      ("username", VStr (b64 db_user));
      ("password", VStr (b64 db_password))]
      ++ match db_name with
         | Some n => if String.eqb n "" then [] else [("database", VStr (b64 n))]
         | None => []
         end)%list)] in
  try_except
    (create_namespaced Secret namespace secret ;;
     logger INFO ("Created Secret " ++ secret_name ++ " for database credentials"))
    (fun e =>
       match e with
       | ApiException status _ =>
           Some (if status =? 409
                 then logger INFO ("Secret " ++ secret_name
                                   ++ " already exists, skipping creation")
                 else raise e)
       | _ => None
       end).

(** The administrator password, read from its secret. *)
Definition read_admin_password (namespace : string) : M string :=
  try_except
    (let secret_namespace :=
       if String.eqb DB_ADMIN_PASSWORD_SECRET_NAMESPACE "" then namespace
       else DB_ADMIN_PASSWORD_SECRET_NAMESPACE in
     secret <- read_namespaced Secret DB_ADMIN_PASSWORD_SECRET secret_namespace ;;
     data <- lift (py_attr secret "data") ;;
     encoded <- lift (subscript data DB_ADMIN_PASSWORD_SECRET_KEY) ;;
     match encoded with
     | VStr e =>
         raw <- lift (b64decode e) ;;
         lift (utf8_decode raw)
     | _ => raise (TypeError "argument should be a bytes-like object or ASCII string")
     end)
    (fun e =>
       match e with
       | ApiException _ _ =>
           Some (logger ERROR ("Error reading admin password secret: " ++ str_exn e) ;;
                 raise e)
       | _ => None
       end).

Definition create_database_user
  (name namespace : string) (db_password : option string)
  : M (string * string * string) :=
  let db_name := generate_db_name name namespace in
  let db_user := generate_db_username name namespace in
  db_password <- match db_password with
                 | None => generate_db_password
                 | Some p => ret p
                 end ;;
  try_except (import_module "psycopg2")
    (fun e =>
       match e with
       | ImportError _ =>
           Some (logger ERROR
                   "psycopg2 is not installed. Please install it with 'pip install psycopg2-binary'" ;;
                 raise e)
       | _ => None
       end) ;;
  admin_password <- read_admin_password namespace ;;
  try_except
    (psycopg2_connect DB_HOST DB_PORT DB_ADMIN_USER admin_password "postgres" ;;
     user_exists <- pg_role_exists db_user ;;
     (if negb user_exists
      then pg_create_user db_user db_password ;;
           logger INFO ("Created database user " ++ db_user)
      else pg_alter_user_password db_user db_password ;;
           logger INFO ("Updated password for database user " ++ db_user)) ;;
     database_exists <- pg_database_exists db_name ;;
     (if negb database_exists
      then pg_create_database db_name db_user ;;
           logger INFO ("Created database " ++ db_name ++ " owned by " ++ db_user)
      else pg_alter_database_owner db_name db_user ;;
           logger INFO ("Updated owner of database " ++ db_name ++ " to " ++ db_user)) ;;
     create_db_credentials_secret name namespace db_user db_password (Some db_name) ;;
     ret (db_user, db_password, db_name))
    (fun e =>
       Some (logger ERROR ("Error creating database user or database: " ++ str_exn e) ;;
             raise e)).

(** The address published in the status: set only when a host name is
    given, [https] unless TLS is switched off. *)
Definition instance_url (spec : dict) : M value :=
  hostname <- lift (py_get (dict_get spec "ingress" (VDict [])) "hostname" VNone) ;;
  if truthy hostname then
    tls <- lift (py_get (dict_get spec "ingress" (VDict [])) "tls" (VBool true)) ;;
    let protocol := if truthy tls then "https" else "http" in
    ingress <- lift (subscript (VDict spec) "ingress") ;;
    hostname <- lift (subscript ingress "hostname") ;;
    ret (VStr (protocol ++ "://" ++ py_str hostname))
  else ret VNone.

Definition create_odoo_instance (spec : dict) (name namespace : string) : M value :=
  logger INFO ("Creating OdooInstance: " ++ name ++ " in namespace: " ++ namespace) ;;
  patch_status name namespace [
    ("phase", VStr "Pending");
    ("message", VStr "Creating resources");
    ("ready", VBool false)] ;;
  try_except
    (create_filestore_pvc name namespace spec ;;
     logger INFO ("Created filestore PVC for " ++ name) ;;
     create_config_map name namespace spec ;;
     logger INFO ("Created ConfigMap for " ++ name) ;;
     create_deployment name namespace spec ;;
     logger INFO ("Created deployment for " ++ name) ;;
     create_service name namespace spec ;;
     logger INFO ("Created service for " ++ name) ;;
     enabled <- lift (py_get (dict_get spec "ingress" (VDict [])) "enabled" (VBool true)) ;;
     url <- (if truthy enabled
             then create_ingress name namespace spec ;;
                  logger INFO ("Created ingress for " ++ name) ;;
                  instance_url spec
             else ret VNone) ;;
     patch_status name namespace [
       ("phase", VStr "Running");
       ("ready", VBool true);
       ("url", url);
       ("message", VStr "Odoo instance created successfully")] ;;
     logger INFO ("Successfully created OdooInstance: " ++ name
                  ++ " in namespace: " ++ namespace) ;;
     ret (VDict [
       ("status", VStr "success");
       ("message", VStr "Odoo instance created successfully");
       ("url", url)]))
    (fun e =>
       match e with
       | ApiException _ _ =>
           Some (let error_msg := "Error creating resources: " ++ str_exn e in
                 logger ERROR error_msg ;;
                 patch_status name namespace [
                   ("phase", VStr "Failed");
                   ("ready", VBool false);
                   ("message", VStr error_msg)] ;;
                 raise (PermanentError error_msg))
       | _ => None
       end).

(** One entry of the dispatcher's diff: operation, field path, old and new
    value. *)
Abbreviation diff_item := (string * list value * value * value)%type.

Fixpoint log_changes (diff : list diff_item) : M unit :=
  match diff with
  | [] => ret tt
  | (op, path, old_val, new_val) :: rest =>
      let path_str := str_join "." (map py_str path) in
      logger INFO ("Change detected: " ++ op ++ " " ++ path_str ++ " from "
                   ++ py_str old_val ++ " to " ++ py_str new_val) ;;
      log_changes rest
  end.

Definition update_odoo_instance
  (spec : dict) (name namespace : string) (old : dict) (diff : list diff_item) : M value :=
  logger INFO ("Updating OdooInstance: " ++ name ++ " in namespace: " ++ namespace) ;;
  patch_status name namespace [
    ("phase", VStr "Updating");
    ("message", VStr "Updating resources")] ;;
  log_changes diff ;;
  try_except
    (update_config_map name namespace spec ;;
     update_deployment name namespace spec ;;
     update_service name namespace spec ;;
     enabled <- lift (py_get (dict_get spec "ingress" (VDict [])) "enabled" (VBool true)) ;;
     url <- (if truthy enabled then
               old_enabled <- lift (py_get (dict_get old "ingress" (VDict []))
                                      "enabled" (VBool true)) ;;
               (if truthy old_enabled
                then update_ingress name namespace spec
                else create_ingress name namespace spec) ;;
               instance_url spec
             else
               old_enabled <- lift (py_get (dict_get old "ingress" (VDict []))
                                      "enabled" (VBool true)) ;;
               (if truthy old_enabled then
                  try_except
                    (delete_namespaced Ingress ("odoo-" ++ name) namespace ;;
                     logger INFO ("Deleted ingress for " ++ name))
                    (fun e =>
                       match e with
                       | ApiException status _ =>
                           Some (if negb (status =? 404) then raise e else ret tt)
                       | _ => None
                       end)
                else ret tt) ;;
               ret VNone) ;;
     patch_status name namespace [
       ("phase", VStr "Running");
       ("ready", VBool true);
       ("url", url);
       ("message", VStr "Odoo instance updated successfully")] ;;
     logger INFO ("Successfully updated OdooInstance: " ++ name
                  ++ " in namespace: " ++ namespace) ;;
     ret (VDict [
       ("status", VStr "success");
       ("message", VStr "Odoo instance updated successfully")]))
    (fun e =>
       match e with
       | ApiException _ _ =>
           Some (let error_msg := "Error updating resources: " ++ str_exn e in
                 logger ERROR error_msg ;;
                 patch_status name namespace [
                   ("phase", VStr "Failed");
                   ("message", VStr error_msg)] ;;
                 raise (PermanentError error_msg))
       | _ => None
       end).

(** The clean-up of the external database inside [delete_odoo_instance]. *)
Definition database_cleanup (name namespace : string) : M unit :=
  let db_name := generate_db_name name namespace in
  let db_user := generate_db_username name namespace in
  try_except (import_module "psycopg2")
    (fun e =>
       match e with
       | ImportError _ =>
           Some (logger ERROR
                   "psycopg2 is not installed. Please install it with 'pip install psycopg2-binary'" ;;
                 raise e)
       | _ => None
       end) ;;
  admin_password <- read_admin_password namespace ;;
  psycopg2_connect DB_HOST DB_PORT DB_ADMIN_USER admin_password "postgres" ;;
  database_exists <- pg_database_exists db_name ;;
  (if database_exists
   then pg_terminate_backends db_name ;;
        pg_drop_database_if_exists db_name ;;
        logger INFO ("Dropped database " ++ db_name)
   else ret tt) ;;
  user_exists <- pg_role_exists db_user ;;
  (if user_exists
   then pg_drop_role_if_exists db_user ;;
        logger INFO ("Dropped database user " ++ db_user)
   else ret tt).

Definition delete_odoo_instance (spec : dict) (name namespace : string) : M value :=
  logger INFO ("Deleting OdooInstance: " ++ name ++ " in namespace: " ++ namespace) ;;
  try_except
    (database_cleanup name namespace)
    (fun e =>
       Some (logger WARNING ("Failed to clean up database user and database: " ++ str_exn e) ;;
             logger WARNING
               "Continuing with deletion, but database resources may not be fully cleaned up")) ;;
  logger INFO ("OdooInstance " ++ name ++ " in namespace " ++ namespace ++ " has been deleted") ;;
  ret (VDict [
    ("status", VStr "success");
    ("message", VStr "Odoo instance deleted successfully")]).

End Operator.

(** ** The earlier definitions that the later ones replace *)

Module Shadowed.
Section Operator.

Variable environ : string -> option string.

(** [s.split(':')[0]] *)
Fixpoint before_colon (s : string) : string :=
  match s with
  | EmptyString => EmptyString
  | String c s' => if Ascii.eqb c ":"%char then EmptyString else String c (before_colon s')
  end.

(** [next((e for e in env if e['name'] == env_var['name']), None)] *)
Fixpoint find_by_name (env : list value) (env_var : value) : Result value :=
  match env with
  | [] => Ok VNone
  | e :: rest =>
      match subscript e "name" with
      | Raise x => Raise x
      | Ok n =>
          match subscript env_var "name" with
          | Raise x => Raise x
          | Ok n' => if py_eq n n' then Ok e else find_by_name rest env_var
          end
      end
  end.

(** [for env_var in custom: ...] of [create_deployment] *)
Fixpoint overlay_env (env custom : list value) : Result (list value) :=
  match custom with
  | [] => Ok env
  | env_var :: rest =>
      match find_by_name env env_var with
      | Raise x => Raise x
      | Ok existing =>
          match (if truthy existing then list_remove existing env else Ok env) with
          | Raise x => Raise x
          | Ok env' => overlay_env (env' ++ [env_var])%list rest
          end
      end
  end.

Definition secret_key_ref (var : string) (secret_name key : value) : value :=
  VDict [("name", VStr var);
         ("valueFrom", VDict [("secretKeyRef", VDict [
            ("name", secret_name); ("key", key)])])].

Fixpoint init_container_loop (i : nat) (addons : list value) : Result (list value) :=
  match addons with
  | [] => Ok []
  | addon :: rest =>
      match py_get addon "repo" VNone with
      | Raise e => Raise e
      | Ok repo =>
      match py_get addon "branch" (VStr "main") with
      | Raise e => Raise e
      | Ok branch =>
      match py_get addon "path" (VStr "") with
      | Raise e => Raise e
      | Ok path =>
          let init_container := VDict [
            ("name", VStr ("clone-addons-" ++ str_of_nat i));
            ("image", VStr "alpine/git:latest");
            ("command", VList [VStr "sh"; VStr "-c"]);
            ("args", VList [VStr (
               "git clone --depth 1 --branch " ++ py_str branch ++ " " ++ py_str repo
               ++ " /tmp/addons && "
               ++ "mkdir -p /mnt/extra-addons/" ++ str_of_nat i ++ " && "
               ++ "cp -r /tmp/addons/" ++ py_str path ++ "/* /mnt/extra-addons/"
               ++ str_of_nat i ++ "/")]);
            ("volumeMounts", VList [VDict [
               ("name", VStr "odoo-addons");
               ("mountPath", VStr "/mnt/extra-addons")]])] in
          match init_container_loop (S i) rest with
          | Raise e => Raise e
          | Ok l => Ok (init_container :: l)
          end
      end end end
  end.

Definition create_deployment (name namespace : string) (spec : dict) : M unit :=
  let version := dict_get spec "version" VNone in
  let image := dict_get spec "image"
                 (VStr (before_colon (DEFAULT_ODOO_IMAGE environ) ++ ":" ++ py_str version)) in
  let replicas := dict_get spec "replicas" (VInt 1) in
  let resources := dict_get spec "resources" (VDict []) in
  credentials <-
    try_except
      (create_database_user environ name namespace None)
      (fun e =>
         Some (logger WARNING ("Failed to create database user and database: " ++ str_exn e) ;;
               logger WARNING
                 "Continuing with deployment, but database access may not work correctly" ;;
               let db_name := generate_db_name name namespace in
               let db_user := generate_db_username name namespace in
               db_password <- generate_db_password ;;
               create_db_credentials_secret environ name namespace db_user db_password
                 (Some db_name) ;;
               ret (db_user, db_password, db_name))) ;;
  let secret_name := VStr ("odoo-db-credentials-" ++ name) in
  admin_name <- lift (py_get (dict_get spec "adminSecret" (VDict [])) "name"
                        (VStr "odoo-admin-credentials")) ;;
  admin_key <- lift (py_get (dict_get spec "adminSecret" (VDict [])) "key"
                       (VStr "admin-password")) ;;
  let env := [
    secret_key_ref "ODOO_DB_HOST" secret_name (VStr "host");
    secret_key_ref "ODOO_DB_PORT" secret_name (VStr "port");
    secret_key_ref "ODOO_DB_USER" secret_name (VStr "username");
    secret_key_ref "ODOO_DB_PASSWORD" secret_name (VStr "password");
    secret_key_ref "ODOO_DB_NAME" secret_name (VStr "database");
    secret_key_ref "ODOO_ADMIN_PASSWORD" admin_name admin_key] in
  env <- (if dict_has "env" spec && truthy (dict_get spec "env" VNone)
          then custom <- lift (py_iter (dict_get spec "env" VNone)) ;;
               lift (overlay_env env custom)
          else ret env) ;;
  let with_addons := truthy (dict_get spec "addons" VNone) in
  let volumes := ([
    VDict [("name", VStr "odoo-config");
           ("configMap", VDict [("name", VStr ("odoo-config-" ++ name))])];
    VDict [("name", VStr "odoo-filestore");
           ("persistentVolumeClaim", VDict [
              ("claimName", VStr ("odoo-filestore-" ++ name))])]]
    ++ (if with_addons
        then [VDict [("name", VStr "odoo-addons"); ("emptyDir", VDict [])]]
        else []))%list in
  let volume_mounts := ([
    VDict [("name", VStr "odoo-config"); ("mountPath", VStr "/etc/odoo");
           ("readOnly", VBool true)];
    VDict [("name", VStr "odoo-filestore"); ("mountPath", VStr "/var/lib/odoo");
           ("subPath", VStr "filestore")]]
    ++ (if with_addons
        then [VDict [("name", VStr "odoo-addons"); ("mountPath", VStr "/mnt/extra-addons")]]
        else []))%list in
  owner <- owner_references name namespace ;;
  init_containers <-
    (if with_addons
     then l <- lift (py_iter (dict_get spec "addons" (VList []))) ;;
          lift (init_container_loop 0 l)
     else ret []) ;;
  let probe (extra : dict) := VDict ([
    ("httpGet", VDict [("path", VStr "/web/health"); ("port", VStr "http")])]
    ++ extra)%list in
  let deployment := VDict [
    ("apiVersion", VStr "apps/v1");
    ("kind", VStr "Deployment");
    ("metadata", VDict [
      ("name", VStr ("odoo-" ++ name));
      ("namespace", VStr namespace);
      ("labels", VDict [
        ("app.kubernetes.io/name", VStr "odoo");
        ("app.kubernetes.io/instance", VStr name);
        ("app.kubernetes.io/version", version);
        ("app.kubernetes.io/managed-by", VStr "odoo-operator")]);
      ("ownerReferences", owner)]);
    ("spec", VDict [
      ("replicas", replicas);
      ("selector", VDict [("matchLabels", VDict [
        ("app.kubernetes.io/name", VStr "odoo");
        ("app.kubernetes.io/instance", VStr name)])]);
      ("template", VDict [
        ("metadata", VDict [("labels", VDict [
          ("app.kubernetes.io/name", VStr "odoo");
          ("app.kubernetes.io/instance", VStr name);
          ("app.kubernetes.io/version", version)])]);
        ("spec", VDict ([
          ("containers", VList [VDict [
            ("name", VStr "odoo");
            ("image", image);
            ("ports", VList [
              VDict [("name", VStr "http"); ("containerPort", VInt 8069);
                     ("protocol", VStr "TCP")];
              VDict [("name", VStr "longpolling"); ("containerPort", VInt 8072);
                     ("protocol", VStr "TCP")]]);
            ("env", VList env);
            ("volumeMounts", VList volume_mounts);
            ("resources", resources);
            ("livenessProbe", probe [
              ("initialDelaySeconds", VInt 60); ("periodSeconds", VInt 10);
              ("timeoutSeconds", VInt 5); ("failureThreshold", VInt 6)]);
            ("readinessProbe", probe [
              ("initialDelaySeconds", VInt 30); ("periodSeconds", VInt 10);
              ("timeoutSeconds", VInt 5); ("successThreshold", VInt 1);
              ("failureThreshold", VInt 6)])]]);
          ("volumes", VList volumes)]
          ++ (if with_addons
              then [("initContainers", VList init_containers)]
              else []))%list)])])] in
  try_except
    (create_namespaced Deployment namespace deployment)
    (fun e =>
       match e with
       | ApiException status _ =>
           Some (if status =? 409
                 then logger INFO ("Deployment odoo-" ++ name
                                   ++ " already exists, skipping creation")
                 else raise e)
       | _ => None
       end).

Definition create_service (name namespace : string) (spec : dict) : M unit :=
  owner <- owner_references name namespace ;;
  let service := VDict [
    ("apiVersion", VStr "v1");
    ("kind", VStr "Service");
    ("metadata", VDict [
      ("name", VStr ("odoo-" ++ name));
      ("namespace", VStr namespace);
      ("labels", VDict [
        ("app.kubernetes.io/name", VStr "odoo");
        ("app.kubernetes.io/instance", VStr name);
        ("app.kubernetes.io/managed-by", VStr "odoo-operator")]);
      ("ownerReferences", owner)]);
    ("spec", VDict [
      ("ports", VList [
        VDict [("name", VStr "http"); ("port", VInt 80);
               ("targetPort", VInt 8069); ("protocol", VStr "TCP")];
        VDict [("name", VStr "longpolling"); ("port", VInt 8072);
               ("targetPort", VInt 8072); ("protocol", VStr "TCP")]]);
      ("selector", VDict [
        ("app.kubernetes.io/name", VStr "odoo");
        ("app.kubernetes.io/instance", VStr name)]);
      ("type", VStr "ClusterIP")])] in
  try_except
    (create_namespaced Service namespace service)
    (fun e =>
       match e with
       | ApiException status _ =>
           Some (if status =? 409
                 then logger INFO ("Service odoo-" ++ name
                                   ++ " already exists, skipping creation")
                 else raise e)
       | _ => None
       end).

Definition create_ingress (name namespace : string) (spec : dict) : M unit :=
  let ingress_spec := dict_get spec "ingress" (VDict []) in
  hostname <- lift (py_get ingress_spec "hostname" VNone) ;;
  class_name <- lift (py_get ingress_spec "className" (VStr (DEFAULT_INGRESS_CLASS environ))) ;;
  tls_enabled <- lift (py_get ingress_spec "tls" (VBool true)) ;;
  tls_secret <- lift (py_get ingress_spec "tlsSecret" VNone) ;;
  annotations <- lift (py_get ingress_spec "annotations" (VDict [])) ;;
  if negb (truthy hostname) then
    logger WARNING ("Ingress hostname not specified for " ++ name
                    ++ ", skipping ingress creation")
  else
    owner <- owner_references name namespace ;;
    let tls_config :=
      VDict [("hosts", VList [hostname]);
             ("secretName",
              if truthy tls_secret then tls_secret
              else VStr ("odoo-" ++ name ++ "-tls"))] in
    let ingress := VDict [
      ("apiVersion", VStr "networking.k8s.io/v1");
      ("kind", VStr "Ingress");
      ("metadata", VDict [
        ("name", VStr ("odoo-" ++ name));
        ("namespace", VStr namespace);
        ("labels", VDict [
          ("app.kubernetes.io/name", VStr "odoo");
          ("app.kubernetes.io/instance", VStr name);
          ("app.kubernetes.io/managed-by", VStr "odoo-operator")]);
        ("annotations", annotations);
        ("ownerReferences", owner)]);
      ("spec", VDict ([
        ("ingressClassName", class_name);
        ("rules", VList [VDict [
          ("host", hostname);
          ("http", VDict [("paths", VList [VDict [
            ("path", VStr "/");
            ("pathType", VStr "Prefix");
            ("backend", VDict [("service", VDict [
              ("name", VStr ("odoo-" ++ name));
              ("port", VDict [("name", VStr "http")])])])]])])]])]
        ++ (if truthy tls_enabled then [("tls", VList [tls_config])] else []))%list)] in
    try_except
      (create_namespaced Ingress namespace ingress)
      (fun e =>
         match e with
         | ApiException status _ =>
             Some ((if status =? 409
                    then logger INFO ("Ingress odoo-" ++ name
                                      ++ " already exists, skipping creation")
                    else raise e) ;;
                   (* the handler goes on to a message about [pvc_name],
                      a name that is bound nowhere *)
                   raise (NameError "name 'pvc_name' is not defined"))
         | _ => None
         end).

End Operator.
End Shadowed.

(** ** Admission gate *)

(** Characters that [str.strip] and [int] treat as white space. *)
Definition is_space (c : ascii) : bool :=
  let n := N_of_ascii c in
  ((n =? 32) || ((9 <=? n) && (n <=? 13)) || ((28 <=? n) && (n <=? 31))
   || (n =? 133) || (n =? 160))%N.

Fixpoint lstrip (s : string) : string :=
  match s with
  | String c s' => if is_space c then lstrip s' else s
  | EmptyString => EmptyString
  end.

Definition rev_string (s : string) : string :=
  string_of_list_ascii (rev (list_ascii_of_string s)).

Definition strip (s : string) : string := rev_string (lstrip (rev_string (lstrip s))).

Definition digit_of (c : ascii) : option Z :=
  let n := Z.of_N (N_of_ascii c) in
  if (48 <=? n) && (n <=? 57) then Some (n - 48) else None.

(** Digits with single underscores between them; [prev_digit] tells
    whether the character before was a digit. *)
Fixpoint parse_digits (s : string) (acc : Z) (prev_digit : bool) : option Z :=
  match s with
  | EmptyString => if prev_digit then Some acc else None
  | String c s' =>
      match digit_of c with
      | Some d => parse_digits s' (10 * acc + d) true
      | None =>
          if Ascii.eqb c "_"%char && prev_digit
          then match s' with
               | String c' _ =>
                   match digit_of c' with
                   | Some _ => parse_digits s' acc false
                   | None => None
                   end
               | EmptyString => None
               end
          else None
      end
  end.

Definition is_digit (c : ascii) : bool :=
  match digit_of c with Some _ => true | None => false end.

(** The leading run of digits and underscores of a literal, and what
    follows it. *)
Fixpoint digit_run (s : string) : string * string :=
  match s with
  | String c s' =>
      if is_digit c || Ascii.eqb c "_"%char
      then let '(run, rest) := digit_run s' in (String c run, rest)
      else (EmptyString, s)
  | EmptyString => (EmptyString, EmptyString)
  end.

(** [sys.get_int_max_str_digits()], at its default. *)
Definition int_max_str_digits : Z := 4300.

(** [int(v)] *)
Definition py_int (v : value) : Result Z :=
  match v with
  | VInt n => Ok n
  | VBool b => Ok (if b then 1 else 0)
  | VStr s =>
      let body := strip s in
      let '(sign, body) :=
        match body with
        | String c rest =>
            if Ascii.eqb c "-"%char then (-1, rest)
            else if Ascii.eqb c "+"%char then (1, rest)
            else (1, body)
        | EmptyString => (1, body)
        end in
      let invalid := ValueError ("invalid literal for int() with base 10: " ++ repr_str s) in
      let '(run, rest) := digit_run body in
      match parse_digits run 0 false with
      | Some n =>
          let digits := length (filter is_digit (list_ascii_of_string run)) in
          if int_max_str_digits <? Z.of_nat digits then
            Raise (ValueError
                     ("Exceeds the limit (" ++ str_of_Z int_max_str_digits
                      ++ " digits) for integer string conversion: value has "
                      ++ str_of_nat digits
                      ++ " digits; use sys.set_int_max_str_digits() to increase the limit"))
          else if String.eqb rest "" then Ok (sign * n)
          else Raise invalid
      | None => Raise invalid
      end
  | _ => Raise (TypeError "int() argument must be a string, a bytes-like object or a real number")
  end.

(** The two patterns of [validate_odoo_instance]:
    a run of digits and a unit letter with an optional [i], and a run of
    digits with an optional [m]. *)
Fixpoint skip_digits (s : string) : string :=
  match s with
  | String c s' => if is_digit c then skip_digits s' else s
  | EmptyString => EmptyString
  end.

Definition starts_with_digit (s : string) : bool :=
  match s with
  | String c _ => is_digit c
  | EmptyString => false
  end.

Definition memory_pattern (s : string) : bool :=
  starts_with_digit s &&
  match skip_digits s with
  | String u rest =>
      has_char u "KMGTPEkmgtpe"
      && (String.eqb rest "" || String.eqb rest "i"
          || String.eqb rest newline || String.eqb rest ("i" ++ newline))
  | EmptyString => false
  end.

Definition cpu_pattern (s : string) : bool :=
  starts_with_digit s &&
  let rest := skip_digits s in
  (String.eqb rest "" || String.eqb rest "m"
   || String.eqb rest newline || String.eqb rest ("m" ++ newline)).

(** [re.match(pattern, s)]: the module uses the name [re] and never
    imports it, so the call fails at the name, before its arguments are
    looked at. *)
Definition re_match (pattern : string -> bool) (s : Result value) : Result bool :=
  Raise (NameError "name 're' is not defined").

Definition validate_odoo_instance (instance : value) : Result (bool * value) :=
  match py_get instance "spec" (VDict []) with
  | Raise e => Raise e
  | Ok spec =>
  match py_get spec "version" VNone with
  | Raise e => Raise e
  | Ok version =>
  if negb (truthy version)
  then Ok (false, VStr "'version' is required in the OdooInstance spec")
  else
  match spec with
  | VDict d =>
      if dict_has "image" d && negb (truthy (dict_get d "image" VNone))
      then Ok (false, VStr "'image' cannot be empty if specified")
      else
      let replicas_check : Result (option (bool * value)) :=
        if dict_has "replicas" d then
          match py_int (dict_get d "replicas" VNone) with
          | Ok replicas =>
              if replicas <? 1
              then Ok (Some (false, VStr "'replicas' must be at least 1"))
              else Ok None
          | Raise (ValueError _) | Raise (TypeError _) =>
              Ok (Some (false, VStr "'replicas' must be a valid integer"))
          | Raise e => Raise e
          end
        else Ok None in
      match replicas_check with
      | Raise e => Raise e
      | Ok (Some r) => Ok r
      | Ok None =>
      if dict_has "resources" d then
        let resources := dict_get d "resources" VNone in
        match py_in "limits" resources with
        | Raise e => Raise e
        | Ok false => Ok (true, VNone)
        | Ok true =>
        match subscript resources "limits" with
        | Raise e => Raise e
        | Ok limits =>
        match py_in "memory" limits with
        | Raise e => Raise e
        | Ok has_memory =>
        match (if has_memory
               then re_match memory_pattern (subscript limits "memory")
               else Ok true) with
        | Raise e => Raise e
        | Ok false => Ok (false, VStr "Invalid memory limit format")
        | Ok true =>
        match py_in "cpu" limits with
        | Raise e => Raise e
        | Ok has_cpu =>
        match (if has_cpu
               then re_match cpu_pattern (subscript limits "cpu")
               else Ok true) with
        | Raise e => Raise e
        | Ok false => Ok (false, VStr "Invalid CPU limit format")
        | Ok true => Ok (true, VNone)
        end end end end end end
      else Ok (true, VNone)
      end
  | _ => Raise (AttributeError "object has no attribute 'get'")
  end end end.

(** *** Mutable objects

    [alloc] puts an object on the heap; a name for an object inside it is
    the location with the keys that lead there, so whatever is written
    through one name is seen through every other. *)

Fixpoint fresh_from (h : gmap nat value) (fuel l : nat) : nat :=
  match fuel with
  | O => l
  | S fuel' =>
      match h !! l with
      | None => l
      | Some _ => fresh_from h fuel' (S l)
      end
  end.

Definition alloc (v : value) : M nat :=
  fun w => let l := fresh_from (heap w) (S (size (heap w))) O in
           (Ok l, set_heap (insert l v) w).

Definition deref (l : nat) : M value :=
  fun w => match heap w !! l with
           | Some v => (Ok v, w)
           | None => (Raise (NameError "dangling reference"), w)
           end.

Fixpoint resolve (v : value) (path : list string) : Result value :=
  match path with
  | [] => Ok v
  | k :: rest =>
      match subscript v k with
      | Ok sub => resolve sub rest
      | Raise e => Raise e
      end
  end.

(** [obj[k] = x] on the object found at [path] below [v]. *)
Fixpoint setitem_at (v : value) (path : list string) (k : string) (x : value)
  : Result value :=
  match path with
  | [] =>
      match v with
      | VDict d => Ok (VDict (dict_set k x d))
      | VList _ => Raise (TypeError "list indices must be integers or slices, not str")
      | _ => Raise (TypeError "object does not support item assignment")
      end
  | key :: rest =>
      match v with
      | VDict d =>
          match dict_lookup key d with
          | Some sub =>
              match setitem_at sub rest k x with
              | Ok sub' => Ok (VDict (dict_set key sub' d))
              | Raise e => Raise e
              end
          | None => Raise (KeyError key)
          end
      | _ => Raise (TypeError "object is not subscriptable")
      end
  end.

(** [k in obj] for the object at [path] inside the object at [l]. *)
Definition contains (l : nat) (path : list string) (k : string) : M bool :=
  v <- deref l ;;
  obj <- lift (resolve v path) ;;
  lift (py_in k obj).

(** [obj[k] = x] for the object at [path] inside the object at [l]. *)
Definition setitem (l : nat) (path : list string) (k : string) (x : value) : M unit :=
  v <- deref l ;;
  v' <- lift (setitem_at v path k x) ;;
  fun w => (Ok tt, set_heap (insert l v') w).

(** [obj[k]] for the object at [path]: the name of the object found. *)
Definition getitem (l : nat) (path : list string) (k : string) : M (list string) :=
  v <- deref l ;;
  _ <- lift (resolve v (path ++ [k])%list) ;;
  ret (path ++ [k])%list.

Definition mutate_odoo_instance (instance : nat) : M nat :=
  has_spec <- contains instance [] "spec" ;;
  (if negb has_spec then setitem instance [] "spec" (VDict []) else ret tt) ;;
  spec <- getitem instance [] "spec" ;;
  has_replicas <- contains instance spec "replicas" ;;
  (if negb has_replicas then setitem instance spec "replicas" (VInt 1) else ret tt) ;;
  has_ingress <- contains instance spec "ingress" ;;
  (if negb has_ingress then setitem instance spec "ingress" (VDict []) else ret tt) ;;
  ingress <- getitem instance spec "ingress" ;;
  has_tls <- contains instance ingress "tls" ;;
  (if negb has_tls then setitem instance ingress "tls" (VBool true) else ret tt) ;;
  has_resources <- contains instance spec "resources" ;;
  (if negb has_resources
   then setitem instance spec "resources" (VDict [
          ("limits", VDict [("memory", VStr "512Mi"); ("cpu", VStr "500m")]);
          ("requests", VDict [("memory", VStr "256Mi"); ("cpu", VStr "250m")])])
   else ret tt) ;;
  ret instance.

(** *** JSON text ([json.dumps]) *)

Definition json_char (c : ascii) : string :=
  let n := N_of_ascii c in
  if (n =? 34)%N then backslash ++ quote
  else if (n =? 92)%N then backslash ++ backslash
  else if (n =? 10)%N then backslash ++ "n"
  else if (n =? 13)%N then backslash ++ "r"
  else if (n =? 9)%N then backslash ++ "t"
  else if (n =? 8)%N then backslash ++ "b"
  else if (n =? 12)%N then backslash ++ "f"
  else if ((n <? 32) || (127 <? n))%N then
    backslash ++ "u00" ++ String (hex_digit (N.shiftr n 4))
                            (String (hex_digit (N.land n 15)) EmptyString)
  else String c EmptyString.

Definition json_string (s : string) : string :=
  quote ++ String.concat "" (map json_char (list_ascii_of_string s)) ++ quote.

Fixpoint json_dumps (v : value) : string :=
  match v with
  | VNone => "null"
  | VBool true => "true"
  | VBool false => "false"
  | VInt n => str_of_Z n
  | VStr s => json_string s
  | VList l => "[" ++ str_join ", " (map json_dumps l) ++ "]"
  | VDict d =>
      "{" ++ str_join ", "
               (map (fun kv => (json_string (fst kv) ++ ": " ++ json_dumps (snd kv))%string) d)
          ++ "}"
  end.

(** *** JSON patches ([jsonpatch])

    [make_patch] compares two documents the way the library does:
    dictionaries key by key (keys that went, keys that came, keys that
    stayed), lists position by position, anything else by its JSON text. *)

Fixpoint pointer_escape (k : string) : string :=
  match k with
  | EmptyString => EmptyString
  | String c k' =>
      if Ascii.eqb c "~"%char then "~0" ++ pointer_escape k'
      else if Ascii.eqb c "/"%char then "~1" ++ pointer_escape k'
      else String c (pointer_escape k')
  end.

Definition path_join (path key : string) : string := path ++ "/" ++ pointer_escape key.

Definition op_remove (path : string) : value :=
  VDict [("op", VStr "remove"); ("path", VStr path)].
Definition op_add (path : string) (v : value) : value :=
  VDict [("op", VStr "add"); ("path", VStr path); ("value", v)].
Definition op_replace (path : string) (v : value) : value :=
  VDict [("op", VStr "replace"); ("path", VStr path); ("value", v)].

(** Items that the new list has beyond the end of the old one. *)
Fixpoint add_items (path : string) (i : nat) (items : list value) : list value :=
  match items with
  | [] => []
  | y :: r => op_add (path_join path (str_of_nat i)) y :: add_items path (S i) r
  end.

Fixpoint compare_values (path : string) (src dst : value) {struct src} : list value :=
  match src, dst with
  | VDict s, VDict d =>
      let removed :=
        flat_map (fun kv => if dict_has (fst kv) d then []
                            else [op_remove (path_join path (fst kv))]) s in
      let added :=
        flat_map (fun kv => if dict_has (fst kv) s then []
                            else [op_add (path_join path (fst kv)) (snd kv)]) d in
      let common :=
        (fix go (s' : list (string * value)) : list value :=
           match s' with
           | [] => []
           | (k, v) :: r =>
               (match dict_lookup k d with
                | Some v' => compare_values (path_join path k) v v'
                | None => []
                end ++ go r)%list
           end) s in
      (removed ++ added ++ common)%list
  | VList s, VList d =>
      (fix go (i : nat) (s' d' : list value) {struct s'} : list value :=
         match s', d' with
         | [], _ => add_items path i d'
         | x :: r, y :: r' =>
             ((if py_eq x y then []
               else match x, y with
                    | VDict _, VDict _ | VList _, VList _ =>
                        compare_values (path_join path (str_of_nat i)) x y
                    | _, _ => [op_replace (path_join path (str_of_nat i)) y]
                    end) ++ go (S i) r r')%list
         | _ :: r, [] =>
             op_remove (path_join path (str_of_nat (length d))) :: go (S i) r []
         end) O s d
  | _, _ =>
      if String.eqb (json_dumps src) (json_dumps dst) then []
      else [op_replace path dst]
  end.

(** [jsonpatch.make_patch(src, dst).patch] *)
Definition make_patch (src dst : value) : list value := compare_values "" src dst.

(** Applying a patch, as the API server does with the answer of the
    mutating webhook. *)
Fixpoint split_on (sep : ascii) (s : string) : list string :=
  match s with
  | EmptyString => [EmptyString]
  | String c s' =>
      if Ascii.eqb c sep then EmptyString :: split_on sep s'
      else match split_on sep s' with
           | h :: t => String c h :: t
           | [] => [String c EmptyString]
           end
  end.

Fixpoint pointer_unescape (k : string) : string :=
  match k with
  | EmptyString => EmptyString
  | String c k' =>
      if Ascii.eqb c "~"%char then
        match k' with
        | String c' k'' =>
            if Ascii.eqb c' "1"%char then String "/"%char (pointer_unescape k'')
            else if Ascii.eqb c' "0"%char then String "~"%char (pointer_unescape k'')
            else String c (pointer_unescape k')
        | EmptyString => String c EmptyString
        end
      else String c (pointer_unescape k')
  end.

Definition pointer_parts (p : string) : Result (list string) :=
  if String.eqb p "" then Ok []
  else match split_on "/"%char p with
       | EmptyString :: parts => Ok (map pointer_unescape parts)
       | _ => Raise (ValueError "Location must start with /")
       end.

(** An array index of a pointer: [0] or digits without a leading zero. *)
Definition pointer_index (k : string) : option nat :=
  match k with
  | EmptyString => None
  | String c rest =>
      if forallb is_digit (list_ascii_of_string k)
         && (negb (Ascii.eqb c "0"%char) || String.eqb rest "")
      then match parse_digits k 0 false with
           | Some n => Some (Z.to_nat n)
           | None => None
           end
      else None
  end.

Fixpoint list_insert_at (i : nat) (x : value) (l : list value) : option (list value) :=
  match i, l with
  | O, _ => Some (x :: l)
  | S i', y :: l' =>
      match list_insert_at i' x l' with
      | Some r => Some (y :: r)
      | None => None
      end
  | S _, [] => None
  end.

Fixpoint list_remove_at (i : nat) (l : list value) : option (list value) :=
  match i, l with
  | O, _ :: l' => Some l'
  | S i', y :: l' =>
      match list_remove_at i' l' with
      | Some r => Some (y :: r)
      | None => None
      end
  | _, [] => None
  end.

Definition conflict {A} : Result A := Raise (ValueError "patch does not apply").

(** One operation at the last step of its path. *)
Definition patch_here (op k : string) (x : value) (doc : value) : Result value :=
  match doc with
  | VDict d =>
      if String.eqb op "add" then Ok (VDict (dict_set k x d))
      else if negb (dict_has k d) then conflict
      else if String.eqb op "replace" then Ok (VDict (dict_set k x d))
      else if String.eqb op "remove" then Ok (VDict (dict_del k d))
      else conflict
  | VList l =>
      let idx := if String.eqb op "add" && String.eqb k "-"
                 then Some (length l) else pointer_index k in
      match idx with
      | None => conflict
      | Some i =>
          let r := if String.eqb op "add" then list_insert_at i x l
                   else if String.eqb op "replace" then list_assign i x l
                   else if String.eqb op "remove" then list_remove_at i l
                   else None in
          match r with
          | Some l' => Ok (VList l')
          | None => conflict
          end
      end
  | _ => conflict
  end.

Fixpoint patch_at (parts : list string) (op : string) (x : value) (doc : value)
  : Result value :=
  match parts with
  | [] => if String.eqb op "remove" then conflict else Ok x
  | [k] => patch_here op k x doc
  | k :: rest =>
      match doc with
      | VDict d =>
          match dict_lookup k d with
          | Some sub =>
              match patch_at rest op x sub with
              | Ok sub' => Ok (VDict (dict_set k sub' d))
              | Raise e => Raise e
              end
          | None => conflict
          end
      | VList l =>
          match pointer_index k with
          | Some i =>
              match nth_error l i with
              | Some sub =>
                  match patch_at rest op x sub with
                  | Ok sub' =>
                      match list_assign i sub' l with
                      | Some l' => Ok (VList l')
                      | None => conflict
                      end
                  | Raise e => Raise e
                  end
              | None => conflict
              end
          | None => conflict
          end
      | _ => conflict
      end
  end.

Fixpoint apply_patch (ops : list value) (doc : value) : Result value :=
  match ops with
  | [] => Ok doc
  | o :: rest =>
      match o with
      | VDict d =>
          match dict_lookup "op" d, dict_lookup "path" d with
          | Some (VStr op), Some (VStr path) =>
              match pointer_parts path with
              | Ok parts =>
                  match patch_at parts op (dict_get d "value" VNone) doc with
                  | Ok doc' => apply_patch rest doc'
                  | Raise e => Raise e
                  end
              | Raise e => Raise e
              end
          | _, _ => conflict
          end
      | _ => conflict
      end
  end.

(** *** The two webhook routes

    The argument is [request.json]; the result is the body handed to
    [jsonify] and the HTTP status. *)

Definition BAD_REQUEST : Z := 400.
Definition OK_STATUS : Z := 200.

Definition admission_review (response : dict) : value :=
  VDict [("apiVersion", VStr "admission.k8s.io/v1");
         ("kind", VStr "AdmissionReview");
         ("response", VDict response)].

Definition no_request_information : value * Z :=
  (admission_review [
     ("uid", VStr "");
     ("allowed", VBool false);
     ("status", VDict [("code", VInt BAD_REQUEST);
                       ("message", VStr "No request information provided")])],
   BAD_REQUEST).

Definition validate_odoo_instance_webhook (request_info : value) : M (value * Z) :=
  if negb (truthy request_info) then ret no_request_information
  else
    request_data <- lift (py_get request_info "request" (VDict [])) ;;
    uid <- lift (py_get request_data "uid" (VStr "")) ;;
    try_except
      (instance <- lift (py_get request_data "object" (VDict [])) ;;
       verdict <- lift (validate_odoo_instance instance) ;;
       let '(is_valid, error_message) := verdict in
       if is_valid
       then ret (admission_review [("uid", uid); ("allowed", VBool true)], OK_STATUS)
       else ret (admission_review [
                   ("uid", uid);
                   ("allowed", VBool false);
                   ("status", VDict [("message", error_message)])], OK_STATUS))
      (fun e =>
         Some (logger ERROR ("Error validating OdooInstance: " ++ str_exn e) ;;
               ret (admission_review [
                      ("uid", uid);
                      ("allowed", VBool false);
                      ("status", VDict [
                         ("message", VStr ("Error validating OdooInstance: " ++ str_exn e))])],
                    OK_STATUS))).

(** [{'op': p['op'], 'path': p['path'], 'value': p.get('value', None)}] *)
Definition k8s_operation (p : value) : Result value :=
  match subscript p "op" with
  | Raise e => Raise e
  | Ok op =>
      match subscript p "path" with
      | Raise e => Raise e
      | Ok path =>
          match py_get p "value" VNone with
          | Raise e => Raise e
          | Ok v => Ok (VDict [("op", op); ("path", path); ("value", v)])
          end
      end
  end.

Fixpoint k8s_operations (patch_list : list value) : Result (list value) :=
  match patch_list with
  | [] => Ok []
  | p :: rest =>
      match k8s_operation p with
      | Raise e => Raise e
      | Ok o =>
          match k8s_operations rest with
          | Raise e => Raise e
          | Ok l => Ok (o :: l)
          end
      end
  end.

(** The body of the [try] of [mutate_odoo_instance_webhook] up to the
    list [k8s_patch]. *)
Definition mutation_patch (request_data : value) : M (list value) :=
  object <- lift (py_get request_data "object" (VDict [])) ;;
  instance <- alloc object ;;
  mutated_instance <- mutate_odoo_instance instance ;;
  import_module "jsonpatch" ;;
  src <- deref instance ;;
  dst <- deref mutated_instance ;;
  let patch_list := make_patch src dst in
  lift (k8s_operations patch_list).

Definition mutate_odoo_instance_webhook (request_info : value) : M (value * Z) :=
  if negb (truthy request_info) then ret no_request_information
  else
    request_data <- lift (py_get request_info "request" (VDict [])) ;;
    uid <- lift (py_get request_data "uid" (VStr "")) ;;
    try_except
      (k8s_patch <- mutation_patch request_data ;;
       ret (admission_review [
              ("uid", uid);
              ("allowed", VBool true);
              ("patchType", VStr "JSONPatch");
              ("patch", VStr (b64encode (utf8_encode (json_dumps (VList k8s_patch)))))],
            OK_STATUS))
      (fun e =>
         Some (logger ERROR ("Error mutating OdooInstance: " ++ str_exn e) ;;
               ret (admission_review [
                      ("uid", uid);
                      ("allowed", VBool false);
                      ("status", VDict [
                         ("message", VStr ("Error mutating OdooInstance: " ++ str_exn e))])],
                    OK_STATUS))).

(** ** Reading results, and worlds to run the code in *)

(** The value found by following attributes and items. *)
Fixpoint value_at (path : list Step) (v : value) : option value :=
  match path with
  | [] => Some v
  | Attr k :: rest =>
      match v with
      | VDict d =>
          match dict_lookup k d with
          | Some sub => value_at rest sub
          | None => None
          end
      | _ => None
      end
  | Item i :: rest =>
      match v with
      | VList l =>
          match nth_error l i with
          | Some sub => value_at rest sub
          | None => None
          end
      | _ => None
      end
  end.

(** The [name] of every entry of an environment list. *)
Definition env_names (env : value) : list value :=
  match env with
  | VList l => map (fun e => match value_at [Attr "name"] e with
                             | Some n => n
                             | None => VNone
                             end) l
  | _ => []
  end.

Definition is_warning (entry : Level * string) : bool :=
  match fst entry with WARNING => true | _ => false end.

Definition no_environ : string -> option string := fun _ => None.

Definition odoo_instance (name namespace : string) (spec status : dict) : value :=
  VDict [
    ("apiVersion", VStr "odoo.bemade.org/v1");
    ("kind", VStr "OdooInstance");
    ("metadata", VDict [("name", VStr name); ("namespace", VStr namespace);
                        ("uid", VStr "7d3c2a9e")]);
    ("spec", VDict spec);
    ("status", VDict status)].

(** A reachable cluster that holds nothing, and a reachable database
    server without roles or databases. *)
Definition bare_world : World :=
  mkWorld ∅ ∅ ∅ ∅ [] (fun _ => true) [] [] O (fun _ _ => None) ∅.

(** The instance [demo] of namespace [default] exists, its phase is
    [Pending], and the administrator secret of the database is in place. *)
Definition demo_world : World :=
  set_cluster
    (insert (Secret, "default", "postgres-admin")
       (VDict [("data", VDict [("password", VStr (b64 "s3cret"))])]))
    (set_instances
       (insert ("default", "demo")
          (odoo_instance "demo" "default" [("version", VStr "17.0")]
             [("phase", VStr "Pending"); ("ready", VBool false)]))
       bare_world).

(** The same world with one call failing: call number [n], if made to
    endpoint [ep], raises [e]. *)
Definition failing_at (n : nat) (ep : Endpoint) (e : Exn) (w : World) : World :=
  mkWorld (cluster w) (instances w) (pg_roles w) (pg_databases w)
    (pg_sessions w) (installed w) (entropy w) (log w) (clock w)
    (fun m ep' => if (m =? n)%nat && bool_decide (ep' = ep) then Some e else faults w m ep')
    (heap w).

(** Specifications used below. *)
Definition spec_ingress_without_hostname : dict :=
  [("version", VStr "17.0"); ("ingress", VDict [("enabled", VBool true)])].

Definition spec_ingress_with_hostname : dict :=
  [("version", VStr "17.0");
   ("ingress", VDict [("enabled", VBool true);
                      ("hostname", VStr "app.example.com");
                      ("tls", VBool true)])].

Definition spec_custom_env : dict :=
  [("version", VStr "17.0");
   ("env", VList [
      VDict [("name", VStr "ODOO_DB_HOST"); ("value", VStr "db.internal")];
      VDict [("name", VStr "TZ"); ("value", VStr "UTC")]])].

Definition container_env : list Step :=
  [Attr "spec"; Attr "template"; Attr "spec"; Attr "containers"; Item 0; Attr "env"].

(** An admission object that sets only the version, and one that also
    sets resource limits of the usual form. *)
Definition instance_minimal : value :=
  VDict [("apiVersion", VStr "odoo.bemade.org/v1");
         ("kind", VStr "OdooInstance");
         ("metadata", VDict [("name", VStr "demo"); ("namespace", VStr "default")]);
         ("spec", VDict [("version", VStr "17.0")])].

Definition instance_with_limits : value :=
  VDict [("spec", VDict [
    ("version", VStr "17.0");
    ("resources", VDict [
      ("limits", VDict [("memory", VStr "4Gi"); ("cpu", VStr "2")])])])].

Definition admission_request (object : value) : value :=
  VDict [("request", VDict [("uid", VStr "705ab4f5"); ("object", object)])].

(** What [delete_odoo_instance] returns. *)
Definition deleted_successfully : value :=
  VDict [("status", VStr "success");
         ("message", VStr "Odoo instance deleted successfully")].

(** [demo_world] with a database server that refuses the connection. *)
Definition unreachable_database : World :=
  failing_at 1 PgConnect
    (DatabaseError "could not connect to server: Connection refused") demo_world.

(** ** Vocabulary of the properties *)

(** No call is scheduled to fail. *)
Definition calm (w : World) : Prop := forall n ep, faults w n ep = None.

(** The instance is in the store and carries a uid. *)
Definition owner_known (name namespace : string) (w : World) : Prop :=
  exists obj uid,
    instances w !! (namespace, name) = Some obj
    /\ value_at [Attr "metadata"; Attr "uid"] obj = Some uid.

Definition is_dict (v : value) : bool :=
  match v with VDict _ => true | _ => false end.

(** The shape that [types.py] gives a specification, as far as the
    builders of manifests depend on it: the blocks [filestore],
    [database] and [ingress] are dictionaries when present, [addons] is
    a list of dictionaries or [None]. *)
Definition well_typed_spec (spec : dict) : bool :=
  is_dict (dict_get spec "filestore" (VDict []))
  && is_dict (dict_get spec "database" (VDict []))
  && is_dict (dict_get spec "ingress" (VDict []))
  && match dict_get spec "addons" (VList []) with
     | VList l => forallb is_dict l
     | VNone => true
     | _ => false
     end.

Section Policy.

Variables (name namespace : string) (k : Kind) (object_name : string).
Variable create : M unit.






End Policy.


(** The common shape of the create functions: read the owner, call the
    create endpoint, log on success if [logged] names a message, and
    take a 409 as done. *)
Definition on_conflict (msg : string) (e : Exn) : option (M unit) :=
  match e with
  | ApiException status _ =>
      Some (if status =? 409 then logger INFO msg else raise e)
  | _ => None
  end.

Definition guarded_create
  (k : Kind) (name namespace : string) (body : value -> value)
  (logged : option string) (msg : string) : M unit :=
  bind (owner_references name namespace) (fun owner =>
    try_except
      (bind (create_namespaced k namespace (body owner))
         (fun _ => match logged with
                   | Some m => logger INFO m
                   | None => ret tt
                   end))
      (on_conflict msg)).

(** The status block of a stored instance. *)
Fixpoint unique_keys (d : dict) : bool :=
  match d with
  | [] => true
  | (k, _) :: r => negb (dict_has k r) && unique_keys r
  end.

Definition status_field (inst : value) (k : string) : value :=
  match inst with
  | VDict i =>
      match dict_lookup "status" i with
      | Some (VDict d) => dict_get d k VNone
      | _ => VNone
      end
  | _ => VNone
  end.

(** A stored instance as the API server keeps it: a dictionary whose
    [status], when present, is a dictionary without repeated keys, with
    a [ready] field that is not itself a dictionary ([types.py] declares
    it an optional boolean). *)
Definition well_formed_instance (inst : value) : bool :=
  match inst with
  | VDict i =>
      match dict_lookup "status" i with
      | None => true
      | Some (VDict d) => unique_keys d && negb (is_dict (dict_get d "ready" VNone))
      | Some _ => false
      end
  | _ => false
  end.

(** The loop of [merge_patch] over the entries of the patch. *)
Fixpoint merge_entries (p acc : dict) : dict :=
  match p with
  | [] => acc
  | (k, v) :: p' =>
      merge_entries p'
        (match v with
         | VNone => dict_del k acc
         | _ => dict_set k (merge_patch (dict_get acc k VNone) v) acc
         end)
  end.

(** The status calls of the API server are never scheduled to fail. *)
Definition status_reachable (w : World) : Prop :=
  (forall n, faults w n GetCustomObject = None)
  /\ (forall n, faults w n PatchCustomObjectStatus = None).

Definition current_status (inst : value) : dict :=
  match inst with
  | VDict i =>
      match dict_lookup "status" i with
      | Some (VDict d) => d
      | _ => []
      end
  | _ => []
  end.

(** The stored instance after [patch_status] has sent [status_patch]. *)
Definition patched (inst : value) (status_patch : dict) : value :=
  match inst with
  | VDict i =>
      let d := current_status inst in
      VDict (dict_set "status" (VDict (merge_entries (dict_update d status_patch) d)) i)
  | _ => inst
  end.

(** [kopf.PermanentError] belongs to the handlers: no client library
    raises it.  [honest_faults] says so of the scheduled failures. *)
Definition not_permanent (e : Exn) : Prop := forall msg, e <> PermanentError msg.

Definition honest_faults (w : World) : Prop :=
  forall n ep e, faults w n ep = Some e -> not_permanent e.

(** A computation is [tame] when it leaves the stored instances and the
    schedule of failures alone and raises [PermanentError] only if a
    scheduled failure does. *)
Definition steady {A} (m : M A) : Prop :=
  forall w, instances (snd (m w)) = instances w /\ faults (snd (m w)) = faults w.

Definition mild {A} (m : M A) : Prop :=
  forall w e, honest_faults w -> fst (m w) = Raise e -> not_permanent e.

Definition tame {A} (m : M A) : Prop := steady m /\ mild m.

Definition mild_result {A} (r : Result A) : Prop :=
  forall e, r = Raise e -> not_permanent e.

(** [demo_world] with an API server that fails the read of the config
    map (call number 2 of an update) with status 500. *)
Definition config_map_read_fails : World :=
  failing_at 2 (ReadNamespaced ConfigMap)
    (ApiException 500 "(500) Reason: Internal Server Error") demo_world.

Definition demo_instance : value :=
  odoo_instance "demo" "default" [("version", VStr "17.0")]
    [("phase", VStr "Pending"); ("ready", VBool false)].

(** The opening of [update_odoo_instance]: the first log line, the
    status patch to [Updating], and the log of the changes. *)
Definition update_prologue (name namespace : string)
  (diff : list (string * list value * value * value)) : M unit :=
  logger INFO ("Updating OdooInstance: " ++ name ++ " in namespace: " ++ namespace) ;;
  patch_status name namespace [
    ("phase", VStr "Updating");
    ("message", VStr "Updating resources")] ;;
  log_changes diff.

(** The store applies of [update_odoo_instance]: what its [try] block
    does before it patches the status.  The result is the url that goes
    into the status. *)
Definition apply_updates (environ : string -> option string)
  (spec : dict) (name namespace : string) (old : dict) : M value :=
  update_config_map name namespace spec ;;
  update_deployment environ name namespace spec ;;
  update_service name namespace spec ;;
  enabled <- lift (py_get (dict_get spec "ingress" (VDict [])) "enabled" (VBool true)) ;;
  if truthy enabled then
    old_enabled <- lift (py_get (dict_get old "ingress" (VDict []))
                           "enabled" (VBool true)) ;;
    (if truthy old_enabled
     then update_ingress environ name namespace spec
     else create_ingress environ name namespace spec) ;;
    instance_url spec
  else
    old_enabled <- lift (py_get (dict_get old "ingress" (VDict []))
                           "enabled" (VBool true)) ;;
    (if truthy old_enabled then
       try_except
         (delete_namespaced Ingress ("odoo-" ++ name) namespace ;;
          logger INFO ("Deleted ingress for " ++ name))
         (fun e =>
            match e with
            | ApiException status _ =>
                Some (if negb (status =? 404) then raise e else ret tt)
            | _ => None
            end)
     else ret tt) ;;
    ret VNone.

(** What [update_odoo_instance] returns. *)
Definition updated_successfully : value :=
  VDict [("status", VStr "success");
         ("message", VStr "Odoo instance updated successfully")].

(** [demo_world] with an API server that answers 503 to every call. *)
Definition api_server_down : World :=
  mkWorld (cluster demo_world) (instances demo_world) (pg_roles demo_world)
    (pg_databases demo_world) (pg_sessions demo_world) (installed demo_world)
    (entropy demo_world) (log demo_world) (clock demo_world)
    (fun _ _ => Some (ApiException 503 "(503) Reason: Service Unavailable"))
    (heap demo_world).




(** [d.setdefault(k, x)], as far as the dictionary goes. *)
Definition ensure (k : string) (x : value) (d : dict) : dict :=
  if dict_has k d then d else dict_set k x d.

(** The resources block that the defaulting pass fills in. *)
Definition standard_resources : value :=
  VDict [("limits", VDict [("memory", VStr "512Mi"); ("cpu", VStr "500m")]);
         ("requests", VDict [("memory", VStr "256Mi"); ("cpu", VStr "250m")])].

(** A computation that leaves the database server, the stored instances,
    the installed modules and the schedule of failures as they are. *)
Definition same_database (w w' : World) : Prop :=
  pg_roles w' = pg_roles w /\ pg_databases w' = pg_databases w
  /\ pg_sessions w' = pg_sessions w /\ instances w' = instances w
  /\ faults w' = faults w /\ installed w' = installed w.

Definition keeps_database {A} (m : M A) : Prop :=
  forall w, same_database w (snd (m w)).

(** [demo_world] after a provisioning: the role and the database of the
    instance exist, and one client is connected to the database. *)
Definition provisioned_world : World :=
  set_pg_sessions (fun _ => ["odoo_default_demo"])
    (set_pg_databases (insert "odoo_default_demo" "odoo_user_default_demo")
       (set_pg_roles (insert "odoo_user_default_demo" "first") demo_world)).

(** The owner reference of an instance, and an object that carries it. *)
Definition owner_reference (name : string) (uid : value) : value :=
  VList [VDict [
    ("apiVersion", VStr "odoo.bemade.org/v1");
    ("kind", VStr "OdooInstance");
    ("name", VStr name);
    ("uid", uid);
    ("controller", VBool true);
    ("blockOwnerDeletion", VBool true)]].

Definition owned_by (name : string) (uid : value) (obj : value) : Prop :=
  value_at [Attr "metadata"; Attr "ownerReferences"] obj = Some (owner_reference name uid).

(** [create] writes the object [object_name] of kind [k], owned by the
    instance, whenever the store is reachable, knows the instance and
    does not hold the object yet. *)
Definition creates_owned (name namespace : string) (k : Kind) (object_name : string)
  (create : M unit) : Prop :=
  forall w obj uid,
    calm w ->
    instances w !! (namespace, name) = Some obj ->
    value_at [Attr "metadata"; Attr "uid"] obj = Some uid ->
    cluster w !! (k, namespace, object_name) = None ->
    fst (create w) = Ok tt
    /\ exists body,
         cluster (snd (create w)) !! (k, namespace, object_name) = Some body
         /\ owned_by name uid body.

(** [m] goes through in any world without scheduled failures that knows
    the instance, and leaves the stored instances and the schedule of
    failures as they are. *)
Definition settles (name namespace : string) (m : M unit) : Prop :=
  forall w,
    calm w ->
    owner_known name namespace w ->
    exists w', m w = (Ok tt, w')
               /\ instances w' = instances w /\ faults w' = faults w.

(** What [create_odoo_instance] returns for the address [url]. *)
Definition created_successfully (url : value) : value :=
  VDict [("status", VStr "success");
         ("message", VStr "Odoo instance created successfully");
         ("url", url)].

(** [demo_world] with an API server that refuses the filestore claim:
    the create call, call number 3 of a create, fails with status 403. *)
Definition claim_refused : World :=
  failing_at 3 (CreateNamespaced PersistentVolumeClaim)
    (ApiException 403 "(403) Reason: Forbidden") demo_world.

(** A value as Python builds it: no dictionary inside it has a key
    twice. *)
Fixpoint well_keyed (v : value) : bool :=
  match v with
  | VList l => forallb well_keyed l
  | VDict d => unique_keys d && forallb (fun kv => well_keyed (snd kv)) d
  | _ => true
  end.

Fixpoint value_size (v : value) : nat :=
  match v with
  | VList l => S (list_sum (map value_size l))
  | VDict d => S (list_sum (map (fun kv => value_size (snd kv)) d))
  | _ => 1%nat
  end.

(** The object at [l], if there is one, is well keyed; a computation
    that keeps it so. *)
Definition keyed_at (l : nat) (w : World) : Prop :=
  forall v, heap w !! l = Some v -> well_keyed v = true.

Definition keeps_keyed {A} (l : nat) (m : M A) : Prop :=
  forall w, keyed_at l w -> keyed_at l (snd (m w)).

(** The numbers below [n], and the checks on bytes and sextets that the
    round trip through base64 rests on: [pair_ok a b] for two
    neighbouring bytes of a group, [sextet_ok n] for a sextet. *)
Definition below (n : nat) : list N := map N.of_nat (seq 0 n).

Definition pair_ok (a b : N) : bool :=
  let hi := (N.shiftl (N.land a 3) 4 + N.shiftr b 4)%N in
  let lo := (N.shiftl (N.land a 15) 2 + N.shiftr b 6)%N in
  (N.shiftr a 2 <? 64)%N && (hi <? 64)%N && (lo <? 64)%N && (N.land b 63 <? 64)%N
  && (N.lor (N.shiftl (N.shiftr a 2) 2) (N.shiftr hi 4) =? a)%N
  && (N.land hi 15 =? N.shiftr b 4)%N
  && (N.lor (N.shiftl (N.shiftr a 4) 4) (N.shiftr lo 2) =? a)%N
  && (N.land lo 3 =? N.shiftr b 6)%N
  && (N.lor (N.shiftl (N.shiftr b 6) 6) (N.land b 63) =? b)%N.

Definition sextet_ok (n : N) : bool :=
  match b64_index (b64_char n) with
  | Some m => (m =? n)%N
  | None => false
  end
  && negb (Ascii.eqb (b64_char n) "="%char)
  && (N_of_ascii (b64_char n) <? 128)%N.

(** A key of a secret, decoded the way the operator decodes the
    administrator password: base64, then UTF-8. *)
Definition secret_field (secret : value) (k : string) : Result string :=
  match value_at [Attr "data"; Attr k] secret with
  | Some (VStr e) =>
      match b64decode e with
      | Ok raw => utf8_decode raw
      | Raise x => Raise x
      end
  | _ => Raise (KeyError k)
  end.

(** A computation that leaves the object stored under [key] as it is. *)
Definition spares {A} (key : Kind * string * string) (m : M A) : Prop :=
  forall w, cluster (snd (m w)) !! key = cluster w !! key.

(** [demo_world] once the ingress of the instance has been created. *)
Definition world_with_ingress : World :=
  snd (create_ingress no_environ "demo" "default" spec_ingress_with_hostname demo_world).

Definition spec_ingress_disabled : dict :=
  [("version", VStr "17.0"); ("ingress", VDict [("enabled", VBool false)])].

(** The state of the database server, and a computation that leaves it
    as it is. *)
Definition database_of (w : World) : gmap string string * gmap string string * list string :=
  (pg_roles w, pg_databases w, pg_sessions w).

Definition offline {A} (m : M A) : Prop :=
  forall w, database_of (snd (m w)) = database_of w.

(** The labels that tie the objects of an instance together. *)
Definition instance_labels (name : string) : value :=
  VDict [("app.kubernetes.io/name", VStr "odoo");
         ("app.kubernetes.io/instance", VStr name)].

(** * Properties *)

(** ** Database identity *)

Lemma str_upto_length (n : nat) (s : string) :
  String.length (str_upto n s) = Nat.min n (String.length s).
Proof.
  unfold str_upto. revert s.
  induction n as [|n IH]; intros s.
  - destruct s; reflexivity.
  - destruct s as [|c s]; [reflexivity|].
    simpl. rewrite IH. reflexivity.
Qed.

Lemma str_upto_prefix (n : nat) (s : string) :
  is_prefix (str_upto n s) s = true.
Proof.
  unfold str_upto. revert s.
  induction n as [|n IH]; intros s.
  - destruct s; reflexivity.
  - destruct s as [|c s]; [reflexivity|].
    simpl. rewrite Ascii.eqb_refl. apply IH.
Qed.

Lemma str_upto_short (n : nat) (s : string) :
  (String.length s <= n)%nat -> str_upto n s = s.
Proof.
  unfold str_upto. revert s.
  induction n as [|n IH]; intros s Hlen.
  - destruct s; [reflexivity | simpl in Hlen; lia].
  - destruct s as [|c s]; [reflexivity|].
    simpl in *. rewrite IH by lia. reflexivity.
Qed.

(** C7. The database name and the role name are functions of the
    instance name and the namespace alone: each is the naive
    concatenation [odoo_<namespace>_<name>] (resp.
    [odoo_user_<namespace>_<name>]) cut after 63 characters, so it is a
    prefix of that concatenation (only the tail is dropped), is never
    longer than 63 characters, and is exactly 63 long when the
    concatenation is longer. *)
Theorem db_identity_bounded (instance_name namespace : string) :
  let naive_name := "odoo_" ++ namespace ++ "_" ++ instance_name in
  let naive_user := "odoo_user_" ++ namespace ++ "_" ++ instance_name in
  (is_prefix (generate_db_name instance_name namespace) naive_name = true
   /\ String.length (generate_db_name instance_name namespace)
      = Nat.min 63 (String.length naive_name)
   /\ (String.length (generate_db_name instance_name namespace) <= 63)%nat)
  /\ (is_prefix (generate_db_username instance_name namespace) naive_user = true
      /\ String.length (generate_db_username instance_name namespace)
         = Nat.min 63 (String.length naive_user)
      /\ (String.length (generate_db_username instance_name namespace) <= 63)%nat).
Proof.
  intros naive_name naive_user.
  unfold generate_db_name, generate_db_username.
  fold naive_name naive_user.
  repeat split;
    try apply str_upto_prefix; try apply str_upto_length;
    rewrite str_upto_length; lia.
Qed.

(** C10. The derivations are not injective even when nothing is cut:
    namespace [a_b] with name [c] and namespace [a] with name [b_c] are
    different pairs, both concatenations stay below 63 characters, and
    both give the database name [odoo_a_b_c] and the same role name. *)
Theorem db_identity_not_injective :
  exists ns1 n1 ns2 n2 : string,
    (ns1, n1) <> (ns2, n2)
    /\ (String.length ("odoo_" ++ ns1 ++ "_" ++ n1) <= 63)%nat
    /\ (String.length ("odoo_" ++ ns2 ++ "_" ++ n2) <= 63)%nat
    /\ (String.length ("odoo_user_" ++ ns1 ++ "_" ++ n1) <= 63)%nat
    /\ (String.length ("odoo_user_" ++ ns2 ++ "_" ++ n2) <= 63)%nat
    /\ generate_db_name n1 ns1 = "odoo_a_b_c"
    /\ generate_db_name n2 ns2 = "odoo_a_b_c"
    /\ generate_db_username n1 ns1 = generate_db_username n2 ns2.
Proof.
  exists "a_b", "c", "a", "b_c".
  repeat split; try (vm_compute; lia); try reflexivity.
  intros H. discriminate H.
Qed.

(** ** Ingress gating *)

(** The earlier [create_ingress] skips an ingress without host name and
    logs a warning: nothing is created. *)
Lemma shadowed_create_ingress_skips :
  let run := Shadowed.create_ingress no_environ "demo" "default"
               spec_ingress_without_hostname demo_world in
  fst run = Ok tt
  /\ cluster (snd run) = cluster demo_world
  /\ log (snd run) =
       [(WARNING, "Ingress hostname not specified for demo, skipping ingress creation")].
Proof.
  cbv zeta. split; [vm_compute; reflexivity|].
  split; [reflexivity | vm_compute; reflexivity].
Qed.

(** C2, at the input where the code departs from it.  The
    [create_ingress] that the handlers call has no guard on the host
    name: for an enabled ingress without host name it creates an Ingress
    whose rule has host [None] and whose TLS entry lists [None], and it
    logs no warning. *)
Theorem create_ingress_without_hostname_creates :
  let run := create_ingress no_environ "demo" "default"
               spec_ingress_without_hostname demo_world in
  fst run = Ok tt
  /\ (exists ingress,
        cluster (snd run) !! (Ingress, "default", "demo") = Some ingress
        /\ value_at [Attr "spec"; Attr "rules"; Item 0; Attr "host"] ingress = Some VNone
        /\ value_at [Attr "spec"; Attr "tls"] ingress
           = Some (VList [VDict [("hosts", VList [VNone]);
                                 ("secretName", VStr "demo-tls")]]))
  /\ existsb is_warning (log (snd run)) = false.
Proof.
  cbv zeta. split; [vm_compute; reflexivity|]. split.
  - eexists. split; [vm_compute; reflexivity|]. split; vm_compute; reflexivity.
  - vm_compute. reflexivity.
Qed.

(** With the host name [app.example.com] and TLS on, one Ingress is
    created and its single TLS entry lists exactly that host. *)
Lemma create_ingress_with_hostname :
  let run := create_ingress no_environ "demo" "default"
               spec_ingress_with_hostname demo_world in
  fst run = Ok tt
  /\ (exists ingress,
        cluster (snd run) !! (Ingress, "default", "demo") = Some ingress
        /\ value_at [Attr "spec"; Attr "tls"] ingress
           = Some (VList [VDict [("hosts", VList [VStr "app.example.com"]);
                                 ("secretName", VStr "demo-tls")]]))
  /\ size (cluster (snd run)) = S (size (cluster demo_world)).
Proof.
  cbv zeta. split; [vm_compute; reflexivity|]. split.
  - eexists. split; vm_compute; reflexivity.
  - vm_compute. reflexivity.
Qed.

(** ** Environment of the workload *)

(** The earlier [create_deployment] puts the five database references
    and the administrator password first and overlays the custom
    entries: one entry per name, the overridden [ODOO_DB_HOST] among the
    custom entries. *)
Lemma shadowed_create_deployment_env :
  let run := Shadowed.create_deployment no_environ "demo" "default"
               spec_custom_env demo_world in
  fst run = Ok tt
  /\ (exists deployment env,
        cluster (snd run) !! (Deployment, "default", "odoo-demo") = Some deployment
        /\ value_at container_env deployment = Some env
        /\ env_names env =
             [VStr "ODOO_DB_PORT"; VStr "ODOO_DB_USER"; VStr "ODOO_DB_PASSWORD";
              VStr "ODOO_DB_NAME"; VStr "ODOO_ADMIN_PASSWORD";
              VStr "ODOO_DB_HOST"; VStr "TZ"]).
Proof.
  cbv zeta. split; [vm_compute; reflexivity|].
  eexists. eexists. split; [vm_compute; reflexivity|].
  split; vm_compute; reflexivity.
Qed.

(** C3, at the input where the code departs from it.  The
    [create_deployment] that the handlers call takes the environment of
    the container from the specification as it is: no database
    reference and no administrator password are in it, and database
    provisioning is not run. *)
Theorem create_deployment_env_is_custom_only :
  let run := create_deployment no_environ "demo" "default"
               spec_custom_env demo_world in
  fst run = Ok tt
  /\ (exists deployment,
        cluster (snd run) !! (Deployment, "default", "demo") = Some deployment
        /\ value_at container_env deployment = Some (dict_get spec_custom_env "env" VNone)
        /\ option_map env_names (value_at container_env deployment)
           = Some [VStr "ODOO_DB_HOST"; VStr "TZ"])
  /\ cluster (snd run) !! (Secret, "default", "odoo-db-credentials-demo") = None
  /\ pg_roles (snd run) = pg_roles demo_world.
Proof.
  cbv zeta. split; [vm_compute; reflexivity|]. split.
  - eexists. split; [vm_compute; reflexivity|]. split; vm_compute; reflexivity.
  - split; vm_compute; reflexivity.
Qed.

(** ** Admission: defaulting *)

(** C4, at the input where the code departs from it.
    [mutate_odoo_instance] fills the defaults into the object it is
    given and returns that same object, so the webhook compares the
    object with itself: for an object without replicas, ingress and
    resources the patch is empty, and applying it to the original leaves
    the original without replicas, although the object the webhook holds
    has [replicas = 1]. *)
Theorem mutation_patch_is_empty :
  let run := mutation_patch (VDict [("object", instance_minimal)]) bare_world in
  let answer := mutate_odoo_instance_webhook (admission_request instance_minimal) bare_world in
  (exists k8s_patch original',
     fst run = Ok k8s_patch
     /\ k8s_patch = []
     /\ apply_patch k8s_patch instance_minimal = Ok original'
     /\ value_at [Attr "spec"; Attr "replicas"] original' = None
     /\ value_at [Attr "spec"; Attr "ingress"; Attr "tls"] original' = None
     /\ value_at [Attr "spec"; Attr "resources"] original' = None)
  /\ (exists mutated,
        heap (snd run) !! O = Some mutated
        /\ value_at [Attr "spec"; Attr "replicas"] mutated = Some (VInt 1)
        /\ value_at [Attr "spec"; Attr "ingress"; Attr "tls"] mutated = Some (VBool true))
  /\ option_map (value_at [Attr "response"; Attr "patch"])
        (match fst answer with Ok (body, _) => Some body | Raise _ => None end)
     = Some (Some (VStr (b64 "[]"))).
Proof.
  cbv zeta. split; [|split].
  - exists [], instance_minimal. repeat split; vm_compute; reflexivity.
  - eexists. split; [vm_compute; reflexivity|]. split; vm_compute; reflexivity.
  - vm_compute. reflexivity.
Qed.

(** ** Database provisioning *)

(** C5, at the input where the code departs from it.  Provisioning the
    same instance a second time with another password resets the
    password of the role, but [create_db_credentials_secret] only
    creates: the secret is there already, the conflict is skipped, and
    the secret keeps the first password. *)
Theorem rotated_password_is_not_mirrored :
  let first := create_database_user no_environ "demo" "default" (Some "first") demo_world in
  let second := create_database_user no_environ "demo" "default" (Some "second") (snd first) in
  fst first = Ok ("odoo_user_default_demo", "first", "odoo_default_demo")
  /\ fst second = Ok ("odoo_user_default_demo", "second", "odoo_default_demo")
  /\ pg_roles (snd second) !! "odoo_user_default_demo" = Some "second"
  /\ (exists secret,
        cluster (snd second) !! (Secret, "default", "odoo-db-credentials-demo") = Some secret
        /\ value_at [Attr "data"; Attr "password"] secret = Some (VStr (b64 "first")))
  /\ b64 "first" <> b64 "second".
Proof.
  cbv zeta. split; [vm_compute; reflexivity|]. split; [vm_compute; reflexivity|].
  split; [vm_compute; reflexivity|]. split.
  - eexists. split; vm_compute; reflexivity.
  - vm_compute. discriminate.
Qed.

(** On the first call the secret is written with the five keys, each
    encoded on its own. *)
Lemma first_provisioning_writes_secret :
  let first := create_database_user no_environ "demo" "default" (Some "first") demo_world in
  exists secret,
    cluster (snd first) !! (Secret, "default", "odoo-db-credentials-demo") = Some secret
    /\ value_at [Attr "data"] secret
       = Some (VDict [("host", VStr (b64 "postgres"));
                      ("port", VStr (b64 "5432"));
                      ("username", VStr (b64 "odoo_user_default_demo"));
                      ("password", VStr (b64 "first"));
                      ("database", VStr (b64 "odoo_default_demo"))]).
Proof. cbv zeta. eexists. split; vm_compute; reflexivity. Qed.

(** ** Admission: validation *)

(** The three scenarios of the specification. *)
Lemma validate_scenarios :
  validate_odoo_instance (VDict [])
    = Ok (false, VStr "'version' is required in the OdooInstance spec")
  /\ validate_odoo_instance
       (VDict [("spec", VDict [("version", VStr "17.0"); ("replicas", VInt 0)])])
     = Ok (false, VStr "'replicas' must be at least 1")
  /\ validate_odoo_instance (VDict [("spec", VDict [("version", VStr "17.0")])])
     = Ok (true, VNone)
  /\ is_substring "version" "'version' is required in the OdooInstance spec" = true
  /\ is_substring "replicas" "'replicas' must be at least 1" = true.
Proof. repeat split; vm_compute; reflexivity. Qed.

(** C8, at the input where the code departs from it.  The limits
    [4Gi] and [2] have the required form, so the object is to be
    accepted; the code reaches [re.match] with [re] unbound, the
    validation raises, and the webhook answers with a refusal. *)
Theorem validate_raises_on_limits :
  let answer := validate_odoo_instance_webhook
                  (admission_request instance_with_limits) bare_world in
  memory_pattern "4Gi" = true
  /\ cpu_pattern "2" = true
  /\ validate_odoo_instance instance_with_limits
     = Raise (NameError "name 're' is not defined")
  /\ fst answer
     = Ok (admission_review [
             ("uid", VStr "705ab4f5");
             ("allowed", VBool false);
             ("status", VDict [("message",
                VStr "Error validating OdooInstance: name 're' is not defined")])],
           OK_STATUS).
Proof. cbv zeta. repeat split; vm_compute; reflexivity. Qed.

(** ** Deletion *)

(** C9. A delete call returns the success result in every world,
    whatever the state of the cluster and of the database server and
    whichever calls fail.  When the clean-up of the database raises, for
    any reason, the handler adds two warnings (the first carries the
    text of the failure) and its closing line to the log and changes
    nothing else. *)
Theorem delete_survives_cleanup_failure
  (environ : string -> option string) (spec : dict)
  (name namespace : string) (w : World) :
  let greeted :=
    snd (logger INFO ("Deleting OdooInstance: " ++ name ++ " in namespace: " ++ namespace) w) in
  let run := delete_odoo_instance environ spec name namespace w in
  fst run = Ok deleted_successfully
  /\ (forall e w1,
        database_cleanup environ name namespace greeted = (Raise e, w1) ->
        log (snd run) =
          (log w1 ++ [
             (WARNING, ("Failed to clean up database user and database: " ++ str_exn e)%string);
             (WARNING, "Continuing with deletion, but database resources may not be fully cleaned up");
             (INFO, ("OdooInstance " ++ name ++ " in namespace " ++ namespace
                     ++ " has been deleted")%string)])%list
        /\ cluster (snd run) = cluster w1
        /\ instances (snd run) = instances w1
        /\ pg_roles (snd run) = pg_roles w1
        /\ pg_databases (snd run) = pg_databases w1).
Proof.
  intros greeted run. subst run greeted.
  unfold delete_odoo_instance, bind, try_except, logger. cbn [snd fst].
  destruct (database_cleanup environ name namespace _) as [[[]|e] w1] eqn:Hrun; cbn.
  - split; [reflexivity|]. intros e w2 H. discriminate H.
  - split; [reflexivity|]. intros e' w2 H. injection H as -> ->.
    rewrite <- !app_assoc. cbn. repeat split; reflexivity.
Qed.

Lemma delete_survives_cleanup_failure_witness :
  fst (delete_odoo_instance no_environ [("version", VStr "17.0")] "demo" "default"
         unreachable_database)
    = Ok deleted_successfully
  /\ existsb is_warning
       (log (snd (delete_odoo_instance no_environ [("version", VStr "17.0")]
                    "demo" "default" unreachable_database))) = true.
Proof.
  destruct (delete_survives_cleanup_failure no_environ [("version", VStr "17.0")]
              "demo" "default" unreachable_database) as [Hresult Hlog].
  split; [exact Hresult|].
  destruct (Hlog (DatabaseError "could not connect to server: Connection refused")
              (snd (database_cleanup no_environ "demo" "default"
                      (snd (logger INFO "Deleting OdooInstance: demo in namespace: default"
                              unreachable_database)))))
    as [Hl _].
  - vm_compute. reflexivity.
  - rewrite Hl. vm_compute. reflexivity.
Defined.

(** ** Idempotent apply *)

Lemma owner_references_run name namespace w :
  owner_known name namespace w ->
  faults w (clock w) GetCustomObject = None ->
  exists owner, owner_references name namespace w = (Ok owner, tick w).
Proof.
  intros (obj & uid & Hobj & Huid) Hfault.
  unfold owner_references, bind, get_namespaced_custom_object, external, lift, ret.
  rewrite Hfault. cbn [instances tick]. rewrite Hobj.
  destruct obj as [| | | | |d]; try discriminate Huid.
  cbn in Huid. cbn [subscript].
  destruct (dict_lookup "metadata" d) as [md|]; [|discriminate Huid].
  destruct md as [| | | | |m]; try discriminate Huid.
  cbn [subscript].
  destruct (dict_lookup "uid" m) as [u|]; [|discriminate Huid].
  eexists. reflexivity.
Qed.


Lemma create_namespaced_fault k namespace body w e :
  faults w (clock w) (CreateNamespaced k) = Some e ->
  create_namespaced k namespace body w = (Raise e, tick w).
Proof. intros H. unfold create_namespaced, external. rewrite H. reflexivity. Qed.

Lemma create_namespaced_present k namespace body object_name w :
  metadata_name body = Some object_name ->
  faults w (clock w) (CreateNamespaced k) = None ->
  is_Some (cluster w !! (k, namespace, object_name)) ->
  create_namespaced k namespace body w = (Raise (api_error 409 "Conflict"), tick w).
Proof.
  intros Hname Hfault [obj Hobj]. unfold create_namespaced, external.
  rewrite Hfault, Hname. cbn [tick cluster]. rewrite Hobj. reflexivity.
Qed.

Lemma create_namespaced_absent k namespace body object_name w :
  metadata_name body = Some object_name ->
  faults w (clock w) (CreateNamespaced k) = None ->
  cluster w !! (k, namespace, object_name) = None ->
  create_namespaced k namespace body w
  = (Ok tt, set_cluster (insert (k, namespace, object_name) body) (tick w)).
Proof.
  intros Hname Hfault Hobj. unfold create_namespaced, external.
  rewrite Hfault, Hname. cbn [tick cluster]. rewrite Hobj. reflexivity.
Qed.


Lemma bind_ok {A B} (m : M A) (f : A -> M B) w a w' :
  m w = (Ok a, w') -> bind m f w = f a w'.
Proof. intros H. unfold bind. rewrite H. reflexivity. Qed.

Lemma bind_raise {A B} (m : M A) (f : A -> M B) w e w' :
  m w = (Raise e, w') -> bind m f w = (Raise e, w').
Proof. intros H. unfold bind. rewrite H. reflexivity. Qed.

Section GuardedCreate.

Variables (k : Kind) (name namespace object_name : string).
Variables (body : value -> value) (logged : option string) (msg : string).
Hypothesis body_name : forall owner, metadata_name (body owner) = Some object_name.

Let create := guarded_create k name namespace body logged msg.





End GuardedCreate.


Lemma well_typed_spec_inv spec :
  well_typed_spec spec = true ->
  (exists d, dict_get spec "filestore" (VDict []) = VDict d)
  /\ (exists d, dict_get spec "database" (VDict []) = VDict d)
  /\ (exists d, dict_get spec "ingress" (VDict []) = VDict d)
  /\ (dict_get spec "addons" (VList []) = VNone
      \/ exists l, dict_get spec "addons" (VList []) = VList l /\ forallb is_dict l = true).
Proof.
  unfold well_typed_spec. intros H.
  apply andb_prop in H as [H Ha]. apply andb_prop in H as [H Hi].
  apply andb_prop in H as [Hf Hd].
  repeat split.
  - destruct (dict_get spec "filestore" _); try discriminate. eexists; reflexivity.
  - destruct (dict_get spec "database" _); try discriminate. eexists; reflexivity.
  - destruct (dict_get spec "ingress" _); try discriminate. eexists; reflexivity.
  - destruct (dict_get spec "addons" _); try discriminate; [left; reflexivity|].
    right. eexists. split; [reflexivity | exact Ha].
Qed.

Ltac same_run :=
  unfold guarded_create, bind, try_except, ret, on_conflict;
  match goal with
  | |- context [owner_references ?n ?ns ?w] =>
      destruct (owner_references n ns w) as [[?|?] ?]; [|reflexivity]
  end;
  match goal with
  | |- ?L = ?R =>
      match L with
      | context [create_namespaced ?k ?ns ?b ?w1] =>
          match R with
          | context [create_namespaced k ns ?b' w1] => unify b' b
          end;
          destruct (create_namespaced k ns b w1) as [[[]|[status ?| | | | | | | | |]] ?];
          try reflexivity;
          destruct (status =? 409); reflexivity
      end
  end.

Lemma create_config_map_shape name namespace spec :
  exists body msg,
    (forall owner, metadata_name (body owner) = Some ("odoo-config-" ++ name))
    /\ forall w, create_config_map name namespace spec w
                 = guarded_create ConfigMap name namespace body None msg w.
Proof.
  eexists (fun owner => _), _. split; cycle 1.
  - intros w. unfold create_config_map. same_run.
  - intros owner; reflexivity.
Qed.

Lemma create_service_shape name namespace spec :
  exists body logged msg,
    (forall owner, metadata_name (body owner) = Some name)
    /\ forall w, create_service name namespace spec w
                 = guarded_create Service name namespace body logged msg w.
Proof.
  eexists (fun owner => _), (Some _), _. split; cycle 1.
  - intros w. unfold create_service. same_run.
  - intros owner; reflexivity.
Qed.


Lemma create_filestore_pvc_shape environ name namespace spec :
  well_typed_spec spec = true ->
  exists body msg,
    (forall owner, metadata_name (body owner) = Some ("odoo-filestore-" ++ name))
    /\ forall w, create_filestore_pvc environ name namespace spec w
                 = guarded_create PersistentVolumeClaim name namespace body None msg w.
Proof.
  intros Hspec. destruct (well_typed_spec_inv _ Hspec) as ((d & Hd) & _).
  eexists (fun owner => _), _. split; cycle 1.
  - intros w. unfold create_filestore_pvc. rewrite Hd.
    unfold lift, py_get. same_run.
  - intros owner; reflexivity.
Qed.


Lemma create_ingress_shape environ name namespace spec :
  well_typed_spec spec = true ->
  exists body logged msg,
    (forall owner, metadata_name (body owner) = Some name)
    /\ forall w, create_ingress environ name namespace spec w
                 = guarded_create Ingress name namespace body logged msg w.
Proof.
  intros Hspec. destruct (well_typed_spec_inv _ Hspec) as (_ & _ & (d & Hd) & _).
  eexists (fun owner => _), (Some _), _. split; cycle 1.
  - intros w. unfold create_ingress. rewrite Hd.
    unfold lift, py_get. same_run.
  - intros owner; reflexivity.
Qed.

Lemma addon_loop_total l : forall i,
  forallb is_dict l = true -> exists parts, addon_loop i l = Ok parts.
Proof.
  induction l as [|addon l IH]; intros i H.
  - eexists. reflexivity.
  - cbn [forallb] in H. apply andb_prop in H as [Hd Hl].
    destruct addon as [| | | | |d]; try discriminate Hd.
    destruct (IH (S i) Hl) as [[[vs cs] ms] Hrest].
    cbn [addon_loop addon_round py_get]. rewrite Hrest. eexists. reflexivity.
Qed.

Lemma bind_pure {A B} (m : M A) (a : A) (f : A -> M B) :
  (forall w, m w = (Ok a, w)) -> forall w, bind m f w = f a w.
Proof. intros H w. unfold bind. rewrite H. reflexivity. Qed.

Lemma bind_ext {A B} (m : M A) (f g : A -> M B) w :
  (forall a w', f a w' = g a w') -> bind m f w = bind m g w.
Proof. intros H. unfold bind. destruct (m w) as [[a|e] w']; [apply H | reflexivity]. Qed.

Lemma addon_parts_total (addons : value) :
  (addons = VNone \/ exists l, addons = VList l /\ forallb is_dict l = true) ->
  exists parts, forall w,
    (if truthy addons
     then bind (lift (py_iter addons)) (fun l => lift (addon_loop 0 l))
     else ret ([], [], [])) w = (Ok parts, w).
Proof.
  intros [->|(l & -> & Hl)].
  - eexists. intros w. reflexivity.
  - destruct l as [|a l].
    + eexists. intros w. reflexivity.
    + destruct (addon_loop_total (a :: l) O Hl) as [parts Hp].
      exists parts. intros w. cbn [truthy py_iter]. unfold bind, lift. rewrite Hp. reflexivity.
Qed.

Lemma create_deployment_shape environ name namespace spec :
  well_typed_spec spec = true ->
  exists body logged msg,
    (forall owner, metadata_name (body owner) = Some name)
    /\ forall w, create_deployment environ name namespace spec w
                 = guarded_create Deployment name namespace body logged msg w.
Proof.
  intros Hspec. destruct (well_typed_spec_inv _ Hspec) as (_ & _ & _ & Haddons).
  destruct (addon_parts_total _ Haddons) as [[[vs cs] ms] Hparts].
  eexists (fun owner => _), (Some _), _. split; cycle 1.
  - intros w. unfold create_deployment. cbv zeta.
    unfold guarded_create. apply bind_ext. intros owner w1.
    rewrite (bind_pure _ _ _ Hparts). cbv iota beta.
    unfold bind, try_except, on_conflict.
    match goal with
    | |- ?L = ?R =>
      match L with
      | context [create_namespaced ?k ?ns ?b ?w1] =>
          match R with
          | context [create_namespaced k ns ?b' w1] => unify b' b
          end;
          destruct (create_namespaced k ns b w1) as [[[]|[status ?| | | | | | | | |]] ?];
          try reflexivity;
          destruct (status =? 409); reflexivity
      end
    end.
  - intros owner; reflexivity.
Qed.









(** ** Dictionaries: what is written is what is read *)

Lemma dict_lookup_set_eq k v d : dict_lookup k (dict_set k v d) = Some v.
Proof.
  induction d as [|[k' v'] d IH]; cbn.
  - rewrite String.eqb_refl. reflexivity.
  - destruct (String.eqb k k') eqn:E; cbn; rewrite E; [reflexivity | exact IH].
Qed.

Lemma dict_lookup_set_ne k k' v d :
  k <> k' -> dict_lookup k (dict_set k' v d) = dict_lookup k d.
Proof.
  intros Hne. induction d as [|[k0 v0] d IH]; cbn.
  - destruct (String.eqb k k') eqn:E; [|reflexivity].
    apply String.eqb_eq in E. contradiction.
  - destruct (String.eqb k' k0) eqn:E; cbn.
    + apply String.eqb_eq in E. subst k0.
      destruct (String.eqb k k') eqn:E'; [|reflexivity].
      apply String.eqb_eq in E'. contradiction.
    + rewrite IH. reflexivity.
Qed.

Lemma dict_lookup_del_ne k k' d :
  k <> k' -> dict_lookup k (dict_del k' d) = dict_lookup k d.
Proof.
  intros Hne. induction d as [|[k0 v0] d IH]; cbn; [reflexivity|].
  destruct (String.eqb k' k0) eqn:E; cbn.
  - apply String.eqb_eq in E. subst k0.
    destruct (String.eqb k k') eqn:E'; [|reflexivity].
    apply String.eqb_eq in E'. contradiction.
  - rewrite IH. reflexivity.
Qed.

Lemma dict_has_lookup k d : dict_has k d = false <-> dict_lookup k d = None.
Proof. unfold dict_has. destruct (dict_lookup k d); split; intros H; congruence. Qed.

Lemma dict_lookup_del_eq k d :
  unique_keys d = true -> dict_lookup k (dict_del k d) = None.
Proof.
  induction d as [|[k0 v0] d IH]; cbn; [reflexivity|].
  intros H. apply andb_prop in H as [Hfresh Hd].
  destruct (String.eqb k k0) eqn:E; cbn.
  - apply String.eqb_eq in E. subst k0.
    apply negb_true_iff in Hfresh. apply dict_has_lookup. exact Hfresh.
  - rewrite E. apply IH. exact Hd.
Qed.

Lemma unique_keys_set k v d : unique_keys d = true -> unique_keys (dict_set k v d) = true.
Proof.
  induction d as [|[k0 v0] d IH]; cbn; [reflexivity|].
  intros H. apply andb_prop in H as [Hfresh Hd].
  destruct (String.eqb k k0) eqn:E; cbn.
  - rewrite Hfresh, Hd. reflexivity.
  - rewrite (IH Hd), andb_true_r.
    apply negb_true_iff, dict_has_lookup.
    rewrite dict_lookup_set_ne.
    + apply dict_has_lookup, negb_true_iff. exact Hfresh.
    + intros ->. rewrite String.eqb_refl in E. discriminate E.
Qed.

Lemma unique_keys_del k d : unique_keys d = true -> unique_keys (dict_del k d) = true.
Proof.
  induction d as [|[k0 v0] d IH]; cbn; [reflexivity|].
  intros H. apply andb_prop in H as [Hfresh Hd].
  destruct (String.eqb k k0) eqn:E; cbn; [exact Hd|].
  rewrite (IH Hd), andb_true_r.
  apply negb_true_iff, dict_has_lookup.
  destruct (String.eqb_spec k0 k) as [->|Hne].
  - apply dict_lookup_del_eq. exact Hd.
  - rewrite dict_lookup_del_ne by exact Hne.
    apply dict_has_lookup, negb_true_iff. exact Hfresh.
Qed.

Lemma unique_keys_update d p : unique_keys d = true -> unique_keys (dict_update d p) = true.
Proof.
  unfold dict_update. revert d.
  induction p as [|[k v] p IH]; intros d Hd; cbn; [exact Hd|].
  apply IH. apply unique_keys_set. exact Hd.
Qed.

(** [d.update(p)]: a key of [p] reads as [p] gives it, any other key as
    before. *)
Lemma dict_lookup_update k d p :
  unique_keys p = true ->
  dict_lookup k (dict_update d p)
  = match dict_lookup k p with
    | Some v => Some v
    | None => dict_lookup k d
    end.
Proof.
  unfold dict_update. revert d.
  induction p as [|[k0 v0] p IH]; intros d Hp; cbn; [reflexivity|].
  apply andb_prop in Hp as [Hfresh Hp].
  rewrite (IH _ Hp).
  destruct (String.eqb k k0) eqn:E.
  - apply String.eqb_eq in E. subst k0.
    apply negb_true_iff, dict_has_lookup in Hfresh. rewrite Hfresh.
    apply dict_lookup_set_eq.
  - destruct (dict_lookup k p); [reflexivity|].
    apply dict_lookup_set_ne. intros ->. rewrite String.eqb_refl in E. discriminate E.
Qed.

(** ** Merge patches *)

Lemma merge_patch_dict t p :
  merge_patch t (VDict p)
  = VDict (merge_entries p (match t with VDict d => d | _ => [] end)).
Proof. reflexivity. Qed.

Lemma merge_patch_scalar t v : is_dict v = false -> merge_patch t v = v.
Proof. destruct v; intros H; try reflexivity. discriminate H. Qed.

Lemma unique_keys_merge_entries p : forall acc,
  unique_keys acc = true -> unique_keys (merge_entries p acc) = true.
Proof.
  induction p as [|[k v] p IH]; intros acc Hacc; [exact Hacc|].
  cbn [merge_entries]. apply IH.
  destruct v; try (apply unique_keys_set; exact Hacc).
  apply unique_keys_del. exact Hacc.
Qed.

(** A key reads after the merge as the patch says: removed when the
    patch gives [None], merged when it gives a value, untouched when the
    patch does not name it. *)
Lemma merge_entries_lookup k p : forall acc,
  unique_keys p = true ->
  unique_keys acc = true ->
  dict_lookup k (merge_entries p acc)
  = match dict_lookup k p with
    | None => dict_lookup k acc
    | Some VNone => None
    | Some v => Some (merge_patch (dict_get acc k VNone) v)
    end.
Proof.
  induction p as [|[k0 v0] p IH]; intros acc Hp Hacc; [reflexivity|].
  cbn [merge_entries unique_keys dict_lookup] in *.
  apply andb_prop in Hp as [Hfresh Hp].
  apply negb_true_iff, dict_has_lookup in Hfresh.
  set (acc' := match v0 with
               | VNone => dict_del k0 acc
               | _ => dict_set k0 (merge_patch (dict_get acc k0 VNone) v0) acc
               end).
  assert (Hacc' : unique_keys acc' = true).
  { subst acc'. destruct v0; try (apply unique_keys_set; exact Hacc).
    apply unique_keys_del. exact Hacc. }
  rewrite (IH _ Hp Hacc').
  destruct (String.eqb k k0) eqn:E.
  - apply String.eqb_eq in E. subst k0. rewrite Hfresh. subst acc'.
    destruct v0; try apply dict_lookup_set_eq.
    apply dict_lookup_del_eq. exact Hacc.
  - assert (Hne : k <> k0) by (intros ->; rewrite String.eqb_refl in E; discriminate E).
    assert (Hsame : dict_lookup k acc' = dict_lookup k acc).
    { subst acc'. destruct v0; try (apply dict_lookup_set_ne; exact Hne).
      apply dict_lookup_del_ne. exact Hne. }
    assert (Hget : dict_get acc' k VNone = dict_get acc k VNone).
    { unfold dict_get. rewrite Hsame. reflexivity. }
    rewrite Hsame, Hget. reflexivity.
Qed.

(** ** Status patches *)

Lemma patch_status_run name namespace status_patch w inst :
  instances w !! (namespace, name) = Some inst ->
  well_formed_instance inst = true ->
  status_reachable w ->
  patch_status name namespace status_patch w
  = (Ok tt, set_instances (insert (namespace, name) (patched inst status_patch))
              (tick (tick w))).
Proof.
  intros Hinst Hwf [Hget Hpatch].
  unfold patch_status, try_except, bind, get_namespaced_custom_object,
    patch_namespaced_custom_object_status, external.
  rewrite Hget. cbn [tick instances clock faults]. rewrite Hinst.
  destruct inst as [| | | | |i]; try discriminate Hwf.
  cbn [lift py_get]. unfold dict_get at 1.
  cbn [well_formed_instance] in Hwf.
  unfold patched, current_status.
  destruct (dict_lookup "status" i) as [[| | | | |d]|] eqn:Hs; try discriminate Hwf.
  - cbn [py_update lift tick faults instances clock]. rewrite Hpatch, Hinst.
    rewrite merge_patch_dict. cbn [merge_entries]. unfold dict_get at 1. rewrite Hs.
    rewrite merge_patch_dict. reflexivity.
  - cbn [py_update lift tick faults instances clock]. rewrite Hpatch, Hinst.
    rewrite merge_patch_dict. cbn [merge_entries]. unfold dict_get at 1. rewrite Hs.
    rewrite merge_patch_dict. reflexivity.
Qed.

Lemma current_status_unique inst :
  well_formed_instance inst = true -> unique_keys (current_status inst) = true.
Proof.
  destruct inst as [| | | | |i]; try discriminate. cbn.
  destruct (dict_lookup "status" i) as [[| | | | |d]|]; try discriminate; [|reflexivity].
  intros H. apply andb_prop in H as [H _]. exact H.
Qed.

Lemma status_field_current inst k :
  well_formed_instance inst = true ->
  status_field inst k = dict_get (current_status inst) k VNone.
Proof.
  destruct inst as [| | | | |i]; try discriminate. cbn.
  destruct (dict_lookup "status" i) as [[| | | | |d]|]; try discriminate; reflexivity.
Qed.

Lemma status_field_patched inst p k :
  well_formed_instance inst = true ->
  status_field (patched inst p) k
  = dict_get (merge_entries (dict_update (current_status inst) p) (current_status inst)) k VNone.
Proof.
  destruct inst as [| | | | |i]; try discriminate. intros _.
  unfold patched, status_field. rewrite dict_lookup_set_eq. reflexivity.
Qed.

(** A field that the patch sets to a plain value reads as that value. *)
Lemma patched_field_written inst p k v :
  well_formed_instance inst = true ->
  unique_keys p = true ->
  dict_lookup k p = Some v ->
  is_dict v = false ->
  v <> VNone ->
  status_field (patched inst p) k = v.
Proof.
  intros Hwf Hp Hk Hv Hnone.
  rewrite status_field_patched by exact Hwf. unfold dict_get.
  rewrite merge_entries_lookup.
  - rewrite dict_lookup_update by exact Hp. rewrite Hk.
    rewrite merge_patch_scalar by exact Hv. destruct v; congruence.
  - apply unique_keys_update, current_status_unique, Hwf.
  - apply current_status_unique, Hwf.
Qed.

(** A field that the patch does not name keeps its value. *)
Lemma patched_field_kept inst p k :
  well_formed_instance inst = true ->
  unique_keys p = true ->
  dict_lookup k p = None ->
  is_dict (status_field inst k) = false ->
  status_field (patched inst p) k = status_field inst k.
Proof.
  intros Hwf Hp Hk Hv.
  rewrite status_field_patched by exact Hwf.
  rewrite status_field_current in * by exact Hwf. unfold dict_get in *.
  rewrite merge_entries_lookup.
  - rewrite dict_lookup_update by exact Hp. rewrite Hk.
    destruct (dict_lookup k (current_status inst)) as [v|]; [|reflexivity].
    rewrite merge_patch_scalar by exact Hv. destruct v; reflexivity.
  - apply unique_keys_update, current_status_unique, Hwf.
  - apply current_status_unique, Hwf.
Qed.

Lemma patched_well_formed inst p :
  well_formed_instance inst = true ->
  unique_keys p = true ->
  is_dict (status_field (patched inst p) "ready") = false ->
  well_formed_instance (patched inst p) = true.
Proof.
  intros Hwf Hp Hready.
  pose proof (current_status_unique inst Hwf) as Hu.
  destruct inst as [| | | | |i]; try discriminate Hwf.
  unfold patched in *. cbn [well_formed_instance status_field] in *.
  rewrite dict_lookup_set_eq in *.
  rewrite Hready, andb_true_r.
  apply unique_keys_merge_entries. exact Hu.
Qed.

(** ** What the update path leaves alone *)

Lemma tame_ret {A} (a : A) : tame (ret a).
Proof. split; intros w; [split; reflexivity | intros e _ H; discriminate H]. Qed.

Lemma tame_raise {A} (e : Exn) : not_permanent e -> tame (@raise A e).
Proof.
  intros He. split; intros w; [split; reflexivity|].
  intros e' _ H. injection H as <-. exact He.
Qed.

Lemma tame_lift {A} (r : Result A) : mild_result r -> tame (lift r).
Proof.
  intros Hr. split; intros w; [split; reflexivity|].
  intros e _ H. apply Hr. exact H.
Qed.

Lemma tame_logger lvl msg : tame (logger lvl msg).
Proof. split; intros w; [split; reflexivity | intros e _ H; discriminate H]. Qed.

Lemma tame_bind {A B} (m : M A) (f : A -> M B) :
  tame m -> (forall a, tame (f a)) -> tame (bind m f).
Proof.
  intros [Hs Hm] Hf. split; intros w.
  - unfold bind. destruct (Hs w) as [Hi Hfa].
    destruct (m w) as [[a|e] w1]; cbn [snd] in *; [|split; assumption].
    destruct (Hf a) as [Hs' _]. destruct (Hs' w1) as [Hi' Hfa'].
    split; congruence.
  - intros e Hh. unfold bind. pose proof (Hm w) as Hmw. destruct (Hs w) as [_ Hfa].
    destruct (m w) as [[a|e'] w1]; cbn [fst snd] in *.
    + destruct (Hf a) as [_ Hm']. apply Hm'.
      intros n ep e0. rewrite Hfa. apply Hh.
    + intros H. injection H as <-. apply Hmw; [exact Hh | reflexivity].
Qed.

Lemma tame_try {A} (body : M A) (handler : Exn -> option (M A)) :
  tame body ->
  (forall e h, handler e = Some h -> tame h) ->
  tame (try_except body handler).
Proof.
  intros [Hs Hm] Hh. split; intros w.
  - unfold try_except. destruct (Hs w) as [Hi Hfa].
    destruct (body w) as [[a|e] w1]; cbn [snd] in *; [split; assumption|].
    destruct (handler e) as [h|] eqn:E; [|split; assumption].
    destruct (Hh e h E) as [Hs' _]. destruct (Hs' w1) as [Hi' Hfa'].
    split; congruence.
  - intros e Hho. unfold try_except. pose proof (Hm w) as Hmw. destruct (Hs w) as [_ Hfa].
    destruct (body w) as [[a|e'] w1]; cbn [fst snd] in *; [intros H; discriminate H|].
    destruct (handler e') as [h|] eqn:E.
    + destruct (Hh e' h E) as [_ Hm']. apply Hm'.
      intros n ep e0. rewrite Hfa. apply Hho.
    + intros H. injection H as <-. apply Hmw; [exact Hho | reflexivity].
Qed.

Lemma tame_external {A} ep (usual : M A) : tame usual -> tame (external ep usual).
Proof.
  intros [Hs Hm]. split; intros w.
  - unfold external. destruct (faults w (clock w) ep); [split; reflexivity|].
    apply (Hs (tick w)).
  - intros e Hh. unfold external. destruct (faults w (clock w) ep) as [e'|] eqn:E.
    + intros H. injection H as <-. apply (Hh _ _ _ E).
    + apply (Hm (tick w)). exact Hh.
Qed.

Lemma api_error_not_permanent status reason : not_permanent (api_error status reason).
Proof. intros msg H. discriminate H. Qed.

Ltac tame_usual :=
  apply tame_external; split; intros w;
  [ repeat match goal with
           | |- context [match ?x with _ => _ end] => destruct x
           end; split; reflexivity
  | intros e _;
    repeat match goal with
           | |- context [match ?x with _ => _ end] => destruct x
           end; cbn [fst]; intros H; try discriminate H;
    injection H as <-; apply api_error_not_permanent ].

Lemma tame_create_namespaced k namespace body : tame (create_namespaced k namespace body).
Proof. unfold create_namespaced. tame_usual. Qed.

Lemma tame_read_namespaced k name namespace : tame (read_namespaced k name namespace).
Proof. unfold read_namespaced. tame_usual. Qed.

Lemma tame_patch_namespaced k name namespace body :
  tame (patch_namespaced k name namespace body).
Proof. unfold patch_namespaced. tame_usual. Qed.

Lemma tame_delete_namespaced k name namespace : tame (delete_namespaced k name namespace).
Proof. unfold delete_namespaced. tame_usual. Qed.

Lemma tame_get_custom_object namespace name :
  tame (get_namespaced_custom_object namespace name).
Proof. unfold get_namespaced_custom_object. tame_usual. Qed.

Lemma py_get_mild v k default : mild_result (py_get v k default).
Proof. intros e H msg ->. destruct v; discriminate H. Qed.

Lemma subscript_mild v k : mild_result (subscript v k).
Proof.
  intros e H msg ->. destruct v as [| | | | |d]; try discriminate H.
  cbn in H. destruct (dict_lookup k d); discriminate H.
Qed.

Lemma py_iter_mild v : mild_result (py_iter v).
Proof. intros e H msg ->. destruct v; discriminate H. Qed.

Lemma addon_round_mild i addon : mild_result (addon_round i addon).
Proof.
  intros e H msg ->. unfold addon_round in H.
  destruct addon; cbn in H; discriminate H.
Qed.

Lemma addon_loop_mild addons : forall i, mild_result (addon_loop i addons).
Proof.
  induction addons as [|addon rest IH]; intros i e H; [discriminate H|].
  cbn [addon_loop] in H.
  destruct (addon_round i addon) as [[[v c] m]|e'] eqn:E.
  - destruct (addon_loop (S i) rest) as [[[vs cs] ms]|e''] eqn:E'; [discriminate H|].
    injection H as <-. apply (IH (S i)). exact E'.
  - injection H as <-. apply (addon_round_mild i addon). exact E.
Qed.

Lemma assign_mild path v : forall obj, mild_result (assign path v obj).
Proof.
  induction path as [|[k|i] rest IH]; intros obj e H; [discriminate H| |].
  - cbn [assign] in H. destruct obj as [| | | | |d];
      try (injection H as <-; intros msg Hm; discriminate Hm).
    destruct rest as [|s rest']; [discriminate H|].
    destruct (assign (s :: rest') v (dict_get d k VNone)) as [sub|e'] eqn:E; [discriminate H|].
    injection H as <-. apply (IH _ _ E).
  - cbn [assign] in H. destruct obj as [| | | |l|];
      try (injection H as <-; intros msg Hm; discriminate Hm).
    destruct (nth_error l i) as [x|];
      [|injection H as <-; intros msg Hm; discriminate Hm].
    destruct (assign rest v x) as [sub|e'] eqn:E.
    + destruct (list_assign i sub l); [discriminate H|].
      injection H as <-. intros msg Hm. discriminate Hm.
    + injection H as <-. apply (IH _ _ E).
Qed.

Create HintDb tame discriminated.
#[local] Hint Resolve tame_ret tame_logger tame_create_namespaced tame_read_namespaced
  tame_patch_namespaced tame_delete_namespaced tame_get_custom_object : tame.
#[local] Hint Resolve py_get_mild subscript_mild py_iter_mild addon_loop_mild assign_mild : tame.

Ltac tame_step :=
  lazymatch goal with
  | |- tame (bind _ _) => apply tame_bind; [|intros ?]
  | |- tame (try_except _ _) =>
      apply tame_try;
      [|let e := fresh "e" in let h := fresh "h" in let H := fresh "H" in
        intros e h H; destruct e; cbn in H; try discriminate H; injection H as <-]
  | |- tame (lift _) => apply tame_lift; auto with tame
  | |- tame (raise _) => apply tame_raise; intros ? ?; discriminate
  | |- tame (if ?c then _ else _) => destruct c
  | |- tame (let '(_, _) := ?p in _) => destruct p
  | |- tame (match ?x with _ => _ end) => destruct x
  | |- tame _ => solve [auto with tame]
  end.

Ltac tame_all := cbv zeta; repeat (tame_step; cbv zeta).

Lemma tame_owner_references name namespace : tame (owner_references name namespace).
Proof. unfold owner_references. tame_all. Qed.
#[local] Hint Resolve tame_owner_references : tame.

Lemma tame_create_config_map name namespace spec :
  tame (create_config_map name namespace spec).
Proof. unfold create_config_map. tame_all. Qed.
#[local] Hint Resolve tame_create_config_map : tame.

Lemma tame_update_config_map name namespace spec :
  tame (update_config_map name namespace spec).
Proof. unfold update_config_map. tame_all. Qed.

Lemma tame_create_service name namespace spec :
  tame (create_service name namespace spec).
Proof. unfold create_service. tame_all. Qed.
#[local] Hint Resolve tame_create_service : tame.

Lemma tame_update_service name namespace spec :
  tame (update_service name namespace spec).
Proof. unfold update_service. tame_all. Qed.

Lemma tame_create_deployment environ name namespace spec :
  tame (create_deployment environ name namespace spec).
Proof. unfold create_deployment. tame_all. Qed.
#[local] Hint Resolve tame_create_deployment : tame.

Lemma tame_update_deployment environ name namespace spec :
  tame (update_deployment environ name namespace spec).
Proof. unfold update_deployment. tame_all. Qed.

Lemma tame_create_ingress environ name namespace spec :
  tame (create_ingress environ name namespace spec).
Proof. unfold create_ingress. tame_all. Qed.
#[local] Hint Resolve tame_create_ingress : tame.

Lemma tame_update_ingress environ name namespace spec :
  tame (update_ingress environ name namespace spec).
Proof. unfold update_ingress. tame_all. Qed.

Lemma tame_instance_url spec : tame (instance_url spec).
Proof. unfold instance_url. tame_all. Qed.

Lemma tame_log_changes diff : tame (log_changes diff).
Proof.
  induction diff as [|[[[op path] old_val] new_val] rest IH]; cbn [log_changes].
  - apply tame_ret.
  - apply tame_bind; [apply tame_logger | intros _; exact IH].
Qed.

(** ** Phase transitions of an update *)

Lemma try_ok {A} (body : M A) handler w a w' :
  body w = (Ok a, w') -> try_except body handler w = (Ok a, w').
Proof. intros H. unfold try_except. rewrite H. reflexivity. Qed.

Lemma try_raise {A} (body : M A) handler w e w' :
  body w = (Raise e, w') ->
  try_except body handler w
  = match handler e with
    | Some h => h w'
    | None => (Raise e, w')
    end.
Proof. intros H. unfold try_except. rewrite H. reflexivity. Qed.

Lemma well_formed_ready inst :
  well_formed_instance inst = true -> is_dict (status_field inst "ready") = false.
Proof.
  destruct inst as [| | | | |i]; try discriminate. cbn.
  destruct (dict_lookup "status" i) as [[| | | | |d]|]; try discriminate; [|reflexivity].
  intros H. apply andb_prop in H as [_ H]. apply negb_true_iff in H. exact H.
Qed.

Lemma patched_keeps_ready inst p :
  well_formed_instance inst = true ->
  unique_keys p = true ->
  dict_lookup "ready" p = None ->
  well_formed_instance (patched inst p) = true
  /\ status_field (patched inst p) "ready" = status_field inst "ready".
Proof.
  intros Hwf Hp Hk.
  pose proof (patched_field_kept inst p "ready" Hwf Hp Hk (well_formed_ready inst Hwf)) as Hr.
  split; [|exact Hr].
  apply patched_well_formed; try assumption.
  rewrite Hr. apply well_formed_ready. exact Hwf.
Qed.

Lemma log_changes_run diff w :
  exists w', log_changes diff w = (Ok tt, w')
             /\ instances w' = instances w /\ faults w' = faults w.
Proof.
  revert w. induction diff as [|[[[op path] old_val] new_val] rest IH]; intros w.
  - exists w. repeat split.
  - cbn [log_changes]. unfold bind at 1. cbn [logger].
    destruct (IH (set_log (fun l => (l ++ [(INFO,
                ("Change detected: " ++ op ++ " " ++ str_join "." (map py_str path)
                 ++ " from " ++ py_str old_val ++ " to " ++ py_str new_val)%string)])%list) w))
      as (w' & Hrun & Hi & Hf).
    exists w'. split; [exact Hrun|]. split; assumption.
Qed.

#[local] Hint Resolve tame_update_ingress tame_instance_url : tame.

(** *** The handler in two parts *)

Lemma bind_assoc {A B C} (m : M A) (f : A -> M B) (g : B -> M C) w :
  bind (bind m f) g w = bind m (fun a => bind (f a) g) w.
Proof. unfold bind. destruct (m w) as [[a|e] w1]; reflexivity. Qed.

(** The [try] block of [update_odoo_instance] is [apply_updates]
    followed by what the block does with the url. *)
Lemma apply_updates_then {A} environ spec name namespace old (K : value -> M A) w :
  (update_config_map name namespace spec ;;
   update_deployment environ name namespace spec ;;
   update_service name namespace spec ;;
   enabled <- lift (py_get (dict_get spec "ingress" (VDict [])) "enabled" (VBool true)) ;;
   url <- (if truthy enabled then
             old_enabled <- lift (py_get (dict_get old "ingress" (VDict []))
                                    "enabled" (VBool true)) ;;
             (if truthy old_enabled
              then update_ingress environ name namespace spec
              else create_ingress environ name namespace spec) ;;
             instance_url spec
           else
             old_enabled <- lift (py_get (dict_get old "ingress" (VDict []))
                                    "enabled" (VBool true)) ;;
             (if truthy old_enabled then
                try_except
                  (delete_namespaced Ingress ("odoo-" ++ name) namespace ;;
                   logger INFO ("Deleted ingress for " ++ name))
                  (fun e =>
                     match e with
                     | ApiException status _ =>
                         Some (if negb (status =? 404) then raise e else ret tt)
                     | _ => None
                     end)
              else ret tt) ;;
             ret VNone) ;;
   K url) w
  = bind (apply_updates environ spec name namespace old) K w.
Proof.
  unfold apply_updates. symmetry.
  rewrite bind_assoc. apply bind_ext. intros _ w1.
  rewrite bind_assoc. apply bind_ext. intros _ w2.
  rewrite bind_assoc. apply bind_ext. intros _ w3.
  rewrite bind_assoc. reflexivity.
Qed.

Lemma tame_apply_updates environ spec name namespace old :
  tame (apply_updates environ spec name namespace old).
Proof.
  unfold apply_updates.
  apply tame_bind; [apply tame_update_config_map | intros _].
  apply tame_bind; [apply tame_update_deployment | intros _].
  apply tame_bind; [apply tame_update_service | intros _].
  tame_all.
Qed.

Lemma log_changes_clock diff : forall w, clock (snd (log_changes diff w)) = clock w.
Proof.
  induction diff as [|[[[op path] old_val] new_val] rest IH]; intros w; [reflexivity|].
  cbn [log_changes]. unfold bind at 1. cbn [logger]. rewrite IH. reflexivity.
Qed.

Lemma update_prologue_run name namespace diff w inst :
  instances w !! (namespace, name) = Some inst ->
  well_formed_instance inst = true ->
  status_reachable w ->
  exists start,
    update_prologue name namespace diff w = (Ok tt, start)
    /\ instances start
       = <[(namespace, name) :=
             patched inst [("phase", VStr "Updating");
                           ("message", VStr "Updating resources")]]> (instances w)
    /\ faults start = faults w
    /\ clock start = S (S (clock w)).
Proof.
  intros Hinst Hwf Hreach. unfold update_prologue.
  erewrite bind_ok by reflexivity.
  erewrite bind_ok; cycle 1.
  { apply (patch_status_run _ _ _ _ inst); [exact Hinst | exact Hwf | exact Hreach]. }
  match goal with
  | |- context [log_changes diff ?w1] =>
      destruct (log_changes_run diff w1) as (w2 & Hlog & Hi2 & Hf2);
      pose proof (log_changes_clock diff w1) as Hc2
  end.
  rewrite Hlog in Hc2.
  exists w2. split; [exact Hlog|]. split; [exact Hi2|]. split; [exact Hf2 | exact Hc2].
Qed.

(** The handler after the opening: the [try] block at the world the
    opening leaves. *)
Lemma update_after_prologue environ spec name namespace old diff w start :
  update_prologue name namespace diff w = (Ok tt, start) ->
  exists handler,
    (forall status text,
       handler (ApiException status text)
       = Some (let error_msg := "Error updating resources: " ++ text in
               logger ERROR error_msg ;;
               patch_status name namespace [
                 ("phase", VStr "Failed");
                 ("message", VStr error_msg)] ;;
               raise (PermanentError error_msg)))
    /\ (forall e, (forall status text, e <> ApiException status text) -> handler e = None)
    /\ update_odoo_instance environ spec name namespace old diff w
       = try_except
           (bind (apply_updates environ spec name namespace old)
              (fun url =>
                 patch_status name namespace [
                   ("phase", VStr "Running");
                   ("ready", VBool true);
                   ("url", url);
                   ("message", VStr "Odoo instance updated successfully")] ;;
                 logger INFO ("Successfully updated OdooInstance: " ++ name
                              ++ " in namespace: " ++ namespace) ;;
                 ret updated_successfully))
           handler start.
Proof.
  intros Hpro. eexists. split; [|split]; cycle 2.
  - unfold update_odoo_instance. unfold update_prologue in Hpro.
    unfold bind at 1. unfold bind at 1 in Hpro.
    destruct (logger INFO _ w) as [[[]|e0] w0]; [|discriminate Hpro].
    unfold bind at 1. unfold bind at 1 in Hpro.
    destruct (patch_status name namespace _ w0) as [[[]|e1] w1]; [|discriminate Hpro].
    unfold bind at 1. rewrite Hpro.
    unfold try_except. rewrite apply_updates_then. reflexivity.
  - intros status text. reflexivity.
  - intros e He. destruct e as [status text| | | | | | | | |]; try reflexivity.
    exfalso. apply (He status text). reflexivity.
Qed.

Lemma steady_stored {A} (m : M A) name namespace inst w r w' :
  tame m ->
  m w = (r, w') ->
  instances w !! (namespace, name) = Some inst ->
  status_reachable w ->
  instances w' !! (namespace, name) = Some inst /\ status_reachable w'.
Proof.
  intros [Hs _] Hrun Hinst [Hget Hpatch].
  destruct (Hs w) as [Hi Hf]. rewrite Hrun in Hi, Hf. cbn [snd] in Hi, Hf.
  split; [rewrite Hi; exact Hinst|].
  split; intros n; rewrite Hf; [apply Hget | apply Hpatch].
Qed.

(** C6, as the code has it.  Take an update call on a stored,
    well-formed instance while the status calls of the API server (the
    read of the instance and the patch of its status) are reachable, and
    let [start] be the world after the opening of the handler.
    - If the store applies succeed, the call returns its success result
      and the status has phase [Running] and [ready = true], whatever
      the phase was before.
    - If the store applies fail with an [ApiException], the call raises
      [PermanentError] with the text of the failure, the status has
      phase [Failed] and that text as message, and [ready] is what it
      was before the call.
    - If the store applies fail with any other exception, the handler
      does not catch it: the exception leaves the call, the phase stays
      [Updating], and [ready] is what it was before the call.
    - In particular, when the first store call of the applies, the read
      of the config map (the third call of the handler), fails with an
      [ApiException] other than 404, the call ends as in the second
      case. *)
Theorem update_phase_transitions
  (environ : string -> option string) (spec : dict) (name namespace : string)
  (old : dict) (diff : list (string * list value * value * value))
  (w : World) (inst : value) :
  instances w !! (namespace, name) = Some inst ->
  well_formed_instance inst = true ->
  status_reachable w ->
  let start := snd (update_prologue name namespace diff w) in
  let applies := apply_updates environ spec name namespace old start in
  let run := update_odoo_instance environ spec name namespace old diff w in
  (forall url w',
     applies = (Ok url, w') ->
     fst run = Ok updated_successfully
     /\ exists inst',
          instances (snd run) !! (namespace, name) = Some inst'
          /\ status_field inst' "phase" = VStr "Running"
          /\ status_field inst' "ready" = VBool true)
  /\ (forall status text w',
        applies = (Raise (ApiException status text), w') ->
        fst run = Raise (PermanentError ("Error updating resources: " ++ text))
        /\ exists inst',
             instances (snd run) !! (namespace, name) = Some inst'
             /\ status_field inst' "phase" = VStr "Failed"
             /\ status_field inst' "message"
                = VStr ("Error updating resources: " ++ text)
             /\ status_field inst' "ready" = status_field inst "ready")
  /\ (forall e w',
        applies = (Raise e, w') ->
        (forall status text, e <> ApiException status text) ->
        fst run = Raise e
        /\ exists inst',
             instances (snd run) !! (namespace, name) = Some inst'
             /\ status_field inst' "phase" = VStr "Updating"
             /\ status_field inst' "ready" = status_field inst "ready")
  /\ (forall status text,
        faults w (S (S (clock w))) (ReadNamespaced ConfigMap)
        = Some (ApiException status text) ->
        status <> 404 ->
        fst run = Raise (PermanentError ("Error updating resources: " ++ text))
        /\ exists inst',
             instances (snd run) !! (namespace, name) = Some inst'
             /\ status_field inst' "phase" = VStr "Failed"
             /\ status_field inst' "message"
                = VStr ("Error updating resources: " ++ text)
             /\ status_field inst' "ready" = status_field inst "ready").
Proof.
  intros Hinst Hwf Hreach start applies run.
  destruct (update_prologue_run name namespace diff w inst Hinst Hwf Hreach)
    as (w2 & Hpro & Hi2 & Hf2 & Hc2).
  assert (Hstart : start = w2) by (subst start; rewrite Hpro; reflexivity).
  subst applies run. rewrite Hstart. clear start Hstart.
  set (P1 := [("phase", VStr "Updating"); ("message", VStr "Updating resources")]) in *.
  destruct (patched_keeps_ready inst P1 Hwf eq_refl eq_refl) as [Hwf1 Hready1].
  set (inst1 := patched inst P1) in *.
  assert (Hinst2 : instances w2 !! (namespace, name) = Some inst1)
    by (rewrite Hi2; apply lookup_insert_eq).
  assert (Hreach2 : status_reachable w2).
  { destruct Hreach as [Hget Hpatch].
    split; intros n; rewrite Hf2; [apply Hget | apply Hpatch]. }
  destruct (update_after_prologue environ spec name namespace old diff w w2 Hpro)
    as (handler & Hcatch & Hpass & ->).
  pose proof (tame_apply_updates environ spec name namespace old) as Htame.
  assert (Hfailed : forall status text w',
             apply_updates environ spec name namespace old w2
             = (Raise (ApiException status text), w') ->
             fst (try_except
                    (bind (apply_updates environ spec name namespace old)
                       (fun url =>
                          patch_status name namespace [
                            ("phase", VStr "Running");
                            ("ready", VBool true);
                            ("url", url);
                            ("message", VStr "Odoo instance updated successfully")] ;;
                          logger INFO ("Successfully updated OdooInstance: " ++ name
                                       ++ " in namespace: " ++ namespace) ;;
                          ret updated_successfully))
                    handler w2)
             = Raise (PermanentError ("Error updating resources: " ++ text))
             /\ exists inst',
                  instances (snd (try_except
                    (bind (apply_updates environ spec name namespace old)
                       (fun url =>
                          patch_status name namespace [
                            ("phase", VStr "Running");
                            ("ready", VBool true);
                            ("url", url);
                            ("message", VStr "Odoo instance updated successfully")] ;;
                          logger INFO ("Successfully updated OdooInstance: " ++ name
                                       ++ " in namespace: " ++ namespace) ;;
                          ret updated_successfully))
                    handler w2)) !! (namespace, name) = Some inst'
                  /\ status_field inst' "phase" = VStr "Failed"
                  /\ status_field inst' "message"
                     = VStr ("Error updating resources: " ++ text)
                  /\ status_field inst' "ready" = status_field inst "ready").
  { intros status text w' Happly.
    destruct (steady_stored _ name namespace inst1 _ _ _ Htame Happly Hinst2 Hreach2)
      as [Hinst' Hreach'].
    rewrite (try_raise _ _ _ _ _ (bind_raise _ _ _ _ _ Happly)).
    rewrite Hcatch. cbv zeta.
    erewrite bind_ok by reflexivity.
    erewrite bind_ok; cycle 1.
    { apply (patch_status_run _ _ _ _ inst1); [exact Hinst' | exact Hwf1 |].
      destruct Hreach' as [Hget Hpatch]. split; intros n; [apply Hget | apply Hpatch]. }
    cbn [raise fst snd set_instances instances].
    split; [reflexivity|].
    eexists. split; [apply lookup_insert_eq|].
    split; [eapply patched_field_written; try exact Hwf1; try reflexivity;
            intros H; discriminate H|].
    split; [eapply patched_field_written; try exact Hwf1; try reflexivity;
            intros H; discriminate H|].
    rewrite <- Hready1.
    apply patched_field_kept; try exact Hwf1; try reflexivity.
    apply well_formed_ready. exact Hwf1. }
  split; [|split; [|split]]; cycle 3.
  - intros status text Hfault Hstatus.
    apply (Hfailed status text (tick w2)).
    unfold apply_updates. apply bind_raise.
    unfold update_config_map. erewrite try_raise; cycle 1.
    { apply bind_raise. unfold read_namespaced, external.
      rewrite Hf2, Hc2, Hfault. reflexivity. }
    cbv beta iota. destruct (status =? 404) eqn:E; [|reflexivity].
    apply Z.eqb_eq in E. contradiction.
  - intros url w' Happly.
    destruct (steady_stored _ name namespace inst1 _ _ _ Htame Happly Hinst2 Hreach2)
      as [Hinst' Hreach'].
    erewrite try_ok; cycle 1.
    { rewrite (bind_ok _ _ _ _ _ Happly).
      erewrite bind_ok; cycle 1.
      { apply (patch_status_run _ _ _ _ inst1); [exact Hinst' | exact Hwf1 | exact Hreach']. }
      reflexivity. }
    cbn [fst snd set_log set_instances instances].
    split; [reflexivity|].
    eexists. split; [apply lookup_insert_eq|].
    split; eapply patched_field_written; try exact Hwf1; try reflexivity;
      intros H; discriminate H.
  - intros status text w' Happly. apply (Hfailed status text w'). exact Happly.
  - intros e w' Happly He.
    destruct (steady_stored _ name namespace inst1 _ _ _ Htame Happly Hinst2 Hreach2)
      as [Hinst' _].
    rewrite (try_raise _ _ _ _ _ (bind_raise _ _ _ _ _ Happly)).
    rewrite (Hpass e He). cbn [fst snd].
    split; [reflexivity|].
    exists inst1. split; [exact Hinst'|].
    split; [|exact Hready1].
    subst inst1. eapply patched_field_written; try exact Hwf; try reflexivity;
      intros H; discriminate H.
Qed.

Lemma update_phase_transitions_witness :
  (exists inst',
     instances (snd (update_odoo_instance no_environ spec_ingress_with_hostname
                       "demo" "default" spec_ingress_with_hostname [] demo_world))
       !! ("default", "demo") = Some inst'
     /\ status_field inst' "phase" = VStr "Running"
     /\ status_field inst' "ready" = VBool true)
  /\ (exists inst',
        instances (snd (update_odoo_instance no_environ spec_ingress_with_hostname
                          "demo" "default" spec_ingress_with_hostname []
                          config_map_read_fails))
          !! ("default", "demo") = Some inst'
        /\ status_field inst' "phase" = VStr "Failed"
        /\ status_field inst' "ready" = VBool false).
Proof.
  split.
  - destruct (update_phase_transitions no_environ spec_ingress_with_hostname
                "demo" "default" spec_ingress_with_hostname [] demo_world demo_instance)
      as (Hok & _).
    + reflexivity.
    + reflexivity.
    + split; intros n; reflexivity.
    + destruct (apply_updates no_environ spec_ingress_with_hostname "demo" "default"
                  spec_ingress_with_hostname
                  (snd (update_prologue "demo" "default" [] demo_world)))
        as [[url|e] w'] eqn:E.
      * destruct (Hok url w' eq_refl) as [_ H]. exact H.
      * exfalso.
        assert (H : fst (apply_updates no_environ spec_ingress_with_hostname "demo" "default"
                           spec_ingress_with_hostname
                           (snd (update_prologue "demo" "default" [] demo_world)))
                    = Ok (VStr "https://app.example.com"))
          by (vm_compute; reflexivity).
        rewrite E in H. discriminate H.
  - destruct (update_phase_transitions no_environ spec_ingress_with_hostname
                "demo" "default" spec_ingress_with_hostname [] config_map_read_fails
                demo_instance)
      as (_ & _ & _ & Hfail).
    + reflexivity.
    + reflexivity.
    + split; intros n; cbn; destruct (n =? 2)%nat; reflexivity.
    + destruct (Hfail 500 "(500) Reason: Internal Server Error")
        as (_ & inst' & Hi & Hphase & _ & Hready).
      * reflexivity.
      * discriminate.
      * exists inst'. split; [exact Hi|]. split; [exact Hphase|].
        rewrite Hready. reflexivity.
Defined.

(** C6 as the specification states it does not hold: with the API
    server answering 503 to every call, the store applies of the update
    fail and the handler raises [PermanentError], but [patch_status]
    only logs the failure of its own calls, so the status is not
    written: the phase is still [Pending] and there is no message. *)
Lemma update_failure_not_recorded :
  let start := snd (update_prologue "demo" "default" [] api_server_down) in
  let run := update_odoo_instance no_environ spec_ingress_with_hostname
               "demo" "default" spec_ingress_with_hostname [] api_server_down in
  fst (apply_updates no_environ spec_ingress_with_hostname "demo" "default"
         spec_ingress_with_hostname start)
  = Raise (ApiException 503 "(503) Reason: Service Unavailable")
  /\ fst run
     = Raise (PermanentError "Error updating resources: (503) Reason: Service Unavailable")
  /\ exists inst',
       instances (snd run) !! ("default", "demo") = Some inst'
       /\ status_field inst' "phase" = VStr "Pending"
       /\ status_field inst' "phase" <> VStr "Failed"
       /\ status_field inst' "message" = VNone.
Proof.
  cbv zeta. split; [vm_compute; reflexivity|]. split; [vm_compute; reflexivity|].
  exists demo_instance. split; [vm_compute; reflexivity|].
  split; [reflexivity|]. split; [intros H; discriminate H | reflexivity].
Qed.

(** ** Generated passwords *)

Lemma get_in_range (s : string) : forall i,
  (i < String.length s)%nat ->
  exists c, String.get i s = Some c /\ In c (list_ascii_of_string s).
Proof.
  induction s as [|a s IH]; intros i Hi; cbn in Hi; [lia|].
  destruct i as [|i]; cbn.
  - exists a. split; [reflexivity | left; reflexivity].
  - destruct (IH i) as (c & Hc & Hin); [lia|].
    exists c. split; [exact Hc | right; exact Hin].
Qed.

Lemma random_choice_run alphabet w :
  (0 < String.length alphabet)%nat ->
  exists c,
    random_choice alphabet w = (Ok (String c EmptyString), set_entropy (fun l => tl l) w)
    /\ In c (list_ascii_of_string alphabet).
Proof.
  intros Hlen. unfold random_choice.
  set (n := match entropy w with x :: _ => x | [] => O end).
  destruct (get_in_range alphabet (n mod String.length alphabet)) as (c & Hc & Hin).
  - apply Nat.mod_upper_bound. lia.
  - exists c. rewrite Hc. split; [reflexivity | exact Hin].
Qed.

Lemma random_string_run alphabet (Hlen : (0 < String.length alphabet)%nat) n : forall w,
  exists p,
    random_string alphabet n w = (Ok p, set_entropy (fun l => skipn n l) w)
    /\ String.length p = n
    /\ Forall (fun c => In c (list_ascii_of_string alphabet)) (list_ascii_of_string p).
Proof.
  induction n as [|n IH]; intros w.
  - exists EmptyString. cbn. split; [destruct w; reflexivity|]. split; [reflexivity | constructor].
  - destruct (random_choice_run alphabet w Hlen) as (c & Hc & Hin).
    destruct (IH (set_entropy (fun l => tl l) w)) as (p & Hp & Hl & Hall).
    exists (String c p). cbn [random_string]. unfold bind at 1. rewrite Hc.
    unfold bind at 1. rewrite Hp. unfold ret. split; [|split].
    + f_equal. destruct w as [? ? ? ? ? ? en ? ? ? ?]. unfold set_entropy; cbn.
      f_equal. destruct en; cbn; [destruct n|]; reflexivity.
    + cbn. rewrite Hl. reflexivity.
    + cbn. constructor; assumption.
Qed.

(** A generated password has sixteen characters, each a letter or a
    digit, whatever the random source yields; drawing it consumes
    sixteen draws of the source and changes nothing else. *)
Theorem generate_db_password_shape (w : World) :
  exists p,
    generate_db_password w = (Ok p, set_entropy (fun l => skipn 16 l) w)
    /\ String.length p = 16%nat
    /\ Forall (fun c => In c (list_ascii_of_string (ascii_letters ++ digits)))
         (list_ascii_of_string p).
Proof.
  unfold generate_db_password. apply random_string_run.
  apply Nat.ltb_lt. reflexivity.
Qed.

(** ** Admission without resource limits *)




(** ** The defaulting pass *)

Lemma set_heap_id l v w : heap w !! l = Some v -> set_heap (insert l v) w = w.
Proof.
  intros H. destruct w; unfold set_heap; cbn in *. f_equal. apply insert_id. exact H.
Qed.

Lemma set_heap_twice l v v' w :
  set_heap (insert l v') (set_heap (insert l v) w) = set_heap (insert l v') w.
Proof. destruct w; unfold set_heap; cbn. f_equal. apply insert_insert_eq. Qed.

Lemma heap_set_heap l v w : heap (set_heap (insert l v) w) !! l = Some v.
Proof. destruct w; cbn. apply lookup_insert_eq. Qed.

Lemma ensure_lookup k x d k' :
  dict_lookup k' (ensure k x d)
  = if String.eqb k' k then Some (dict_get d k x) else dict_lookup k' d.
Proof.
  unfold ensure, dict_has, dict_get.
  destruct (String.eqb k' k) eqn:E.
  - apply String.eqb_eq in E. subst k'.
    destruct (dict_lookup k d) eqn:L; [exact L | apply dict_lookup_set_eq].
  - apply String.eqb_neq in E.
    destruct (dict_lookup k d); [reflexivity | apply dict_lookup_set_ne; exact E].
Qed.

(** One [if k not in obj: obj[k] = x] of the pass, for the object at
    [path] inside the object at [l]. *)
Lemma ensure_step {A} l path k x (K : unit -> M A) w v od v' :
  heap w !! l = Some v ->
  resolve v path = Ok (VDict od) ->
  (if dict_has k od then Ok v else setitem_at v path k x) = Ok v' ->
  bind (contains l path k)
    (fun has => bind (if negb has then setitem l path k x else ret tt) K) w
  = K tt (set_heap (insert l v') w).
Proof.
  intros Hheap Hres Hset.
  unfold bind at 1, contains, bind at 1, deref. rewrite Hheap.
  unfold bind at 1, lift. rewrite Hres. cbn [py_in].
  destruct (dict_has k od); cbn [negb].
  - injection Hset as <-. unfold bind, ret. rewrite set_heap_id by exact Hheap. reflexivity.
  - unfold bind at 1, setitem, bind at 1, deref. rewrite Hheap.
    unfold bind at 1, lift. rewrite Hset. reflexivity.
Qed.

Lemma getitem_step {A} l path k (K : list string -> M A) w v obj :
  heap w !! l = Some v ->
  resolve v (path ++ [k]) = Ok obj ->
  bind (getitem l path k) K w = K (path ++ [k])%list w.
Proof.
  intros Hheap Hres. unfold bind at 1, getitem, bind at 1, deref. rewrite Hheap.
  unfold bind at 1, lift. rewrite Hres. reflexivity.
Qed.

Lemma ensure_in_spec i sd k x :
  dict_lookup "spec" i = Some (VDict sd) ->
  exists i',
    (if dict_has k sd then Ok (VDict i) else setitem_at (VDict i) ["spec"] k x)
    = Ok (VDict i')
    /\ dict_lookup "spec" i' = Some (VDict (ensure k x sd))
    /\ (forall k', k' <> "spec" -> dict_lookup k' i' = dict_lookup k' i).
Proof.
  intros Hspec. unfold ensure. destruct (dict_has k sd).
  - exists i. split; [reflexivity|]. split; [exact Hspec | reflexivity].
  - exists (dict_set "spec" (VDict (dict_set k x sd)) i). cbn. rewrite Hspec.
    split; [reflexivity|]. split; [apply dict_lookup_set_eq|].
    intros k' Hne. apply dict_lookup_set_ne. exact Hne.
Qed.

Lemma ensure_in_ingress i sd g k x :
  dict_lookup "spec" i = Some (VDict sd) ->
  dict_lookup "ingress" sd = Some (VDict g) ->
  exists i' sd',
    (if dict_has k g then Ok (VDict i) else setitem_at (VDict i) ["spec"; "ingress"] k x)
    = Ok (VDict i')
    /\ dict_lookup "spec" i' = Some (VDict sd')
    /\ dict_lookup "ingress" sd' = Some (VDict (ensure k x g))
    /\ (forall k', k' <> "ingress" -> dict_lookup k' sd' = dict_lookup k' sd)
    /\ (forall k', k' <> "spec" -> dict_lookup k' i' = dict_lookup k' i).
Proof.
  intros Hspec Hing. unfold ensure. destruct (dict_has k g).
  - exists i, sd. split; [reflexivity|]. split; [exact Hspec|].
    split; [exact Hing|]. split; reflexivity.
  - exists (dict_set "spec" (VDict (dict_set "ingress" (VDict (dict_set k x g)) sd)) i),
      (dict_set "ingress" (VDict (dict_set k x g)) sd).
    cbn. rewrite Hspec. cbn. rewrite Hing. cbn.
    split; [reflexivity|]. split; [apply dict_lookup_set_eq|].
    split; [apply dict_lookup_set_eq|].
    split; intros k' Hne; apply dict_lookup_set_ne; exact Hne.
Qed.

(** The pass as one step on the heap: the object at [l] is replaced by
    one whose specification has every default in place and is otherwise
    what it was. *)
Lemma mutate_run (l : nat) (i sd g : dict) (w : World) :
  heap w !! l = Some (VDict i) ->
  dict_get i "spec" (VDict []) = VDict sd ->
  dict_get sd "ingress" (VDict []) = VDict g ->
  exists i' sd' g',
    mutate_odoo_instance l w = (Ok l, set_heap (insert l (VDict i')) w)
    /\ dict_lookup "spec" i' = Some (VDict sd')
    /\ dict_lookup "replicas" sd' = Some (dict_get sd "replicas" (VInt 1))
    /\ dict_lookup "ingress" sd' = Some (VDict g')
    /\ dict_lookup "tls" g' = Some (dict_get g "tls" (VBool true))
    /\ dict_lookup "resources" sd' = Some (dict_get sd "resources" standard_resources)
    /\ (forall k, k <> "tls" -> dict_lookup k g' = dict_lookup k g)
    /\ (forall k, k <> "replicas" -> k <> "ingress" -> k <> "resources" ->
                  dict_lookup k sd' = dict_lookup k sd)
    /\ (forall k, k <> "spec" -> dict_lookup k i' = dict_lookup k i).
Proof.
  intros Hheap Hspec Hing.
  (* the specification itself *)
  set (i1 := ensure "spec" (VDict []) i).
  assert (H1 : dict_lookup "spec" i1 = Some (VDict sd)).
  { subst i1. rewrite ensure_lookup. cbn. rewrite Hspec. reflexivity. }
  assert (F1 : forall k, k <> "spec" -> dict_lookup k i1 = dict_lookup k i).
  { intros k Hne. subst i1. rewrite ensure_lookup.
    apply String.eqb_neq in Hne. rewrite Hne. reflexivity. }
  (* replicas *)
  destruct (ensure_in_spec i1 sd "replicas" (VInt 1) H1) as (i2 & S2 & H2 & F2).
  (* ingress *)
  destruct (ensure_in_spec i2 _ "ingress" (VDict []) H2) as (i3 & S3 & H3 & F3).
  set (sd3 := ensure "ingress" (VDict []) (ensure "replicas" (VInt 1) sd)) in *.
  assert (G3 : dict_lookup "ingress" sd3 = Some (VDict g)).
  { subst sd3. rewrite !ensure_lookup. cbn.
    unfold dict_get at 1. rewrite ensure_lookup. cbn. exact (f_equal Some Hing). }
  (* tls *)
  destruct (ensure_in_ingress i3 sd3 g "tls" (VBool true) H3 G3)
    as (i4 & sd4 & S4 & H4 & G4 & E4 & F4).
  (* resources *)
  destruct (ensure_in_spec i4 sd4 "resources" standard_resources H4) as (i5 & S5 & H5 & F5).
  exists i5, (ensure "resources" standard_resources sd4), (ensure "tls" (VBool true) g).
  split.
  - unfold mutate_odoo_instance.
    rewrite (ensure_step l [] "spec" (VDict []) _ w (VDict i) i (VDict i1) Hheap eq_refl)
      by (subst i1; unfold ensure; destruct (dict_has "spec" i); reflexivity).
    rewrite (getitem_step l [] "spec" _ _ (VDict i1) (VDict sd) (heap_set_heap _ _ _))
      by (cbn; rewrite H1; reflexivity).
    cbn [app].
    rewrite (ensure_step l ["spec"] "replicas" (VInt 1) _ _ (VDict i1) sd (VDict i2)
               (heap_set_heap _ _ _))
      by (try exact S2; cbn; rewrite H1; reflexivity).
    rewrite set_heap_twice.
    rewrite (ensure_step l ["spec"] "ingress" (VDict []) _ _ (VDict i2) _ (VDict i3)
               (heap_set_heap _ _ _))
      by (try exact S3; cbn; rewrite H2; reflexivity).
    rewrite set_heap_twice.
    rewrite (getitem_step l ["spec"] "ingress" _ _ (VDict i3) (VDict g) (heap_set_heap _ _ _))
      by (cbn; rewrite H3; cbn; fold sd3; rewrite G3; reflexivity).
    cbn [app].
    rewrite (ensure_step l ["spec"; "ingress"] "tls" (VBool true) _ _ (VDict i3) g (VDict i4)
               (heap_set_heap _ _ _))
      by (try exact S4; cbn; rewrite H3; cbn; fold sd3; rewrite G3; reflexivity).
    rewrite set_heap_twice.
    rewrite (ensure_step l ["spec"] "resources" standard_resources _ _ (VDict i4) sd4 (VDict i5)
               (heap_set_heap _ _ _))
      by (try exact S5; cbn; rewrite H4; reflexivity).
    rewrite set_heap_twice. reflexivity.
  - split; [exact H5|].
    assert (R4 : forall k, k <> "ingress" ->
                   dict_lookup k sd4
                   = if String.eqb k "replicas" then Some (dict_get sd "replicas" (VInt 1))
                     else dict_lookup k sd).
    { intros k Hne. rewrite (E4 k Hne). subst sd3. rewrite ensure_lookup.
      apply String.eqb_neq in Hne. rewrite Hne. apply ensure_lookup. }
    split.
    { rewrite ensure_lookup. cbn. apply R4. discriminate. }
    split.
    { rewrite ensure_lookup. cbn. exact G4. }
    split.
    { rewrite ensure_lookup. cbn. reflexivity. }
    split.
    { rewrite ensure_lookup. cbn. unfold dict_get at 1.
      rewrite R4 by discriminate. cbn. reflexivity. }
    split.
    { intros k Hne. rewrite ensure_lookup. apply String.eqb_neq in Hne. rewrite Hne.
      reflexivity. }
    split.
    { intros k Hrep Hingr Hres. rewrite ensure_lookup.
      apply String.eqb_neq in Hres. rewrite Hres. rewrite (R4 k Hingr).
      apply String.eqb_neq in Hrep. rewrite Hrep. reflexivity. }
    intros k Hne. rewrite (F5 k Hne), (F4 k Hne), (F3 k Hne), (F2 k Hne). apply F1. exact Hne.
Qed.

Lemma mutate_noop (l : nat) (i sd g : dict) (w : World) :
  heap w !! l = Some (VDict i) ->
  dict_lookup "spec" i = Some (VDict sd) ->
  dict_has "replicas" sd = true ->
  dict_lookup "ingress" sd = Some (VDict g) ->
  dict_has "tls" g = true ->
  dict_has "resources" sd = true ->
  mutate_odoo_instance l w = (Ok l, w).
Proof.
  intros Hheap Hspec Hrep Hing Htls Hres.
  assert (Hhas : dict_has "spec" i = true) by (unfold dict_has; rewrite Hspec; reflexivity).
  assert (Hhas' : dict_has "ingress" sd = true) by (unfold dict_has; rewrite Hing; reflexivity).
  unfold mutate_odoo_instance.
  rewrite (ensure_step l [] "spec" (VDict []) _ w (VDict i) i (VDict i) Hheap eq_refl)
    by (rewrite Hhas; reflexivity).
  rewrite (set_heap_id _ _ _ Hheap).
  rewrite (getitem_step l [] "spec" _ _ (VDict i) (VDict sd) Hheap)
    by (cbn; rewrite Hspec; reflexivity).
  cbn [app].
  rewrite (ensure_step l ["spec"] "replicas" (VInt 1) _ _ (VDict i) sd (VDict i) Hheap)
    by (try (rewrite Hrep; reflexivity); cbn; rewrite Hspec; reflexivity).
  rewrite (set_heap_id _ _ _ Hheap).
  rewrite (ensure_step l ["spec"] "ingress" (VDict []) _ _ (VDict i) sd (VDict i) Hheap)
    by (try (rewrite Hhas'; reflexivity); cbn; rewrite Hspec; reflexivity).
  rewrite (set_heap_id _ _ _ Hheap).
  rewrite (getitem_step l ["spec"] "ingress" _ _ (VDict i) (VDict g) Hheap)
    by (cbn; rewrite Hspec; cbn; rewrite Hing; reflexivity).
  cbn [app].
  rewrite (ensure_step l ["spec"; "ingress"] "tls" (VBool true) _ _ (VDict i) g (VDict i) Hheap)
    by (try (rewrite Htls; reflexivity); cbn; rewrite Hspec; cbn; rewrite Hing; reflexivity).
  rewrite (set_heap_id _ _ _ Hheap).
  rewrite (ensure_step l ["spec"] "resources" standard_resources _ _ (VDict i) sd (VDict i) Hheap)
    by (try (rewrite Hres; reflexivity); cbn; rewrite Hspec; reflexivity).
  rewrite (set_heap_id _ _ _ Hheap). reflexivity.
Qed.

(** The defaulting pass, on an admission object whose specification and
    ingress block are dictionaries when present: it returns the object
    it was given, now with [replicas], [ingress.tls] and [resources] in
    place, each with the value it had or else with its default (1,
    [true], the standard block), and with every other field of the
    object, of its specification and of its ingress block as before. *)
Theorem mutate_fills_defaults (l : nat) (i sd g : dict) (w : World) :
  heap w !! l = Some (VDict i) ->
  dict_get i "spec" (VDict []) = VDict sd ->
  dict_get sd "ingress" (VDict []) = VDict g ->
  let run := mutate_odoo_instance l w in
  fst run = Ok l
  /\ exists i' sd' g',
       heap (snd run) !! l = Some (VDict i')
       /\ dict_lookup "spec" i' = Some (VDict sd')
       /\ dict_lookup "replicas" sd' = Some (dict_get sd "replicas" (VInt 1))
       /\ dict_lookup "ingress" sd' = Some (VDict g')
       /\ dict_lookup "tls" g' = Some (dict_get g "tls" (VBool true))
       /\ dict_lookup "resources" sd' = Some (dict_get sd "resources" standard_resources)
       /\ (forall k, k <> "tls" -> dict_lookup k g' = dict_lookup k g)
       /\ (forall k, k <> "replicas" -> k <> "ingress" -> k <> "resources" ->
                     dict_lookup k sd' = dict_lookup k sd)
       /\ (forall k, k <> "spec" -> dict_lookup k i' = dict_lookup k i).
Proof.
  intros Hheap Hspec Hing run.
  destruct (mutate_run l i sd g w Hheap Hspec Hing) as (i' & sd' & g' & Hrun & H).
  subst run. rewrite Hrun. split; [reflexivity|].
  exists i', sd', g'. split; [apply heap_set_heap | exact H].
Qed.

Lemma mutate_fills_defaults_witness :
  let run := mutate_odoo_instance 0 (set_heap (insert 0%nat instance_minimal) bare_world) in
  fst run = Ok 0%nat
  /\ exists i' sd' g',
       heap (snd run) !! 0%nat = Some (VDict i')
       /\ dict_lookup "spec" i' = Some (VDict sd')
       /\ dict_lookup "version" sd' = Some (VStr "17.0")
       /\ dict_lookup "replicas" sd' = Some (VInt 1)
       /\ dict_lookup "ingress" sd' = Some (VDict g')
       /\ dict_lookup "tls" g' = Some (VBool true)
       /\ dict_lookup "resources" sd' = Some standard_resources.
Proof.
  destruct (mutate_fills_defaults 0
              [("apiVersion", VStr "odoo.bemade.org/v1");
               ("kind", VStr "OdooInstance");
               ("metadata", VDict [("name", VStr "demo"); ("namespace", VStr "default")]);
               ("spec", VDict [("version", VStr "17.0")])]
              [("version", VStr "17.0")] []
              (set_heap (insert 0%nat instance_minimal) bare_world))
    as (Hfst & i' & sd' & g' & Hheap & Hspec & Hrep & Hing & Htls & Hres & _ & Hkeep & _).
  - reflexivity.
  - reflexivity.
  - reflexivity.
  - split; [exact Hfst|]. exists i', sd', g'.
    split; [exact Hheap|]. split; [exact Hspec|].
    split; [rewrite Hkeep by discriminate; reflexivity|].
    split; [exact Hrep|]. split; [exact Hing|]. split; [exact Htls | exact Hres].
Defined.

(** The defaulting pass is idempotent: run on its own result, it
    returns the same object and changes nothing. *)
Theorem mutate_is_idempotent (l : nat) (i sd g : dict) (w : World) :
  heap w !! l = Some (VDict i) ->
  dict_get i "spec" (VDict []) = VDict sd ->
  dict_get sd "ingress" (VDict []) = VDict g ->
  let w' := snd (mutate_odoo_instance l w) in
  mutate_odoo_instance l w' = (Ok l, w').
Proof.
  intros Hheap Hspec Hing w'.
  destruct (mutate_run l i sd g w Hheap Hspec Hing)
    as (i' & sd' & g' & Hrun & Hs & Hrep & Hi & Htls & Hres & _).
  subst w'. rewrite Hrun. cbn [snd].
  apply (mutate_noop l i' sd' g').
  - apply heap_set_heap.
  - exact Hs.
  - unfold dict_has. rewrite Hrep. reflexivity.
  - exact Hi.
  - unfold dict_has. rewrite Htls. reflexivity.
  - unfold dict_has. rewrite Hres. reflexivity.
Qed.

Lemma mutate_is_idempotent_witness :
  let w' := snd (mutate_odoo_instance 0
                   (set_heap (insert 0%nat instance_minimal) bare_world)) in
  mutate_odoo_instance 0 w' = (Ok 0%nat, w').
Proof.
  apply (mutate_is_idempotent 0
           [("apiVersion", VStr "odoo.bemade.org/v1");
            ("kind", VStr "OdooInstance");
            ("metadata", VDict [("name", VStr "demo"); ("namespace", VStr "default")]);
            ("spec", VDict [("version", VStr "17.0")])]
           [("version", VStr "17.0")] []);
    reflexivity.
Defined.

(** ** Provisioning and clean-up of the database *)

Lemma external_calm {A} ep (usual : M A) w :
  calm w -> external ep usual w = usual (tick w).
Proof. intros H. unfold external. rewrite H. reflexivity. Qed.

Lemma same_database_refl w : same_database w w.
Proof. repeat split. Qed.

Lemma same_database_trans w1 w2 w3 :
  same_database w1 w2 -> same_database w2 w3 -> same_database w1 w3.
Proof.
  intros (A1 & A2 & A3 & A4 & A5 & A6) (B1 & B2 & B3 & B4 & B5 & B6).
  repeat split; congruence.
Qed.

Lemma keeps_ret {A} (a : A) : keeps_database (ret a).
Proof. intros w. apply same_database_refl. Qed.

Lemma keeps_raise {A} e : keeps_database (@raise A e).
Proof. intros w. apply same_database_refl. Qed.

Lemma keeps_lift {A} (r : Result A) : keeps_database (lift r).
Proof. intros w. apply same_database_refl. Qed.

Lemma keeps_logger lvl msg : keeps_database (logger lvl msg).
Proof. intros w. repeat split. Qed.

Lemma keeps_bind {A B} (m : M A) (f : A -> M B) :
  keeps_database m -> (forall a, keeps_database (f a)) -> keeps_database (bind m f).
Proof.
  intros Hm Hf w. unfold bind. specialize (Hm w).
  destruct (m w) as [[a|e] w1]; cbn [snd] in *; [|exact Hm].
  eapply same_database_trans; [exact Hm | apply Hf].
Qed.

Lemma keeps_try {A} (body : M A) handler :
  keeps_database body ->
  (forall e h, handler e = Some h -> keeps_database h) ->
  keeps_database (try_except body handler).
Proof.
  intros Hb Hh w. unfold try_except. specialize (Hb w).
  destruct (body w) as [[a|e] w1]; cbn [snd] in *; [exact Hb|].
  destruct (handler e) as [h|] eqn:E; [|exact Hb].
  eapply same_database_trans; [exact Hb | apply (Hh e h E)].
Qed.

Lemma keeps_external {A} ep (usual : M A) :
  keeps_database usual -> keeps_database (external ep usual).
Proof.
  intros Hu w. unfold external.
  destruct (faults w (clock w) ep); [repeat split|].
  eapply same_database_trans; [|apply Hu]. repeat split.
Qed.

Lemma keeps_read_namespaced k name namespace :
  keeps_database (read_namespaced k name namespace).
Proof.
  apply keeps_external. intros w. destruct (cluster w !! _); apply same_database_refl.
Qed.

Lemma keeps_create_namespaced k namespace body :
  keeps_database (create_namespaced k namespace body).
Proof.
  apply keeps_external. intros w.
  destruct (metadata_name body); [|apply same_database_refl].
  destruct (cluster w !! _); repeat split.
Qed.

Lemma keeps_owner_references name namespace :
  keeps_database (owner_references name namespace).
Proof.
  unfold owner_references. apply keeps_bind.
  - apply keeps_external. intros w. destruct (instances w !! _); apply same_database_refl.
  - intros obj. apply keeps_bind; [apply keeps_lift|]. intros md.
    apply keeps_bind; [apply keeps_lift|]. intros uid. apply keeps_ret.
Qed.

Lemma keeps_read_admin_password environ namespace :
  keeps_database (read_admin_password environ namespace).
Proof.
  unfold read_admin_password. apply keeps_try.
  - apply keeps_bind; [apply keeps_read_namespaced|]. intros secret.
    apply keeps_bind; [apply keeps_lift|]. intros data.
    apply keeps_bind; [apply keeps_lift|]. intros encoded.
    destruct encoded; try apply keeps_raise.
    apply keeps_bind; [apply keeps_lift|]. intros raw. apply keeps_lift.
  - intros e h. destruct e; try discriminate. intros H. injection H as <-.
    apply keeps_bind; [apply keeps_logger|]. intros _. apply keeps_raise.
Qed.

Lemma keeps_create_db_credentials_secret environ name namespace db_user db_password db_name :
  keeps_database
    (create_db_credentials_secret environ name namespace db_user db_password db_name).
Proof.
  unfold create_db_credentials_secret.
  apply keeps_bind; [apply keeps_owner_references|]. intros owner.
  apply keeps_try.
  - apply keeps_bind; [apply keeps_create_namespaced|]. intros _. apply keeps_logger.
  - intros e h. destruct e; try discriminate. intros H. injection H as <-.
    destruct (status =? 409); [apply keeps_logger | apply keeps_raise].
Qed.

(** In a world without scheduled failures, where the owner is known,
    writing the credentials secret succeeds: the secret is created or it
    is there already. *)
Lemma create_db_credentials_secret_ok environ name namespace db_user db_password db_name w :
  calm w ->
  owner_known name namespace w ->
  fst (create_db_credentials_secret environ name namespace db_user db_password db_name w)
  = Ok tt.
Proof.
  intros Hcalm Hown. unfold create_db_credentials_secret.
  destruct (owner_references_run name namespace w Hown (Hcalm _ _)) as [owner Ho].
  unfold bind at 1. rewrite Ho.
  unfold try_except, bind at 1, create_namespaced.
  rewrite external_calm by (intros n ep; apply Hcalm).
  cbn [metadata_name dict_lookup String.eqb Ascii.eqb Bool.eqb].
  cbv zeta. cbn -[b64 String.append].
  destruct (cluster w !! _); reflexivity.
Qed.

Lemma calm_same_database w w' : same_database w w' -> calm w -> calm w'.
Proof. intros (_ & _ & _ & _ & Hf & _) H n ep. rewrite Hf. apply H. Qed.

Lemma owner_known_same_database name namespace w w' :
  same_database w w' -> owner_known name namespace w -> owner_known name namespace w'.
Proof.
  intros (_ & _ & _ & Hi & _) (obj & uid & Hobj & Huid).
  exists obj, uid. rewrite Hi. split; assumption.
Qed.

Lemma role_step u p m1 m2 w :
  calm w ->
  exists w',
    (forall A (K : unit -> M A),
       bind (pg_role_exists u)
         (fun user_exists =>
            bind (if negb user_exists
                  then bind (pg_create_user u p) (fun _ => logger INFO m1)
                  else bind (pg_alter_user_password u p) (fun _ => logger INFO m2)) K) w
       = K tt w')
    /\ pg_roles w' = <[u := p]> (pg_roles w)
    /\ pg_databases w' = pg_databases w
    /\ same_database (set_pg_roles (fun _ => pg_roles w') w) w'.
Proof.
  intros Hcalm. unfold pg_role_exists, pg_create_user, pg_alter_user_password.
  destruct (pg_roles w !! u) as [old|] eqn:E.
  - eexists. split; [|split; [|split]].
    + intros A K. unfold bind at 1. rewrite external_calm by exact Hcalm.
      cbn [pg_roles tick]. rewrite E.
      replace (bool_decide (is_Some (Some old))) with true
        by (symmetry; apply bool_decide_eq_true; eexists; reflexivity).
      cbn [negb]. unfold bind at 1, bind at 1.
      rewrite external_calm by (intros n ep; apply Hcalm).
      cbn [pg_roles tick]. rewrite E. unfold logger. reflexivity.
    + reflexivity.
    + reflexivity.
    + repeat split.
  - eexists. split; [|split; [|split]].
    + intros A K. unfold bind at 1. rewrite external_calm by exact Hcalm.
      cbn [pg_roles tick]. rewrite E.
      replace (bool_decide (is_Some (@None string))) with false
        by (symmetry; apply bool_decide_eq_false; intros [x Hx]; discriminate Hx).
      cbn [negb]. unfold bind at 1, bind at 1.
      rewrite external_calm by (intros n ep; apply Hcalm).
      cbn [pg_roles tick]. rewrite E. unfold logger. reflexivity.
    + reflexivity.
    + reflexivity.
    + repeat split.
Qed.

Lemma database_step d u m1 m2 w :
  calm w ->
  is_Some (pg_roles w !! u) ->
  exists w',
    (forall A (K : unit -> M A),
       bind (pg_database_exists d)
         (fun database_exists =>
            bind (if negb database_exists
                  then bind (pg_create_database d u) (fun _ => logger INFO m1)
                  else bind (pg_alter_database_owner d u) (fun _ => logger INFO m2)) K) w
       = K tt w')
    /\ pg_roles w' = pg_roles w
    /\ pg_databases w' = <[d := u]> (pg_databases w)
    /\ same_database (set_pg_databases (fun _ => pg_databases w') w) w'.
Proof.
  intros Hcalm [pw Hrole].
  unfold pg_database_exists, pg_create_database, pg_alter_database_owner.
  destruct (pg_databases w !! d) as [old|] eqn:E.
  - eexists. split; [|split; [|split]].
    + intros A K. unfold bind at 1. rewrite external_calm by exact Hcalm.
      cbn [pg_databases tick]. rewrite E.
      replace (bool_decide (is_Some (Some old))) with true
        by (symmetry; apply bool_decide_eq_true; eexists; reflexivity).
      cbn [negb]. unfold bind at 1, bind at 1.
      rewrite external_calm by (intros n ep; apply Hcalm).
      cbn [pg_databases pg_roles tick]. rewrite E, Hrole. unfold logger. reflexivity.
    + reflexivity.
    + reflexivity.
    + repeat split.
  - eexists. split; [|split; [|split]].
    + intros A K. unfold bind at 1. rewrite external_calm by exact Hcalm.
      cbn [pg_databases tick]. rewrite E.
      replace (bool_decide (is_Some (@None string))) with false
        by (symmetry; apply bool_decide_eq_false; intros [x Hx]; discriminate Hx).
      cbn [negb]. unfold bind at 1, bind at 1.
      rewrite external_calm by (intros n ep; apply Hcalm).
      cbn [pg_databases pg_roles tick]. rewrite E, Hrole. unfold logger. reflexivity.
    + reflexivity.
    + reflexivity.
    + repeat split.
Qed.

(** Provisioning, in a world without scheduled failures where the
    PostgreSQL client is installed, the administrator password can be
    read and the instance is in the store: the call returns the role,
    the password and the database; afterwards the role has the password
    given and the database belongs to the role, whether or not either
    existed before; no other role or database is touched. *)
Theorem create_database_user_provisions
  (environ : string -> option string) (name namespace password admin : string) (w : World) :
  calm w ->
  installed w "psycopg2" = true ->
  fst (read_admin_password environ namespace w) = Ok admin ->
  owner_known name namespace w ->
  let db_user := generate_db_username name namespace in
  let db_name := generate_db_name name namespace in
  let run := create_database_user environ name namespace (Some password) w in
  fst run = Ok (db_user, password, db_name)
  /\ pg_roles (snd run) = <[db_user := password]> (pg_roles w)
  /\ pg_databases (snd run) = <[db_name := db_user]> (pg_databases w).
Proof.
  intros Hcalm Hinst Hadmin Hown db_user db_name run.
  subst run. unfold create_database_user. fold db_user db_name.
  rewrite (bind_ok (ret password) _ w password w eq_refl).
  assert (Himp : forall h, try_except (import_module "psycopg2") h w = (Ok tt, w)).
  { intros h. unfold try_except, import_module. rewrite Hinst. reflexivity. }
  rewrite (bind_ok _ _ w tt w (Himp _)).
  pose proof (keeps_read_admin_password environ namespace w) as Hsame.
  destruct (read_admin_password environ namespace w) as [r w1] eqn:Hread.
  cbn [fst snd] in Hadmin, Hsame. subst r.
  rewrite (bind_ok _ _ w admin w1 Hread).
  pose proof (calm_same_database _ _ Hsame Hcalm) as Hcalm1.
  pose proof (owner_known_same_database _ _ _ _ Hsame Hown) as Hown1.
  destruct Hsame as (Hroles & Hdbs & _).
  rewrite <- Hroles, <- Hdbs. clear Hroles Hdbs Hread Himp Hinst Hcalm Hown.
  unfold try_except.
  assert (Hconn : psycopg2_connect (DB_HOST environ) (DB_PORT environ)
                    (DB_ADMIN_USER environ) admin "postgres" w1 = (Ok tt, tick w1)).
  { unfold psycopg2_connect. rewrite external_calm by exact Hcalm1. reflexivity. }
  rewrite (bind_ok _ _ w1 tt (tick w1) Hconn).
  assert (Hcalm2 : calm (tick w1)) by (intros n ep; apply Hcalm1).
  destruct (role_step db_user password
              ("Created database user " ++ db_user)
              ("Updated password for database user " ++ db_user) (tick w1) Hcalm2)
    as (w3 & Hrole & Hroles3 & Hdbs3 & Hsame3).
  rewrite Hrole.
  assert (Hcalm3 : calm w3).
  { apply (calm_same_database _ _ Hsame3). intros n ep. apply Hcalm1. }
  assert (Hhas : is_Some (pg_roles w3 !! db_user)).
  { rewrite Hroles3. cbn [pg_roles tick]. rewrite lookup_insert_eq. eexists. reflexivity. }
  destruct (database_step db_name db_user
              ("Created database " ++ db_name ++ " owned by " ++ db_user)
              ("Updated owner of database " ++ db_name ++ " to " ++ db_user) w3 Hcalm3 Hhas)
    as (w4 & Hdb & Hroles4 & Hdbs4 & Hsame4).
  rewrite Hdb.
  assert (Hcalm4 : calm w4) by (apply (calm_same_database _ _ Hsame4); exact Hcalm3).
  assert (Hown4 : owner_known name namespace w4).
  { apply (owner_known_same_database _ _ _ _ Hsame4).
    apply (owner_known_same_database _ _ _ _ Hsame3). exact Hown1. }
  pose proof (create_db_credentials_secret_ok environ name namespace db_user password
                (Some db_name) w4 Hcalm4 Hown4) as Hsec.
  pose proof (keeps_create_db_credentials_secret environ name namespace db_user password
                (Some db_name) w4) as Hkeep.
  destruct (create_db_credentials_secret environ name namespace db_user password
              (Some db_name) w4) as [r w5] eqn:Hrun.
  cbn [fst snd] in Hsec, Hkeep. subst r.
  rewrite (bind_ok _ _ w4 tt w5 Hrun). unfold ret. cbn [fst snd].
  destruct Hkeep as (Hroles5 & Hdbs5 & _).
  split; [reflexivity|]. split.
  - rewrite Hroles5, Hroles4, Hroles3. reflexivity.
  - rewrite Hdbs5, Hdbs4, Hdbs3. reflexivity.
Qed.

Lemma create_database_user_provisions_witness :
  let run := create_database_user no_environ "demo" "default" (Some "first") demo_world in
  fst run = Ok ("odoo_user_default_demo", "first", "odoo_default_demo")
  /\ pg_roles (snd run) !! "odoo_user_default_demo" = Some "first"
  /\ pg_databases (snd run) !! "odoo_default_demo" = Some "odoo_user_default_demo".
Proof.
  destruct (create_database_user_provisions no_environ "demo" "default" "first" "s3cret"
              demo_world)
    as (Hfst & Hroles & Hdbs).
  - intros n ep. reflexivity.
  - reflexivity.
  - vm_compute. reflexivity.
  - exists demo_instance, (VStr "7d3c2a9e"). split; vm_compute; reflexivity.
  - split; [exact Hfst|]. split.
    + rewrite Hroles. apply lookup_insert_eq.
    + rewrite Hdbs. apply lookup_insert_eq.
Defined.

Lemma read_admin_password_logged environ namespace f w :
  fst (read_admin_password environ namespace (set_log f w))
  = fst (read_admin_password environ namespace w).
Proof.
  unfold read_admin_password, try_except, bind, read_namespaced, external, lift, raise, logger.
  cbn [faults clock set_log cluster tick].
  destruct (faults w (clock w) (ReadNamespaced Secret)) as [e|].
  - destruct e; reflexivity.
  - destruct (cluster w !! _) as [secret|]; [|reflexivity].
    destruct (py_attr secret "data") as [data|e]; [|destruct e; reflexivity].
    destruct (subscript data _) as [encoded|e]; [|destruct e; reflexivity].
    destruct encoded; try reflexivity.
    destruct (b64decode s) as [raw|e]; [|destruct e; reflexivity].
    destruct (utf8_decode raw) as [p|e]; [|destruct e]; reflexivity.
Qed.

Lemma no_session_left d l :
  existsb (String.eqb d) (filter (fun d' => negb (String.eqb d' d)) l) = false.
Proof.
  induction l as [|a l IH]; [reflexivity|]. rewrite filter_cons.
  destruct (decide _) as [H|H]; [|exact IH].
  cbn [existsb]. rewrite IH. rewrite String.eqb_sym.
  destruct (String.eqb a d); [contradiction H | reflexivity].
Qed.

Lemma quiet_log_app (l : list (Level * string)) m :
  filter is_warning (l ++ [(INFO, m)])%list = filter is_warning l.
Proof. rewrite filter_app. cbn. apply app_nil_r. Qed.

Lemma drop_database_step d m w :
  calm w ->
  exists w',
    (forall A (K : unit -> M A),
       bind (pg_database_exists d)
         (fun database_exists =>
            bind (if database_exists
                  then bind (pg_terminate_backends d)
                         (fun _ => bind (pg_drop_database_if_exists d)
                                     (fun _ => logger INFO m))
                  else ret tt) K) w
       = K tt w')
    /\ pg_databases w' = delete d (pg_databases w)
    /\ pg_roles w' = pg_roles w
    /\ faults w' = faults w
    /\ filter is_warning (log w') = filter is_warning (log w).
Proof.
  intros Hcalm.
  unfold pg_database_exists, pg_terminate_backends, pg_drop_database_if_exists.
  destruct (pg_databases w !! d) as [old|] eqn:E.
  - eexists. split; [|split; [|split; [|split]]].
    + intros A K. unfold bind at 1. rewrite external_calm by exact Hcalm.
      cbn [pg_databases tick]. rewrite E.
      replace (bool_decide (is_Some (Some old))) with true
        by (symmetry; apply bool_decide_eq_true; eexists; reflexivity).
      unfold bind at 1, bind at 1.
      rewrite external_calm by (intros n ep; apply Hcalm).
      unfold bind at 1.
      rewrite external_calm by (intros n ep; apply Hcalm).
      cbn [pg_sessions set_pg_sessions tick]. rewrite no_session_left.
      unfold logger. reflexivity.
    + reflexivity.
    + reflexivity.
    + reflexivity.
    + cbn. apply quiet_log_app.
  - eexists. split; [|split; [|split; [|split]]].
    + intros A K. unfold bind at 1. rewrite external_calm by exact Hcalm.
      cbn [pg_databases tick]. rewrite E.
      replace (bool_decide (is_Some (@None string))) with false
        by (symmetry; apply bool_decide_eq_false; intros [x Hx]; discriminate Hx).
      unfold bind at 1, ret. reflexivity.
    + cbn. symmetry. apply delete_id. exact E.
    + reflexivity.
    + reflexivity.
    + reflexivity.
Qed.

Lemma drop_role_step u m w :
  calm w ->
  (forall d owner, pg_databases w !! d = Some owner -> owner <> u) ->
  exists w',
    bind (pg_role_exists u)
      (fun user_exists =>
         if user_exists
         then bind (pg_drop_role_if_exists u) (fun _ => logger INFO m)
         else ret tt) w
    = (Ok tt, w')
    /\ pg_roles w' = delete u (pg_roles w)
    /\ pg_databases w' = pg_databases w
    /\ filter is_warning (log w') = filter is_warning (log w).
Proof.
  intros Hcalm Hfree. unfold pg_role_exists, pg_drop_role_if_exists.
  destruct (pg_roles w !! u) as [old|] eqn:E.
  - eexists. split; [|split; [|split]].
    + unfold bind at 1. rewrite external_calm by exact Hcalm.
      cbn [pg_roles tick]. rewrite E.
      replace (bool_decide (is_Some (Some old))) with true
        by (symmetry; apply bool_decide_eq_true; eexists; reflexivity).
      unfold bind at 1.
      rewrite external_calm by (intros n ep; apply Hcalm).
      cbn [pg_databases tick].
      replace (bool_decide (map_Exists (fun _ owner => owner = u) (pg_databases w)))
        with false.
      * unfold logger. reflexivity.
      * symmetry. apply bool_decide_eq_false. intros (d & owner & Hd & Ho).
        apply (Hfree d owner Hd Ho).
    + reflexivity.
    + reflexivity.
    + cbn. apply quiet_log_app.
  - eexists. split; [|split; [|split]].
    + unfold bind at 1. rewrite external_calm by exact Hcalm.
      cbn [pg_roles tick]. rewrite E.
      replace (bool_decide (is_Some (@None string))) with false
        by (symmetry; apply bool_decide_eq_false; intros [x Hx]; discriminate Hx).
      reflexivity.
    + cbn. symmetry. apply delete_id. exact E.
    + reflexivity.
    + reflexivity.
Qed.

Lemma read_admin_password_quiet environ namespace w admin w' :
  read_admin_password environ namespace w = (Ok admin, w') -> log w' = log w.
Proof.
  unfold read_admin_password, try_except, bind, read_namespaced, external, lift, raise, logger.
  destruct (faults w (clock w) (ReadNamespaced Secret)) as [e|].
  - destruct e; discriminate.
  - cbn [cluster tick].
    destruct (cluster w !! _) as [secret|]; [|discriminate].
    destruct (py_attr secret "data") as [data|e]; [|destruct e; discriminate].
    destruct (subscript data _) as [encoded|e]; [|destruct e; discriminate].
    destruct encoded; try discriminate.
    destruct (b64decode s) as [raw|e]; [|destruct e; discriminate].
    destruct (utf8_decode raw) as [p|e]; [|destruct e; discriminate].
    intros H. injection H as _ <-. reflexivity.
Qed.

(** A delete call, in a world without scheduled failures where the
    PostgreSQL client is installed, the administrator password can be
    read and the role of the instance owns no database but its own:
    the call returns its success result, the database and the role of
    the instance are gone, and no warning is logged. *)
Theorem delete_drops_database_and_role
  (environ : string -> option string) (spec : dict) (name namespace admin : string)
  (w : World) :
  calm w ->
  installed w "psycopg2" = true ->
  fst (read_admin_password environ namespace w) = Ok admin ->
  (forall d owner,
     pg_databases w !! d = Some owner ->
     d <> generate_db_name name namespace ->
     owner <> generate_db_username name namespace) ->
  let run := delete_odoo_instance environ spec name namespace w in
  fst run = Ok deleted_successfully
  /\ pg_databases (snd run) = delete (generate_db_name name namespace) (pg_databases w)
  /\ pg_roles (snd run) = delete (generate_db_username name namespace) (pg_roles w)
  /\ filter is_warning (log (snd run)) = filter is_warning (log w).
Proof.
  intros Hcalm Hinst Hadmin Hfree run. subst run.
  unfold delete_odoo_instance.
  set (w0 := snd (logger INFO ("Deleting OdooInstance: " ++ name ++ " in namespace: "
                               ++ namespace) w)).
  rewrite (bind_ok (logger INFO ("Deleting OdooInstance: " ++ name ++ " in namespace: "
                                 ++ namespace)) _ w tt w0 eq_refl).
  assert (Hcalm0 : calm w0) by (intros n ep; apply Hcalm).
  assert (Hadmin0 : fst (read_admin_password environ namespace w0) = Ok admin).
  { subst w0. unfold logger. cbn [snd]. rewrite read_admin_password_logged. exact Hadmin. }
  pose proof (keeps_read_admin_password environ namespace w0) as Hsame.
  destruct (read_admin_password environ namespace w0) as [r w1] eqn:Hread.
  cbn [fst snd] in Hadmin0, Hsame. subst r.
  pose proof (read_admin_password_quiet _ _ _ _ _ Hread) as Hlog1.
  pose proof (calm_same_database _ _ Hsame Hcalm0) as Hcalm1.
  destruct Hsame as (Hroles1 & Hdbs1 & _).
  assert (Hcalm2 : calm (tick w1)) by (intros n ep; apply Hcalm1).
  destruct (drop_database_step (generate_db_name name namespace)
              ("Dropped database " ++ generate_db_name name namespace) (tick w1) Hcalm2)
    as (w3 & Hdrop & Hdbs3 & Hroles3 & Hfaults3 & Hlog3).
  assert (Hcalm3 : calm w3) by (intros n ep; rewrite Hfaults3; apply Hcalm1).
  destruct (drop_role_step (generate_db_username name namespace)
              ("Dropped database user " ++ generate_db_username name namespace) w3 Hcalm3)
    as (w4 & Hrole & Hroles4 & Hdbs4 & Hlog4).
  { intros d owner Hd. rewrite Hdbs3 in Hd. cbn [pg_databases tick] in Hd.
    apply lookup_delete_Some in Hd as [Hne Hd]. rewrite Hdbs1 in Hd.
    apply (Hfree d owner Hd). congruence. }
  assert (Hclean : database_cleanup environ name namespace w0 = (Ok tt, w4)).
  { unfold database_cleanup.
    assert (Himp : forall h, try_except (import_module "psycopg2") h w0 = (Ok tt, w0)).
    { intros h. unfold try_except, import_module. subst w0. cbn [installed snd logger set_log].
      rewrite Hinst. reflexivity. }
    rewrite (bind_ok _ _ w0 tt w0 (Himp _)).
    rewrite (bind_ok _ _ w0 admin w1 Hread).
    assert (Hconn : psycopg2_connect (DB_HOST environ) (DB_PORT environ)
                      (DB_ADMIN_USER environ) admin "postgres" w1 = (Ok tt, tick w1)).
    { unfold psycopg2_connect. rewrite external_calm by exact Hcalm1. reflexivity. }
    rewrite (bind_ok _ _ w1 tt (tick w1) Hconn).
    rewrite Hdrop. exact Hrole. }
  rewrite (bind_ok _ _ w0 tt w4 (try_ok _ _ _ _ _ Hclean)).
  unfold bind, logger, ret. cbn [fst snd log set_log pg_databases pg_roles].
  split; [reflexivity|]. split; [|split].
  - rewrite Hdbs4, Hdbs3. cbn [pg_databases tick]. rewrite Hdbs1. reflexivity.
  - rewrite Hroles4, Hroles3. cbn [pg_roles tick]. rewrite Hroles1. reflexivity.
  - rewrite quiet_log_app, Hlog4, Hlog3. cbn [log tick]. rewrite Hlog1.
    subst w0. cbn. apply quiet_log_app.
Qed.

Lemma delete_drops_database_and_role_witness :
  let run := delete_odoo_instance no_environ [("version", VStr "17.0")]
               "demo" "default" provisioned_world in
  fst run = Ok deleted_successfully
  /\ pg_databases (snd run) !! "odoo_default_demo" = None
  /\ pg_roles (snd run) !! "odoo_user_default_demo" = None.
Proof.
  destruct (delete_drops_database_and_role no_environ [("version", VStr "17.0")]
              "demo" "default" "s3cret" provisioned_world)
    as (Hfst & Hdbs & Hroles & _).
  - intros n ep. reflexivity.
  - reflexivity.
  - vm_compute. reflexivity.
  - intros d owner H Hne. cbn in H.
    apply lookup_insert_Some in H as [[<- _]|[_ H]].
    + contradiction Hne. reflexivity.
    + rewrite lookup_empty in H. discriminate H.
  - split; [exact Hfst|]. split.
    + rewrite Hdbs. apply lookup_delete_eq.
    + rewrite Hroles. apply lookup_delete_eq.
Defined.

(** ** Status patches, seen from the caller *)



(** [patch_status] is best effort: whatever the API server answers to
    its two calls, as long as a failure is an [ApiException] and the
    stored instance is well formed, the call returns normally; when a
    call fails or the instance is not in the store, the stored instances
    stay as they were and one error is logged. *)
Theorem patch_status_is_best_effort (name namespace : string) (p : dict) (w : World) :
  (forall n e, faults w n GetCustomObject = Some e ->
               exists status text, e = ApiException status text) ->
  (forall n e, faults w n PatchCustomObjectStatus = Some e ->
               exists status text, e = ApiException status text) ->
  (forall inst, instances w !! (namespace, name) = Some inst ->
                well_formed_instance inst = true) ->
  let run := patch_status name namespace p w in
  fst run = Ok tt
  /\ (faults w (clock w) GetCustomObject <> None
      \/ faults w (S (clock w)) PatchCustomObjectStatus <> None
      \/ instances w !! (namespace, name) = None ->
      instances (snd run) = instances w
      /\ exists msg, log (snd run) = (log w ++ [(ERROR, msg)])%list).
Proof.
  intros Hget Hpatch Hwf run. subst run.
  unfold patch_status, try_except, bind, get_namespaced_custom_object,
    patch_namespaced_custom_object_status, external.
  destruct (faults w (clock w) GetCustomObject) as [e|] eqn:Eg.
  - destruct (Hget _ _ Eg) as (status & text & ->). cbn.
    split; [reflexivity|]. intros _. split; [reflexivity|]. eexists. reflexivity.
  - cbn [tick instances clock faults].
    destruct (instances w !! (namespace, name)) as [inst|] eqn:Ei.
    + specialize (Hwf inst eq_refl).
      destruct inst as [| | | | |i]; try discriminate Hwf.
      cbn [lift py_get]. cbn [well_formed_instance] in Hwf.
      assert (Hstatus : exists d, dict_get i "status" (VDict []) = VDict d).
      { unfold dict_get.
        destruct (dict_lookup "status" i) as [[| | | | |d]|]; try discriminate Hwf;
          eexists; reflexivity. }
      destruct Hstatus as [d ->]. clear Hwf.
      cbn [py_update lift tick faults instances clock].
      destruct (faults w (S (clock w)) PatchCustomObjectStatus) as [e|] eqn:Ep.
      * destruct (Hpatch _ _ Ep) as (status & text & ->). cbn.
        split; [reflexivity|]. intros _. split; [reflexivity|]. eexists. reflexivity.
      * rewrite Ei. cbn [fst snd]. split; [reflexivity|].
        intros [H|[H|H]]; [contradiction | contradiction | discriminate H].
    + cbn. split; [reflexivity|]. intros _. split; [reflexivity|]. eexists. reflexivity.
Qed.

Lemma patch_status_is_best_effort_witness :
  let run := patch_status "demo" "default" [("phase", VStr "Failed")] api_server_down in
  fst run = Ok tt
  /\ instances (snd run) = instances api_server_down
  /\ exists msg, log (snd run) = (log api_server_down ++ [(ERROR, msg)])%list.
Proof.
  destruct (patch_status_is_best_effort "demo" "default" [("phase", VStr "Failed")]
              api_server_down)
    as (Hfst & Hrest).
  - intros n e H. injection H as <-. eexists _, _. reflexivity.
  - intros n e H. injection H as <-. eexists _, _. reflexivity.
  - intros inst H. cbn in H. apply lookup_insert_Some in H as [[_ <-]|[_ H]].
    + reflexivity.
    + rewrite lookup_empty in H. discriminate H.
  - split; [exact Hfst|]. apply Hrest. left. discriminate.
Defined.

(** ** The validating webhook *)

(** The validating webhook fails closed.  For a review request that
    carries a [request] block, the route answers with status 200 and a
    review that echoes the uid of the request; the review allows the
    object exactly when [validate_odoo_instance] returns an acceptance:
    a rejection and an exception raised by the validation both end in
    [allowed = false]. *)
Theorem validate_webhook_fails_closed (ri rd : dict) (w : World) :
  ri <> [] ->
  dict_get ri "request" (VDict []) = VDict rd ->
  let instance := dict_get rd "object" (VDict []) in
  exists response w',
    validate_odoo_instance_webhook (VDict ri) w
    = (Ok (admission_review response, OK_STATUS), w')
    /\ dict_lookup "uid" response = Some (dict_get rd "uid" (VStr ""))
    /\ (exists allowed, dict_lookup "allowed" response = Some (VBool allowed)
        /\ (allowed = true <->
            exists reason, validate_odoo_instance instance = Ok (true, reason))).
Proof.
  intros Hne Hreq instance.
  unfold validate_odoo_instance_webhook.
  destruct ri as [|kv ri]; [contradiction|]. cbn [truthy negb].
  cbn [py_get]. rewrite Hreq.
  unfold bind at 1, lift at 1. unfold bind at 1, lift at 1. cbn [py_get].
  unfold try_except, bind at 1, lift at 1. fold instance.
  unfold bind at 1, lift at 1.
  destruct (validate_odoo_instance instance) as [[valid reason]|e].
  - destruct valid.
    + eexists _, _. split; [reflexivity|]. split; [reflexivity|].
      exists true. split; [reflexivity|]. split; [eexists; reflexivity | reflexivity].
    + eexists _, _. split; [reflexivity|]. split; [reflexivity|].
      exists false. split; [reflexivity|]. split; [discriminate|].
      intros [r H]. discriminate H.
  - eexists _, _. split; [reflexivity|]. split; [reflexivity|].
    exists false. split; [reflexivity|]. split; [discriminate|].
    intros [r H]. discriminate H.
Qed.

Lemma validate_webhook_fails_closed_witness :
  exists response w',
    validate_odoo_instance_webhook (admission_request instance_with_limits) bare_world
    = (Ok (admission_review response, OK_STATUS), w')
    /\ dict_lookup "uid" response = Some (VStr "705ab4f5")
    /\ dict_lookup "allowed" response = Some (VBool false).
Proof.
  destruct (validate_webhook_fails_closed
              [("request", VDict [("uid", VStr "705ab4f5"); ("object", instance_with_limits)])]
              [("uid", VStr "705ab4f5"); ("object", instance_with_limits)] bare_world)
    as (response & w' & Hrun & Huid & allowed & Hallowed & Hiff).
  - discriminate.
  - reflexivity.
  - exists response, w'. split; [exact Hrun|]. split; [exact Huid|].
    destruct allowed; [|exact Hallowed].
    destruct (proj1 Hiff eq_refl) as [reason H]. vm_compute in H. discriminate H.
Defined.

(** ** Ownership of what is created *)

Lemma owner_references_value name namespace w obj uid :
  instances w !! (namespace, name) = Some obj ->
  value_at [Attr "metadata"; Attr "uid"] obj = Some uid ->
  faults w (clock w) GetCustomObject = None ->
  owner_references name namespace w = (Ok (owner_reference name uid), tick w).
Proof.
  intros Hobj Huid Hfault.
  unfold owner_references, bind, get_namespaced_custom_object, external, lift, ret.
  rewrite Hfault. cbn [instances tick]. rewrite Hobj.
  destruct obj as [| | | | |d]; try discriminate Huid.
  cbn in Huid. cbn [subscript].
  destruct (dict_lookup "metadata" d) as [md|]; [|discriminate Huid].
  destruct md as [| | | | |m]; try discriminate Huid.
  cbn [subscript].
  destruct (dict_lookup "uid" m) as [u|]; [|discriminate Huid].
  injection Huid as ->. reflexivity.
Qed.

Lemma guarded_create_owned name namespace k object_name body logged msg :
  (forall owner, metadata_name (body owner) = Some object_name
                 /\ value_at [Attr "metadata"; Attr "ownerReferences"] (body owner)
                    = Some owner) ->
  creates_owned name namespace k object_name
    (guarded_create k name namespace body logged msg).
Proof.
  intros Hbody w obj uid Hcalm Hobj Huid Hfree.
  destruct (Hbody (owner_reference name uid)) as [Hname Howner].
  unfold guarded_create.
  rewrite (bind_ok _ _ _ _ _ (owner_references_value name namespace w obj uid Hobj Huid
                                (Hcalm _ _))).
  unfold try_except.
  rewrite (bind_ok _ _ _ _ _
             (create_namespaced_absent k namespace _ object_name (tick w) Hname
                (Hcalm _ _) Hfree)).
  destruct logged as [m|].
  - cbn. split; [reflexivity|]. eexists. split; [apply lookup_insert_eq | exact Howner].
  - cbn. split; [reflexivity|]. eexists. split; [apply lookup_insert_eq | exact Howner].
Qed.

Lemma creates_owned_ext name namespace k object_name (f g : M unit) :
  (forall w, f w = g w) ->
  creates_owned name namespace k object_name g ->
  creates_owned name namespace k object_name f.
Proof.
  intros Hfg Hg w obj uid Hcalm Hobj Huid Hfree. rewrite Hfg.
  apply (Hg w obj uid Hcalm Hobj Huid Hfree).
Qed.

Lemma create_config_map_manifest name namespace spec :
  exists body msg,
    (forall owner, metadata_name (body owner) = Some ("odoo-config-" ++ name)
                   /\ value_at [Attr "metadata"; Attr "ownerReferences"] (body owner)
                      = Some owner)
    /\ forall w, create_config_map name namespace spec w
                 = guarded_create ConfigMap name namespace body None msg w.
Proof.
  eexists (fun owner => _), _. split; cycle 1.
  - intros w. unfold create_config_map. same_run.
  - intros owner; split; reflexivity.
Qed.

Lemma create_service_manifest name namespace spec :
  exists body logged msg,
    (forall owner, metadata_name (body owner) = Some name
                   /\ value_at [Attr "metadata"; Attr "ownerReferences"] (body owner)
                      = Some owner)
    /\ forall w, create_service name namespace spec w
                 = guarded_create Service name namespace body logged msg w.
Proof.
  eexists (fun owner => _), (Some _), _. split; cycle 1.
  - intros w. unfold create_service. same_run.
  - intros owner; split; reflexivity.
Qed.

Lemma create_db_credentials_secret_manifest
  environ name namespace db_user db_password db_name :
  exists body logged msg,
    (forall owner, metadata_name (body owner) = Some ("odoo-db-credentials-" ++ name)
                   /\ value_at [Attr "metadata"; Attr "ownerReferences"] (body owner)
                      = Some owner)
    /\ forall w, create_db_credentials_secret environ name namespace db_user db_password
                   db_name w
                 = guarded_create Secret name namespace body logged msg w.
Proof.
  eexists (fun owner => _), (Some _), _. split; cycle 1.
  - intros w. unfold create_db_credentials_secret. same_run.
  - intros owner; split; reflexivity.
Qed.

Lemma create_filestore_pvc_manifest environ name namespace spec :
  well_typed_spec spec = true ->
  exists body msg,
    (forall owner, metadata_name (body owner) = Some ("odoo-filestore-" ++ name)
                   /\ value_at [Attr "metadata"; Attr "ownerReferences"] (body owner)
                      = Some owner)
    /\ forall w, create_filestore_pvc environ name namespace spec w
                 = guarded_create PersistentVolumeClaim name namespace body None msg w.
Proof.
  intros Hspec. destruct (well_typed_spec_inv _ Hspec) as ((d & Hd) & _).
  eexists (fun owner => _), _. split; cycle 1.
  - intros w. unfold create_filestore_pvc. rewrite Hd.
    unfold lift, py_get. same_run.
  - intros owner; split; reflexivity.
Qed.

Lemma create_database_pvc_manifest environ name namespace spec :
  well_typed_spec spec = true ->
  exists body msg,
    (forall owner, metadata_name (body owner) = Some ("odoo-db-" ++ name)
                   /\ value_at [Attr "metadata"; Attr "ownerReferences"] (body owner)
                      = Some owner)
    /\ forall w, create_database_pvc environ name namespace spec w
                 = guarded_create PersistentVolumeClaim name namespace body None msg w.
Proof.
  intros Hspec. destruct (well_typed_spec_inv _ Hspec) as (_ & (d & Hd) & _).
  eexists (fun owner => _), _. split; cycle 1.
  - intros w. unfold create_database_pvc. rewrite Hd.
    unfold lift, py_get. same_run.
  - intros owner; split; reflexivity.
Qed.

Lemma create_ingress_manifest environ name namespace spec :
  well_typed_spec spec = true ->
  exists body logged msg,
    (forall owner, metadata_name (body owner) = Some name
                   /\ value_at [Attr "metadata"; Attr "ownerReferences"] (body owner)
                      = Some owner)
    /\ forall w, create_ingress environ name namespace spec w
                 = guarded_create Ingress name namespace body logged msg w.
Proof.
  intros Hspec. destruct (well_typed_spec_inv _ Hspec) as (_ & _ & (d & Hd) & _).
  eexists (fun owner => _), (Some _), _. split; cycle 1.
  - intros w. unfold create_ingress. rewrite Hd.
    unfold lift, py_get. same_run.
  - intros owner; split; reflexivity.
Qed.

Lemma create_deployment_manifest environ name namespace spec :
  well_typed_spec spec = true ->
  exists body logged msg,
    (forall owner, metadata_name (body owner) = Some name
                   /\ value_at [Attr "metadata"; Attr "ownerReferences"] (body owner)
                      = Some owner)
    /\ forall w, create_deployment environ name namespace spec w
                 = guarded_create Deployment name namespace body logged msg w.
Proof.
  intros Hspec. destruct (well_typed_spec_inv _ Hspec) as (_ & _ & _ & Haddons).
  destruct (addon_parts_total _ Haddons) as [[[vs cs] ms] Hparts].
  eexists (fun owner => _), (Some _), _. split; cycle 1.
  - intros w. unfold create_deployment. cbv zeta.
    unfold guarded_create. apply bind_ext. intros owner w1.
    rewrite (bind_pure _ _ _ Hparts). cbv iota beta.
    unfold bind, try_except, on_conflict.
    match goal with
    | |- ?L = ?R =>
      match L with
      | context [create_namespaced ?k ?ns ?b ?w1] =>
          match R with
          | context [create_namespaced k ns ?b' w1] => unify b' b
          end;
          destruct (create_namespaced k ns b w1) as [[[]|[status ?| | | | | | | | |]] ?];
          try reflexivity;
          destruct (status =? 409); reflexivity
      end
    end.
  - intros owner; split; reflexivity.
Qed.

Ltac by_manifest L :=
  let body := fresh "body" in
  let H := fresh "H" in
  let Hrun := fresh "Hrun" in
  first [ destruct L as (body & ? & ? & H & Hrun) | destruct L as (body & ? & H & Hrun) ];
  eapply creates_owned_ext; [exact Hrun | apply guarded_create_owned; exact H].

(** Every object that the operator creates names the instance as its
    controlling owner, with the uid that the store holds for the
    instance: this is what the delete handler relies on when it leaves
    the removal of these objects to the garbage collection of the
    cluster. *)
Theorem created_objects_are_owned
  (environ : string -> option string) (name namespace : string) (spec : dict)
  (db_user db_password : string) (db_name : option string) :
  well_typed_spec spec = true ->
  creates_owned name namespace PersistentVolumeClaim ("odoo-filestore-" ++ name)
    (create_filestore_pvc environ name namespace spec)
  /\ creates_owned name namespace PersistentVolumeClaim ("odoo-db-" ++ name)
       (create_database_pvc environ name namespace spec)
  /\ creates_owned name namespace ConfigMap ("odoo-config-" ++ name)
       (create_config_map name namespace spec)
  /\ creates_owned name namespace Secret ("odoo-db-credentials-" ++ name)
       (create_db_credentials_secret environ name namespace db_user db_password db_name)
  /\ creates_owned name namespace Deployment name
       (create_deployment environ name namespace spec)
  /\ creates_owned name namespace Service name
       (create_service name namespace spec)
  /\ creates_owned name namespace Ingress name
       (create_ingress environ name namespace spec).
Proof.
  intros Hspec.
  split; [by_manifest (create_filestore_pvc_manifest environ name namespace spec Hspec)|].
  split; [by_manifest (create_database_pvc_manifest environ name namespace spec Hspec)|].
  split; [by_manifest (create_config_map_manifest name namespace spec)|].
  split; [by_manifest (create_db_credentials_secret_manifest environ name namespace
                         db_user db_password db_name)|].
  split; [by_manifest (create_deployment_manifest environ name namespace spec Hspec)|].
  split; [by_manifest (create_service_manifest name namespace spec)|].
  by_manifest (create_ingress_manifest environ name namespace spec Hspec).
Qed.

Lemma created_objects_are_owned_witness :
  exists body,
    cluster (snd (create_deployment no_environ "demo" "default" spec_ingress_with_hostname
                    demo_world))
      !! (Deployment, "default", "demo") = Some body
    /\ value_at [Attr "metadata"; Attr "ownerReferences"; Item 0; Attr "uid"] body
       = Some (VStr "7d3c2a9e").
Proof.
  destruct (created_objects_are_owned no_environ "demo" "default" spec_ingress_with_hostname
              "odoo_user_default_demo" "first" None eq_refl)
    as (_ & _ & _ & _ & Hdep & _).
  destruct (Hdep demo_world demo_instance (VStr "7d3c2a9e")) as (_ & body & Hbody & Howned).
  - intros n ep. reflexivity.
  - reflexivity.
  - reflexivity.
  - reflexivity.
  - exists body. split; [exact Hbody|].
    unfold owned_by in Howned. cbn [value_at] in *.
    destruct body as [| | | | |b]; try discriminate Howned.
    destruct (dict_lookup "metadata" b) as [[| | | | |md]|]; try discriminate Howned.
    destruct (dict_lookup "ownerReferences" md) as [o|]; [|discriminate Howned].
    injection Howned as ->. reflexivity.
Defined.

(** ** Phase transitions of a create *)

Lemma guarded_create_settles k name namespace object_name body logged msg :
  (forall owner, metadata_name (body owner) = Some object_name) ->
  settles name namespace (guarded_create k name namespace body logged msg).
Proof.
  intros Hname w Hcalm Hown.
  destruct (owner_references_run name namespace w Hown (Hcalm _ _)) as [owner Ho].
  unfold guarded_create. rewrite (bind_ok _ _ _ _ _ Ho). unfold try_except.
  destruct (cluster (tick w) !! (k, namespace, object_name)) as [obj|] eqn:E.
  - rewrite (bind_raise _ _ _ _ _
               (create_namespaced_present k namespace (body owner) object_name (tick w)
                  (Hname owner) (Hcalm _ _) (ex_intro _ obj E))).
    cbn. eexists. split; [reflexivity|]. split; reflexivity.
  - rewrite (bind_ok _ _ _ _ _
               (create_namespaced_absent k namespace (body owner) object_name (tick w)
                  (Hname owner) (Hcalm _ _) E)).
    destruct logged; cbn; eexists; (split; [reflexivity|]); split; reflexivity.
Qed.

Lemma settles_ext name namespace (f g : M unit) :
  (forall w, f w = g w) -> settles name namespace g -> settles name namespace f.
Proof. intros Hfg Hg w Hcalm Hown. rewrite Hfg. apply Hg; assumption. Qed.

Ltac by_settling L :=
  let H := fresh "H" in
  let Hrun := fresh "Hrun" in
  first [ destruct L as (? & ? & ? & H & Hrun) | destruct L as (? & ? & H & Hrun) ];
  eapply settles_ext; [exact Hrun | eapply guarded_create_settles; exact H].

Lemma instance_url_total spec :
  well_typed_spec spec = true ->
  exists url, forall w, instance_url spec w = (Ok url, w).
Proof.
  intros Hspec. destruct (well_typed_spec_inv _ Hspec) as (_ & _ & (d & Hd) & _).
  unfold instance_url. rewrite Hd. cbn [py_get].
  destruct (truthy (dict_get d "hostname" VNone)) eqn:Hh.
  - assert (Hl : dict_lookup "hostname" d = Some (dict_get d "hostname" VNone)).
    { unfold dict_get in *. destruct (dict_lookup "hostname" d); [reflexivity|].
      discriminate Hh. }
    assert (Hg : dict_lookup "ingress" spec = Some (VDict d)).
    { unfold dict_get in Hd. destruct (dict_lookup "ingress" spec) as [g|].
      - rewrite Hd. reflexivity.
      - injection Hd as <-. discriminate Hh. }
    eexists. intros w. unfold bind, lift, ret. rewrite Hh. cbn [subscript].
    rewrite Hg. cbn [subscript]. rewrite Hl. reflexivity.
  - eexists. intros w. unfold bind, lift, ret. rewrite Hh. reflexivity.
Qed.

Lemma settles_logger name namespace lvl msg : settles name namespace (logger lvl msg).
Proof. intros w _ _. eexists. split; [reflexivity|]. split; reflexivity. Qed.

Lemma settles_run name namespace (m : M unit) w :
  settles name namespace m ->
  calm w ->
  owner_known name namespace w ->
  exists w',
    (forall A (K : unit -> M A), bind m K w = K tt w')
    /\ instances w' = instances w /\ faults w' = faults w
    /\ calm w' /\ owner_known name namespace w'.
Proof.
  intros Hm Hcalm Hown. destruct (Hm w Hcalm Hown) as (w' & Hrun & Hi & Hf).
  exists w'. split; [intros A K; apply bind_ok; exact Hrun|].
  split; [exact Hi|]. split; [exact Hf|]. split.
  - intros n ep. rewrite Hf. apply Hcalm.
  - destruct Hown as (obj & uid & Hobj & Huid). exists obj, uid.
    rewrite Hi. split; assumption.
Qed.

(** The store calls of the [try] block of [create_odoo_instance], up to
    the address that goes into the status. *)
Lemma create_body_run environ spec name namespace w :
  well_typed_spec spec = true ->
  calm w ->
  owner_known name namespace w ->
  exists url w',
    (forall A (K : value -> M A),
       (create_filestore_pvc environ name namespace spec ;;
        logger INFO ("Created filestore PVC for " ++ name) ;;
        create_config_map name namespace spec ;;
        logger INFO ("Created ConfigMap for " ++ name) ;;
        create_deployment environ name namespace spec ;;
        logger INFO ("Created deployment for " ++ name) ;;
        create_service name namespace spec ;;
        logger INFO ("Created service for " ++ name) ;;
        enabled <- lift (py_get (dict_get spec "ingress" (VDict [])) "enabled" (VBool true)) ;;
        url <- (if truthy enabled
                then create_ingress environ name namespace spec ;;
                     logger INFO ("Created ingress for " ++ name) ;;
                     instance_url spec
                else ret VNone) ;;
        K url) w
       = K url w')
    /\ instances w' = instances w /\ faults w' = faults w.
Proof.
  intros Hspec Hcalm Hown.
  assert (Hpvc : settles name namespace (create_filestore_pvc environ name namespace spec))
    by (by_settling (create_filestore_pvc_shape environ name namespace spec Hspec)).
  assert (Hcm : settles name namespace (create_config_map name namespace spec))
    by (by_settling (create_config_map_shape name namespace spec)).
  assert (Hdep : settles name namespace (create_deployment environ name namespace spec))
    by (by_settling (create_deployment_shape environ name namespace spec Hspec)).
  assert (Hsvc : settles name namespace (create_service name namespace spec))
    by (by_settling (create_service_shape name namespace spec)).
  assert (Hing : settles name namespace (create_ingress environ name namespace spec))
    by (by_settling (create_ingress_shape environ name namespace spec Hspec)).
  pose proof (settles_logger name namespace INFO) as Hlog.
  destruct (settles_run _ _ _ w Hpvc Hcalm Hown) as (w1 & R1 & I1 & F1 & C1 & O1).
  destruct (settles_run _ _ _ w1 (Hlog ("Created filestore PVC for " ++ name)) C1 O1)
    as (w2 & R2 & I2 & F2 & C2 & O2).
  destruct (settles_run _ _ _ w2 Hcm C2 O2) as (w3 & R3 & I3 & F3 & C3 & O3).
  destruct (settles_run _ _ _ w3 (Hlog ("Created ConfigMap for " ++ name)) C3 O3)
    as (w4 & R4 & I4 & F4 & C4 & O4).
  destruct (settles_run _ _ _ w4 Hdep C4 O4) as (w5 & R5 & I5 & F5 & C5 & O5).
  destruct (settles_run _ _ _ w5 (Hlog ("Created deployment for " ++ name)) C5 O5)
    as (w6 & R6 & I6 & F6 & C6 & O6).
  destruct (settles_run _ _ _ w6 Hsvc C6 O6) as (w7 & R7 & I7 & F7 & C7 & O7).
  destruct (settles_run _ _ _ w7 (Hlog ("Created service for " ++ name)) C7 O7)
    as (w8 & R8 & I8 & F8 & C8 & O8).
  assert (I : instances w8 = instances w) by congruence.
  assert (F : faults w8 = faults w) by congruence.
  destruct (well_typed_spec_inv _ Hspec) as (_ & _ & (d & Hd) & _).
  destruct (instance_url_total spec Hspec) as [address Hurl].
  destruct (truthy (dict_get d "enabled" (VBool true))) eqn:Hen.
  - destruct (settles_run _ _ _ w8 Hing C8 O8) as (w9 & R9 & I9 & F9 & C9 & O9).
    destruct (settles_run _ _ _ w9 (Hlog ("Created ingress for " ++ name)) C9 O9)
      as (w10 & R10 & I10 & F10 & _).
    exists address, w10. split; [|split; congruence].
    intros A K.
    rewrite R1. cbv beta. rewrite R2. cbv beta. rewrite R3. cbv beta. rewrite R4. cbv beta.
    rewrite R5. cbv beta. rewrite R6. cbv beta. rewrite R7. cbv beta. rewrite R8. cbv beta.
    rewrite Hd. cbn [py_get]. unfold bind at 1, lift at 1. rewrite Hen.
    rewrite bind_assoc. rewrite R9. cbv beta. rewrite bind_assoc. rewrite R10. cbv beta.
    unfold bind. rewrite Hurl. reflexivity.
  - exists VNone, w8. split; [|split; assumption].
    intros A K.
    rewrite R1. cbv beta. rewrite R2. cbv beta. rewrite R3. cbv beta. rewrite R4. cbv beta.
    rewrite R5. cbv beta. rewrite R6. cbv beta. rewrite R7. cbv beta. rewrite R8. cbv beta.
    rewrite Hd. cbn [py_get]. unfold bind at 1, lift at 1. rewrite Hen.
    reflexivity.
Qed.

Lemma guarded_create_fails k name namespace body logged msg w status text :
  owner_known name namespace w ->
  faults w (clock w) GetCustomObject = None ->
  faults w (S (clock w)) (CreateNamespaced k) = Some (ApiException status text) ->
  status <> 409 ->
  guarded_create k name namespace body logged msg w
  = (Raise (ApiException status text), tick (tick w)).
Proof.
  intros Hown Hget Hfault Hne.
  destruct (owner_references_run name namespace w Hown Hget) as [owner Ho].
  unfold guarded_create. rewrite (bind_ok _ _ _ _ _ Ho). unfold try_except.
  rewrite (bind_raise _ _ _ _ _
             (create_namespaced_fault k namespace (body owner) (tick w) _ Hfault)).
  cbn [on_conflict]. apply Z.eqb_neq in Hne. rewrite Hne. reflexivity.
Qed.

Lemma patched_keeps_uid inst p :
  value_at [Attr "metadata"; Attr "uid"] (patched inst p)
  = value_at [Attr "metadata"; Attr "uid"] inst.
Proof.
  destruct inst as [| | | | |i]; try reflexivity.
  unfold patched. cbn [value_at].
  rewrite dict_lookup_set_ne by discriminate. reflexivity.
Qed.

(** A create call on a stored, well-formed instance with a well-typed
    specification.
    - In a world without scheduled failures the call returns its
      success result with the address, and the status has phase
      [Running], [ready = true] and the success message.
    - When the status calls are reachable and the create call for the
      filestore claim (the fourth call of the handler) fails with an
      [ApiException] other than 409, the call raises [PermanentError]
      with the text of the failure, and the status has phase [Failed],
      [ready = false] and that text as message. *)
Theorem create_phase_transitions
  (environ : string -> option string) (spec : dict) (name namespace : string)
  (w : World) (inst uid : value) :
  instances w !! (namespace, name) = Some inst ->
  well_formed_instance inst = true ->
  value_at [Attr "metadata"; Attr "uid"] inst = Some uid ->
  well_typed_spec spec = true ->
  let run := create_odoo_instance environ spec name namespace w in
  (calm w ->
   exists url inst',
     fst run = Ok (created_successfully url)
     /\ instances (snd run) !! (namespace, name) = Some inst'
     /\ status_field inst' "phase" = VStr "Running"
     /\ status_field inst' "ready" = VBool true
     /\ status_field inst' "message" = VStr "Odoo instance created successfully")
  /\ (status_reachable w ->
      forall status text,
        faults w (S (S (S (clock w)))) (CreateNamespaced PersistentVolumeClaim)
        = Some (ApiException status text) ->
        status <> 409 ->
        fst run = Raise (PermanentError ("Error creating resources: " ++ text))
        /\ exists inst',
             instances (snd run) !! (namespace, name) = Some inst'
             /\ status_field inst' "phase" = VStr "Failed"
             /\ status_field inst' "ready" = VBool false
             /\ status_field inst' "message"
                = VStr ("Error creating resources: " ++ text)).
Proof.
  intros Hinst Hwf Huid Hspec run. subst run.
  set (P0 := [("phase", VStr "Pending"); ("message", VStr "Creating resources");
              ("ready", VBool false)]).
  set (w0 := snd (logger INFO ("Creating OdooInstance: " ++ name
                               ++ " in namespace: " ++ namespace) w)).
  set (inst1 := patched inst P0).
  set (w1 := set_instances (insert (namespace, name) inst1) (tick (tick w0))).
  assert (Hwf1 : well_formed_instance inst1 = true).
  { apply patched_well_formed; [exact Hwf | reflexivity|].
    subst inst1. rewrite (patched_field_written inst P0 "ready" (VBool false));
      [reflexivity | exact Hwf | reflexivity | reflexivity | reflexivity | discriminate]. }
  assert (Hinst1 : instances w1 !! (namespace, name) = Some inst1)
    by (subst w1; cbn; apply lookup_insert_eq).
  assert (Hown1 : owner_known name namespace w1).
  { exists inst1, uid. split; [exact Hinst1|]. subst inst1.
    rewrite patched_keeps_uid. exact Huid. }
  assert (Hstart : forall (Hreach : status_reachable w) (K : unit -> M value),
             bind (logger INFO ("Creating OdooInstance: " ++ name
                                ++ " in namespace: " ++ namespace))
               (fun _ => bind (patch_status name namespace P0) K) w
             = K tt w1).
  { intros Hreach K.
    rewrite (bind_ok (logger INFO ("Creating OdooInstance: " ++ name
                                   ++ " in namespace: " ++ namespace)) _ w tt w0 eq_refl).
    apply bind_ok. apply patch_status_run; [exact Hinst | exact Hwf|].
    destruct Hreach as [Hg Hp]. split; intros n; [apply Hg | apply Hp]. }
  split.
  - intros Hcalm.
    assert (Hreach : status_reachable w) by (split; intros n; apply Hcalm).
    assert (Hcalm1 : calm w1) by (intros n ep; apply Hcalm).
    destruct (create_body_run environ spec name namespace w1 Hspec Hcalm1 Hown1)
      as (url & w2 & Hbody & Hi2 & Hf2).
    set (P1 := [("phase", VStr "Running"); ("ready", VBool true); ("url", url);
                ("message", VStr "Odoo instance created successfully")]).
    exists url, (patched inst1 P1).
    unfold create_odoo_instance. fold P0. rewrite (Hstart Hreach).
    unfold try_except. rewrite Hbody. fold P1.
    erewrite bind_ok; cycle 1.
    { apply (patch_status_run _ _ _ _ inst1); [rewrite Hi2; exact Hinst1 | exact Hwf1|].
      split; intros n; rewrite Hf2; apply Hcalm1. }
    cbn [bind logger ret fst snd instances set_log set_instances].
    unfold bind, logger, ret. cbn [fst snd instances set_log set_instances].
    split; [reflexivity|]. split; [apply lookup_insert_eq|].
    split; [|split].
    + apply patched_field_written;
        [exact Hwf1 | reflexivity | reflexivity | reflexivity | discriminate].
    + apply patched_field_written;
        [exact Hwf1 | reflexivity | reflexivity | reflexivity | discriminate].
    + apply patched_field_written;
        [exact Hwf1 | reflexivity | reflexivity | reflexivity | discriminate].
  - intros Hreach status text Hfault Hne.
    set (msg := "Error creating resources: " ++ text).
    set (P2 := [("phase", VStr "Failed"); ("ready", VBool false); ("message", VStr msg)]).
    unfold create_odoo_instance. fold P0. rewrite (Hstart Hreach).
    destruct (create_filestore_pvc_shape environ name namespace spec Hspec)
      as (body & m & _ & Hshape).
    assert (Hpvc : create_filestore_pvc environ name namespace spec w1
                   = (Raise (ApiException status text), tick (tick w1))).
    { rewrite Hshape. apply guarded_create_fails; [exact Hown1 | apply Hreach | | exact Hne].
      exact Hfault. }
    unfold try_except. rewrite (bind_raise _ _ _ _ _ Hpvc).
    cbn [str_exn]. fold msg. fold P2.
    assert (Hhandler :
              (logger ERROR msg ;;
               patch_status name namespace P2 ;;
               @raise value (PermanentError msg)) (tick (tick w1))
              = (Raise (PermanentError msg),
                 set_instances (insert (namespace, name) (patched inst1 P2))
                   (tick (tick (snd (logger ERROR msg (tick (tick w1)))))))).
    { rewrite (bind_ok (logger ERROR msg) _ _ tt _ eq_refl).
      erewrite bind_ok; [reflexivity|].
      apply (patch_status_run _ _ _ _ inst1); [exact Hinst1 | exact Hwf1|].
      destruct Hreach as [Hg Hp]. split; intros n; [apply Hg | apply Hp]. }
    rewrite Hhandler.
    unfold raise. cbn [fst snd instances set_instances].
    split; [reflexivity|]. exists (patched inst1 P2).
    split; [apply lookup_insert_eq|]. split; [|split].
    + apply patched_field_written;
        [exact Hwf1 | reflexivity | reflexivity | reflexivity | discriminate].
    + apply patched_field_written;
        [exact Hwf1 | reflexivity | reflexivity | reflexivity | discriminate].
    + apply patched_field_written;
        [exact Hwf1 | reflexivity | reflexivity | reflexivity | discriminate].
Qed.

Lemma create_phase_transitions_witness :
  (exists inst',
     instances (snd (create_odoo_instance no_environ spec_ingress_with_hostname
                       "demo" "default" demo_world))
       !! ("default", "demo") = Some inst'
     /\ status_field inst' "phase" = VStr "Running"
     /\ status_field inst' "ready" = VBool true)
  /\ (exists inst',
        instances (snd (create_odoo_instance no_environ spec_ingress_with_hostname
                          "demo" "default" claim_refused))
          !! ("default", "demo") = Some inst'
        /\ status_field inst' "phase" = VStr "Failed"
        /\ status_field inst' "message"
           = VStr "Error creating resources: (403) Reason: Forbidden").
Proof.
  split.
  - destruct (create_phase_transitions no_environ spec_ingress_with_hostname
                "demo" "default" demo_world demo_instance (VStr "7d3c2a9e"))
      as (Hok & _).
    + reflexivity.
    + reflexivity.
    + reflexivity.
    + reflexivity.
    + destruct Hok as (url & inst' & _ & Hi & Hphase & Hready & _).
      * intros n ep. reflexivity.
      * exists inst'. split; [exact Hi|]. split; [exact Hphase | exact Hready].
  - destruct (create_phase_transitions no_environ spec_ingress_with_hostname
                "demo" "default" claim_refused demo_instance (VStr "7d3c2a9e"))
      as (_ & Hfail).
    + reflexivity.
    + reflexivity.
    + reflexivity.
    + reflexivity.
    + destruct (Hfail) with (status := 403) (text := "(403) Reason: Forbidden")
        as (_ & inst' & Hi & Hphase & _ & Hmsg).
      * split; intros n; cbn; destruct (n =? 3)%nat; reflexivity.
      * reflexivity.
      * discriminate.
      * exists inst'. split; [exact Hi|]. split; [exact Hphase | exact Hmsg].
Defined.

(** ** The patch of the mutating webhook *)

Lemma unique_lookup_in k v d :
  unique_keys d = true -> In (k, v) d -> dict_lookup k d = Some v.
Proof.
  induction d as [|[k0 v0] d IH]; intros Hu Hin; [contradiction|].
  cbn [unique_keys] in Hu. apply andb_prop in Hu as [Hfresh Hu].
  cbn [dict_lookup]. destruct Hin as [Heq|Hin].
  - injection Heq as -> ->. rewrite String.eqb_refl. reflexivity.
  - destruct (String.eqb k k0) eqn:E; [|apply IH; assumption].
    apply String.eqb_eq in E. subst k0.
    apply negb_true_iff, dict_has_lookup in Hfresh.
    rewrite (IH Hu Hin) in Hfresh. discriminate Hfresh.
Qed.

Lemma value_size_item x (l : list value) :
  In x l -> (value_size x < S (list_sum (map value_size l)))%nat.
Proof.
  induction l as [|y l IH]; intros Hin; [contradiction|].
  cbn [map list_sum fold_right]. fold (list_sum (map value_size l)).
  destruct Hin as [->|Hin]; [lia|]. specialize (IH Hin). lia.
Qed.

Lemma value_size_entry k v (d : dict) :
  In (k, v) d -> (value_size v < S (list_sum (map (fun kv => value_size (snd kv)) d)))%nat.
Proof.
  induction d as [|[k0 v0] d IH]; intros Hin; [contradiction|].
  cbn [map list_sum fold_right snd].
  fold (list_sum (map (fun kv : string * value => value_size (snd kv)) d)).
  destruct Hin as [Heq|Hin]; [injection Heq as _ ->; lia|]. specialize (IH Hin). lia.
Qed.

Lemma py_eq_refl_sized n : forall v,
  (value_size v < n)%nat -> well_keyed v = true -> py_eq v v = true.
Proof.
  induction n as [|n IH]; intros v Hn Hk; [lia|].
  destruct v as [| b | z | s | l | d]; cbn [py_eq].
  - reflexivity.
  - destruct b; reflexivity.
  - apply Z.eqb_refl.
  - apply String.eqb_refl.
  - cbn [well_keyed value_size] in *.
    assert (Hall : forall x, In x l -> py_eq x x = true).
    { intros x Hin. apply IH.
      - pose proof (value_size_item x l Hin). lia.
      - rewrite forallb_forall in Hk. apply Hk. exact Hin. }
    clear Hn Hk. induction l as [|x l IHl]; [reflexivity|].
    rewrite (Hall x (or_introl eq_refl)). cbn [andb].
    apply IHl. intros y Hy. apply Hall. right. exact Hy.
  - cbn [well_keyed value_size] in *. apply andb_prop in Hk as [Hu Hk].
    rewrite Nat.eqb_refl. cbn [andb].
    assert (Hall : forall k v, In (k, v) d ->
                     dict_lookup k d = Some v /\ py_eq v v = true).
    { intros k v Hin. split; [apply unique_lookup_in; assumption|].
      apply IH.
      - pose proof (value_size_entry k v d Hin). lia.
      - rewrite forallb_forall in Hk. apply (Hk (k, v)). exact Hin. }
    clear Hn Hk Hu.
    match goal with
    | |- ?go d = true =>
        assert (Haux : forall d0, (forall kv, In kv d0 -> In kv d) -> go d0 = true)
    end.
    { induction d0 as [|[k v] d0 IHd]; intros Hsub; [reflexivity|].
      destruct (Hall k v (Hsub _ (or_introl eq_refl))) as [-> ->]. cbn [andb].
      apply IHd. intros kv Hin. apply Hsub. right. exact Hin. }
    apply Haux. intros kv H. exact H.
Qed.

Lemma py_eq_refl v : well_keyed v = true -> py_eq v v = true.
Proof. apply (py_eq_refl_sized (S (value_size v))). lia. Qed.

Lemma compare_same_sized n : forall v,
  (value_size v < n)%nat -> well_keyed v = true ->
  forall path, compare_values path v v = [].
Proof.
  induction n as [|n IH]; intros v Hn Hk path; [lia|].
  destruct v as [| b | z | s | l | d]; cbn [compare_values];
    try (rewrite String.eqb_refl; reflexivity).
  - cbn [well_keyed value_size] in *.
    assert (Hall : forall x, In x l -> py_eq x x = true).
    { intros x Hin. apply py_eq_refl. rewrite forallb_forall in Hk. apply Hk. exact Hin. }
    clear Hn Hk IH.
    match goal with
    | |- ?go O l l = [] =>
        assert (Haux : forall l0 i, (forall x, In x l0 -> In x l) -> go i l0 l0 = [])
    end.
    { induction l0 as [|x l0 IHl]; intros i Hsub; [reflexivity|].
      rewrite (Hall x (Hsub _ (or_introl eq_refl))). cbn [app].
      apply IHl. intros y Hy. apply Hsub. right. exact Hy. }
    apply Haux. intros x H. exact H.
  - cbn [well_keyed value_size] in *. apply andb_prop in Hk as [Hu Hk].
    assert (Hall : forall k v, In (k, v) d ->
                     dict_lookup k d = Some v
                     /\ forall p, compare_values p v v = []).
    { intros k v Hin. split; [apply unique_lookup_in; assumption|].
      apply IH.
      - pose proof (value_size_entry k v d Hin). lia.
      - rewrite forallb_forall in Hk. apply (Hk (k, v)). exact Hin. }
    assert (Hhas : forall kv, In kv d -> dict_has (fst kv) d = true).
    { intros [k v] Hin. unfold dict_has. cbn [fst].
      destruct (Hall k v Hin) as [-> _]. reflexivity. }
    assert (Hnone : forall (f : string * value -> list value) (d0 : dict),
              (forall kv, In kv d0 -> In kv d) ->
              flat_map (fun kv => if dict_has (fst kv) d then [] else f kv) d0 = []).
    { intros f d0. induction d0 as [|kv d0 IHd]; intros Hsub; [reflexivity|].
      cbn [flat_map]. rewrite (Hhas kv (Hsub _ (or_introl eq_refl))).
      apply IHd. intros kv' Hin. apply Hsub. right. exact Hin. }
    rewrite (Hnone (fun kv => [op_remove (path_join path (fst kv))]) d)
      by (intros kv H; exact H).
    rewrite (Hnone (fun kv => [op_add (path_join path (fst kv)) (snd kv)]) d)
      by (intros kv H; exact H).
    cbn [app]. clear Hn Hk Hu Hhas Hnone.
    match goal with
    | |- ?go d = [] =>
        assert (Haux : forall d0, (forall kv, In kv d0 -> In kv d) -> go d0 = [])
    end.
    { induction d0 as [|[k v] d0 IHd]; intros Hsub; [reflexivity|].
      destruct (Hall k v (Hsub _ (or_introl eq_refl))) as [-> Hsame].
      rewrite Hsame. cbn [app]. apply IHd. intros kv Hin. apply Hsub. right. exact Hin. }
    apply Haux. intros kv H. exact H.
Qed.

(** The patch of a value against itself is empty. *)
Lemma make_patch_same v : well_keyed v = true -> make_patch v v = [].
Proof.
  intros Hk. unfold make_patch. apply (compare_same_sized (S (value_size v))); [lia | exact Hk].
Qed.

Lemma dict_lookup_in k v d : dict_lookup k d = Some v -> In (k, v) d.
Proof.
  induction d as [|[k0 v0] d IH]; [discriminate|]. cbn [dict_lookup].
  destruct (String.eqb k k0) eqn:E.
  - apply String.eqb_eq in E. subst k0. intros H. injection H as ->. left. reflexivity.
  - intros H. right. apply IH. exact H.
Qed.

Lemma well_keyed_lookup k v d :
  well_keyed (VDict d) = true -> dict_lookup k d = Some v -> well_keyed v = true.
Proof.
  cbn [well_keyed]. intros H Hl. apply andb_prop in H as [_ H].
  rewrite forallb_forall in H. apply (H (k, v)). apply dict_lookup_in. exact Hl.
Qed.

Lemma well_keyed_set k x d :
  well_keyed (VDict d) = true -> well_keyed x = true ->
  well_keyed (VDict (dict_set k x d)) = true.
Proof.
  cbn [well_keyed]. intros H Hx. apply andb_prop in H as [Hu H].
  rewrite (unique_keys_set k x d Hu). cbn [andb].
  clear Hu. induction d as [|[k0 v0] d IH]; cbn [dict_set forallb snd].
  - rewrite Hx. reflexivity.
  - cbn [forallb snd] in H. apply andb_prop in H as [H0 H].
    destruct (String.eqb k k0); cbn [forallb snd].
    + rewrite Hx, H. reflexivity.
    + rewrite H0, (IH H). reflexivity.
Qed.

Lemma setitem_at_keyed k x path : forall v v',
  setitem_at v path k x = Ok v' ->
  well_keyed v = true -> well_keyed x = true -> well_keyed v' = true.
Proof.
  induction path as [|key rest IH]; intros v v' Hset Hv Hx; cbn [setitem_at] in Hset.
  - destruct v; try discriminate Hset. injection Hset as <-.
    apply well_keyed_set; assumption.
  - destruct v as [| | | | |d]; try discriminate Hset.
    destruct (dict_lookup key d) as [sub|] eqn:Hl; [|discriminate Hset].
    destruct (setitem_at sub rest k x) as [sub'|e] eqn:Hs; [|discriminate Hset].
    injection Hset as <-. apply well_keyed_set; [exact Hv|].
    apply (IH sub sub' Hs); [|exact Hx]. apply (well_keyed_lookup key sub d Hv Hl).
Qed.

Lemma keeps_keyed_ret {A} l (a : A) : keeps_keyed l (ret a).
Proof. intros w H. exact H. Qed.

Lemma keeps_keyed_bind {A B} l (m : M A) (f : A -> M B) :
  keeps_keyed l m -> (forall a, keeps_keyed l (f a)) -> keeps_keyed l (bind m f).
Proof.
  intros Hm Hf w Hw. unfold bind. specialize (Hm w Hw).
  destruct (m w) as [[a|e] w1]; cbn [snd] in *; [apply Hf; exact Hm | exact Hm].
Qed.

Lemma keeps_keyed_contains l l' path k : keeps_keyed l (contains l' path k).
Proof.
  intros w Hw. unfold contains, bind, deref, lift.
  destruct (heap w !! l'); [|exact Hw].
  destruct (resolve _ path); exact Hw.
Qed.

Lemma keeps_keyed_getitem l l' path k : keeps_keyed l (getitem l' path k).
Proof.
  intros w Hw. unfold getitem, bind, deref, lift, ret.
  destruct (heap w !! l'); [|exact Hw].
  destruct (resolve _ _); exact Hw.
Qed.

Lemma keeps_keyed_setitem l path k x :
  well_keyed x = true -> keeps_keyed l (setitem l path k x).
Proof.
  intros Hx w Hw. unfold setitem, bind, deref, lift.
  destruct (heap w !! l) as [v|] eqn:Hv; [|exact Hw].
  destruct (setitem_at v path k x) as [v'|e] eqn:Hs; [|exact Hw].
  intros v0. cbn. rewrite lookup_insert_eq. intros H. injection H as <-.
  apply (setitem_at_keyed k x path v v' Hs); [apply Hw; exact Hv | exact Hx].
Qed.

Lemma keeps_keyed_mutate l : keeps_keyed l (mutate_odoo_instance l).
Proof.
  unfold mutate_odoo_instance.
  repeat first
    [ apply keeps_keyed_contains
    | apply keeps_keyed_getitem
    | apply keeps_keyed_ret
    | apply keeps_keyed_setitem; reflexivity
    | match goal with |- keeps_keyed _ (if ?b then _ else _) => destruct b end
    | apply keeps_keyed_bind; [|intros ?] ].
Qed.

(** The mutating webhook never patches anything.  For every review
    request whose object is a well-keyed dictionary with a specification
    and an ingress block that are dictionaries when present, with the
    [jsonpatch] module installed, the route answers 200 with a review
    that allows the object and carries the encoding of the empty patch
    [[]]: [mutate_odoo_instance] returns the object it was given, so
    the patch is made between the object and itself. *)
Theorem mutating_webhook_patch_is_always_empty (ri rd i sd g : dict) (w : World) :
  ri <> [] ->
  dict_get ri "request" (VDict []) = VDict rd ->
  dict_get rd "object" (VDict []) = VDict i ->
  well_keyed (VDict i) = true ->
  dict_get i "spec" (VDict []) = VDict sd ->
  dict_get sd "ingress" (VDict []) = VDict g ->
  installed w "jsonpatch" = true ->
  exists response w',
    mutate_odoo_instance_webhook (VDict ri) w
    = (Ok (admission_review response, OK_STATUS), w')
    /\ dict_lookup "uid" response = Some (dict_get rd "uid" (VStr ""))
    /\ dict_lookup "allowed" response = Some (VBool true)
    /\ dict_lookup "patch" response = Some (VStr (b64 "[]")).
Proof.
  intros Hne Hreq Hobj Hkeyed Hspec Hing Hinst.
  unfold mutate_odoo_instance_webhook.
  destruct ri as [|kv ri]; [contradiction|]. cbn [truthy negb].
  cbn [py_get]. rewrite Hreq.
  rewrite (bind_ok (lift (Ok (VDict rd))) _ w (VDict rd) w eq_refl).
  cbn [py_get].
  rewrite (bind_ok (lift (Ok (dict_get rd "uid" (VStr "")))) _ w _ w eq_refl).
  set (l := fresh_from (heap w) (S (size (heap w))) O).
  set (w1 := set_heap (insert l (VDict i)) w).
  destruct (mutate_run l i sd g w1 (heap_set_heap _ _ _) Hspec Hing)
    as (i' & sd' & g' & Hrun & _).
  assert (Hk' : well_keyed (VDict i') = true).
  { pose proof (keeps_keyed_mutate l w1) as H. rewrite Hrun in H. cbn [snd] in H.
    apply H; [|apply heap_set_heap].
    intros v Hv. subst w1. rewrite heap_set_heap in Hv. injection Hv as <-. exact Hkeyed. }
  assert (Hpatch : mutation_patch (VDict rd) w
                   = (Ok [], set_heap (insert l (VDict i')) w1)).
  { unfold mutation_patch. cbn [py_get]. rewrite Hobj.
    rewrite (bind_ok (lift (Ok (VDict i))) _ w (VDict i) w eq_refl).
    rewrite (bind_ok (alloc (VDict i)) _ w l w1 eq_refl).
    rewrite (bind_ok _ _ _ _ _ Hrun).
    assert (Himp : import_module "jsonpatch" (set_heap (insert l (VDict i')) w1)
                   = (Ok tt, set_heap (insert l (VDict i')) w1)).
    { unfold import_module. cbn [installed set_heap]. subst w1. cbn [installed set_heap].
      rewrite Hinst. reflexivity. }
    rewrite (bind_ok _ _ _ _ _ Himp).
    assert (Hderef : deref l (set_heap (insert l (VDict i')) w1)
                     = (Ok (VDict i'), set_heap (insert l (VDict i')) w1)).
    { unfold deref. rewrite heap_set_heap. reflexivity. }
    rewrite (bind_ok _ _ _ _ _ Hderef). rewrite (bind_ok _ _ _ _ _ Hderef).
    rewrite (make_patch_same _ Hk'). reflexivity. }
  unfold try_except. rewrite (bind_ok _ _ _ _ _ Hpatch). unfold ret.
  eexists _, _. split; [reflexivity|]. split; [reflexivity|].
  split; [reflexivity|]. vm_compute. reflexivity.
Qed.

Lemma mutating_webhook_patch_is_always_empty_witness :
  exists response w',
    mutate_odoo_instance_webhook (admission_request instance_minimal) bare_world
    = (Ok (admission_review response, OK_STATUS), w')
    /\ dict_lookup "allowed" response = Some (VBool true)
    /\ dict_lookup "patch" response = Some (VStr (b64 "[]")).
Proof.
  destruct (mutating_webhook_patch_is_always_empty
              [("request", VDict [("uid", VStr "705ab4f5"); ("object", instance_minimal)])]
              [("uid", VStr "705ab4f5"); ("object", instance_minimal)]
              [("apiVersion", VStr "odoo.bemade.org/v1");
               ("kind", VStr "OdooInstance");
               ("metadata", VDict [("name", VStr "demo"); ("namespace", VStr "default")]);
               ("spec", VDict [("version", VStr "17.0")])]
              [("version", VStr "17.0")] [] bare_world)
    as (response & w' & Hrun & _ & Hallowed & Hpatch).
  - discriminate.
  - reflexivity.
  - reflexivity.
  - reflexivity.
  - reflexivity.
  - reflexivity.
  - reflexivity.
  - exists response, w'. split; [exact Hrun|]. split; [exact Hallowed | exact Hpatch].
Defined.

(** ** Credentials read back as written *)

Lemma below_in n m : (m < N.of_nat n)%N -> In m (below n).
Proof.
  intros H. unfold below. apply in_map_iff. exists (N.to_nat m).
  split; [apply N2Nat.id|]. apply in_seq. lia.
Qed.

Lemma pairs_checked :
  forallb (fun a => forallb (pair_ok a) (below 256)) (below 256) = true.
Proof. vm_compute. reflexivity. Qed.

Lemma sextets_checked : forallb sextet_ok (below 64) = true.
Proof. vm_compute. reflexivity. Qed.

Lemma pair_facts a b :
  (a < 256)%N -> (b < 256)%N ->
  let hi := (N.shiftl (N.land a 3) 4 + N.shiftr b 4)%N in
  let lo := (N.shiftl (N.land a 15) 2 + N.shiftr b 6)%N in
  ((N.shiftr a 2 < 64)%N /\ (hi < 64)%N /\ (lo < 64)%N /\ (N.land b 63 < 64)%N)
  /\ N.lor (N.shiftl (N.shiftr a 2) 2) (N.shiftr hi 4) = a
  /\ N.land hi 15 = N.shiftr b 4
  /\ N.lor (N.shiftl (N.shiftr a 4) 4) (N.shiftr lo 2) = a
  /\ N.land lo 3 = N.shiftr b 6
  /\ N.lor (N.shiftl (N.shiftr b 6) 6) (N.land b 63) = b.
Proof.
  intros Ha Hb hi lo.
  pose proof pairs_checked as H. rewrite forallb_forall in H.
  specialize (H a (below_in 256 a Ha)). rewrite forallb_forall in H.
  specialize (H b (below_in 256 b Hb)). unfold pair_ok in H. fold hi lo in H.
  repeat (apply andb_prop in H as [H ?]).
  repeat match goal with
         | X : (_ <? _)%N = true |- _ => apply N.ltb_lt in X
         | X : (_ =? _)%N = true |- _ => apply N.eqb_eq in X
         end.
  repeat split; assumption.
Qed.

Lemma sextet_facts n :
  (n < 64)%N ->
  b64_index (b64_char n) = Some n
  /\ Ascii.eqb (b64_char n) "="%char = false
  /\ (N_of_ascii (b64_char n) <? 128)%N = true.
Proof.
  intros Hn. pose proof sextets_checked as H. rewrite forallb_forall in H.
  specialize (H n (below_in 64 n Hn)). unfold sextet_ok in H.
  apply andb_prop in H as [H H3]. apply andb_prop in H as [H1 H2].
  apply negb_true_iff in H2.
  destruct (b64_index (b64_char n)) as [m|]; [|discriminate H1].
  apply N.eqb_eq in H1. subst m. repeat split; assumption.
Qed.

Lemma a2b_sextet n rest quad_pos leftchar pads count :
  (n < 64)%N ->
  a2b_base64 (String (b64_char n) rest) quad_pos leftchar pads count
  = let emit (byte : N) (r : Result string) : Result string :=
      match r with
      | Ok out => Ok (String (ascii_of_N byte) out)
      | Raise e => Raise e
      end in
    match quad_pos with
    | O => a2b_base64 rest 1 n 0 (S count)
    | 1%nat => emit (N.lor (N.shiftl leftchar 2) (N.shiftr n 4))
                 (a2b_base64 rest 2 (N.land n 15) 0 (S count))
    | 2%nat => emit (N.lor (N.shiftl leftchar 4) (N.shiftr n 2))
                 (a2b_base64 rest 3 (N.land n 3) 0 (S count))
    | _ => emit (N.lor (N.shiftl leftchar 6) n) (a2b_base64 rest 0 0%N 0 (S count))
    end.
Proof.
  intros Hn. destruct (sextet_facts n Hn) as (Hi & He & _).
  cbn [a2b_base64]. rewrite He, Hi. reflexivity.
Qed.

Lemma a2b_round_trip n : forall l count,
  (length l < n)%nat ->
  Forall (fun a => (a < 256)%N) l ->
  a2b_base64 (b64encode_bytes l) 0 0%N 0 count
  = Ok (string_of_list_ascii (map ascii_of_N l)).
Proof.
  induction n as [|n IH]; intros l count Hlen Hall; [lia|].
  destruct l as [|a [|b [|c rest]]].
  - reflexivity.
  - apply Forall_cons_iff in Hall as [Ha _].
    destruct (pair_facts a 0 Ha) as ((H1 & H2 & _) & F1 & _); [lia|].
    cbn [N.shiftr N.add] in H2, F1. rewrite N.add_0_r in H2, F1.
    cbn [b64encode_bytes].
    rewrite (a2b_sextet _ _ _ _ _ _ H1). cbv zeta. cbv iota.
    rewrite (a2b_sextet _ _ _ _ _ _ H2). cbv zeta. cbv iota.
    rewrite F1. reflexivity.
  - apply Forall_cons_iff in Hall as [Ha Hall]. apply Forall_cons_iff in Hall as [Hb _].
    destruct (pair_facts a b Ha Hb) as ((H1 & H2 & _) & F1 & F1' & _).
    destruct (pair_facts b 0 Hb) as ((_ & _ & H3 & _) & _ & _ & F2 & _); [lia|].
    cbn [N.shiftr N.add] in H3, F2. rewrite N.add_0_r in H3, F2.
    cbn [b64encode_bytes].
    rewrite (a2b_sextet _ _ _ _ _ _ H1). cbv zeta. cbv iota.
    rewrite (a2b_sextet _ _ _ _ _ _ H2). cbv zeta. cbv iota.
    rewrite (a2b_sextet _ _ _ _ _ _ H3). cbv zeta. cbv iota.
    rewrite F1, F1', F2. reflexivity.
  - apply Forall_cons_iff in Hall as [Ha Hall]. apply Forall_cons_iff in Hall as [Hb Hall].
    apply Forall_cons_iff in Hall as [Hc Hall].
    destruct (pair_facts a b Ha Hb) as ((H1 & H2 & _) & F1 & F1' & _).
    destruct (pair_facts b c Hb Hc) as ((_ & _ & H3 & H4) & _ & _ & F2 & F2' & F3).
    cbn [b64encode_bytes].
    rewrite (a2b_sextet _ _ _ _ _ _ H1). cbv zeta. cbv iota.
    rewrite (a2b_sextet _ _ _ _ _ _ H2). cbv zeta. cbv iota.
    rewrite (a2b_sextet _ _ _ _ _ _ H3). cbv zeta. cbv iota.
    rewrite (a2b_sextet _ _ _ _ _ _ H4). cbv zeta. cbv iota.
    rewrite F1, F1', F2, F2', F3.
    rewrite (IH rest _); [reflexivity | cbn [length] in Hlen; lia | exact Hall].
Qed.

Lemma b64encode_ascii l :
  Forall (fun a => (a < 256)%N) l ->
  forallb (fun c => (N_of_ascii c <? 128)%N) (list_ascii_of_string (b64encode_bytes l)) = true.
Proof.
  assert (Haux : forall n, (length l < n)%nat ->
            Forall (fun a => (a < 256)%N) l ->
            forallb (fun c => (N_of_ascii c <? 128)%N)
              (list_ascii_of_string (b64encode_bytes l)) = true).
  { intros n. revert l. induction n as [|n IH]; intros l Hlen Hall; [lia|].
    destruct l as [|a [|b [|c rest]]].
    - reflexivity.
    - apply Forall_cons_iff in Hall as [Ha _].
      destruct (pair_facts a 0 Ha) as ((H1 & H2 & _) & _); [lia|].
      cbn [N.shiftr N.add] in H2. rewrite N.add_0_r in H2.
      destruct (sextet_facts _ H1) as (_ & _ & A1).
      destruct (sextet_facts _ H2) as (_ & _ & A2).
      cbn [b64encode_bytes list_ascii_of_string forallb]. rewrite A1, A2. reflexivity.
    - apply Forall_cons_iff in Hall as [Ha Hall]. apply Forall_cons_iff in Hall as [Hb _].
      destruct (pair_facts a b Ha Hb) as ((H1 & H2 & _) & _).
      destruct (pair_facts b 0 Hb) as ((_ & _ & H3 & _) & _); [lia|].
      cbn [N.shiftr N.add] in H3. rewrite N.add_0_r in H3.
      destruct (sextet_facts _ H1) as (_ & _ & A1).
      destruct (sextet_facts _ H2) as (_ & _ & A2).
      destruct (sextet_facts _ H3) as (_ & _ & A3).
      cbn [b64encode_bytes list_ascii_of_string forallb]. rewrite A1, A2, A3. reflexivity.
    - apply Forall_cons_iff in Hall as [Ha Hall]. apply Forall_cons_iff in Hall as [Hb Hall].
      apply Forall_cons_iff in Hall as [Hc Hall].
      destruct (pair_facts a b Ha Hb) as ((H1 & H2 & _) & _).
      destruct (pair_facts b c Hb Hc) as ((_ & _ & H3 & H4) & _).
      destruct (sextet_facts _ H1) as (_ & _ & A1).
      destruct (sextet_facts _ H2) as (_ & _ & A2).
      destruct (sextet_facts _ H3) as (_ & _ & A3).
      destruct (sextet_facts _ H4) as (_ & _ & A4).
      cbn [b64encode_bytes list_ascii_of_string forallb]. rewrite A1, A2, A3, A4.
      cbn [andb]. apply IH; [cbn [length] in Hlen; lia | exact Hall]. }
  apply (Haux (S (length l))). lia.
Qed.

Lemma bytes_of_bounded s : Forall (fun a => (a < 256)%N) (bytes_of s).
Proof.
  unfold bytes_of. apply List.Forall_forall. intros a Hin.
  apply in_map_iff in Hin as (c & <- & _). apply N_ascii_bounded.
Qed.

(** Decoding undoes encoding, for every byte string. *)
Lemma b64_round_trip (b : string) : b64decode (b64encode b) = Ok b.
Proof.
  unfold b64decode, b64encode.
  rewrite (b64encode_ascii _ (bytes_of_bounded b)).
  rewrite (a2b_round_trip (S (length (bytes_of b))) _ _ (Nat.lt_succ_diag_r _)
             (bytes_of_bounded b)).
  unfold bytes_of. rewrite map_map.
  rewrite (map_ext _ (fun c => c)) by (intros c; apply ascii_N_embedding).
  rewrite map_id. rewrite string_of_list_ascii_of_string. reflexivity.
Qed.

Lemma utf8_encode_cons c s :
  utf8_encode (String c s) = (utf8_encode (String c EmptyString) ++ utf8_encode s)%string.
Proof. cbn [utf8_encode]. destruct (N_of_ascii c <? 128)%N; reflexivity. Qed.

Lemma utf8_decode_char c r :
  utf8_decode (utf8_encode (String c EmptyString) ++ r)
  = match utf8_decode r with
    | Ok s => Ok (String c s)
    | Raise e => Raise e
    end.
Proof. destruct c as [[] [] [] [] [] [] [] []]; reflexivity. Qed.

Lemma utf8_round_trip (s : string) : utf8_decode (utf8_encode s) = Ok s.
Proof.
  induction s as [|c s IH]; [reflexivity|].
  rewrite utf8_encode_cons, utf8_decode_char, IH. reflexivity.
Qed.

Lemma b64_read_back (s : string) :
  match b64decode (b64 s) with
  | Ok raw => utf8_decode raw
  | Raise x => Raise x
  end = Ok s.
Proof. unfold b64. rewrite b64_round_trip. apply utf8_round_trip. Qed.

(** The credentials secret reads back as written.  When
    [create_db_credentials_secret] creates the secret, in a world
    without scheduled failures that knows the instance, each of its
    five keys decodes (base64, then UTF-8) to the value that was
    given: host and port of the server, user, password and database. *)
Theorem credentials_read_back
  (environ : string -> option string) (name namespace db_user db_password db_name : string)
  (w : World) (obj uid : value) :
  calm w ->
  instances w !! (namespace, name) = Some obj ->
  value_at [Attr "metadata"; Attr "uid"] obj = Some uid ->
  cluster w !! (Secret, namespace, "odoo-db-credentials-" ++ name) = None ->
  db_name <> "" ->
  let run := create_db_credentials_secret environ name namespace db_user db_password
               (Some db_name) w in
  fst run = Ok tt
  /\ exists secret,
       cluster (snd run) !! (Secret, namespace, "odoo-db-credentials-" ++ name) = Some secret
       /\ secret_field secret "host" = Ok (DB_HOST environ)
       /\ secret_field secret "port" = Ok (DB_PORT environ)
       /\ secret_field secret "username" = Ok db_user
       /\ secret_field secret "password" = Ok db_password
       /\ secret_field secret "database" = Ok db_name.
Proof.
  intros Hcalm Hobj Huid Hfree Hname run. subst run.
  unfold create_db_credentials_secret.
  rewrite (bind_ok _ _ _ _ _ (owner_references_value name namespace w obj uid Hobj Huid
                                (Hcalm _ _))).
  apply String.eqb_neq in Hname. rewrite Hname.
  unfold try_except.
  erewrite bind_ok; cycle 1.
  { apply (create_namespaced_absent Secret namespace _ ("odoo-db-credentials-" ++ name));
      [reflexivity | apply Hcalm | exact Hfree]. }
  unfold logger. cbn [fst snd cluster set_cluster set_log].
  split; [reflexivity|]. eexists. split; [apply lookup_insert_eq|].
  unfold secret_field. cbn [value_at dict_lookup String.eqb Ascii.eqb Bool.eqb app].
  repeat split; apply b64_read_back.
Qed.

Lemma credentials_read_back_witness :
  let run := create_db_credentials_secret no_environ "demo" "default"
               "odoo_user_default_demo" "first" (Some "odoo_default_demo") demo_world in
  exists secret,
    cluster (snd run) !! (Secret, "default", "odoo-db-credentials-demo") = Some secret
    /\ secret_field secret "username" = Ok "odoo_user_default_demo"
    /\ secret_field secret "password" = Ok "first".
Proof.
  destruct (credentials_read_back no_environ "demo" "default"
              "odoo_user_default_demo" "first" "odoo_default_demo" demo_world
              demo_instance (VStr "7d3c2a9e"))
    as (_ & secret & Hs & _ & _ & Hu & Hp & _).
  - intros n ep. reflexivity.
  - reflexivity.
  - reflexivity.
  - reflexivity.
  - discriminate.
  - exists secret. split; [exact Hs|]. split; [exact Hu | exact Hp].
Defined.

(** The administrator password reads back as stored: when the
    administrator secret holds the encoding of a password under the
    configured key and no failure is scheduled, reading it yields that
    password. *)
Theorem admin_password_read_back
  (environ : string -> option string) (namespace password : string)
  (w : World) (secret : value) :
  calm w ->
  cluster w !! (Secret,
                if String.eqb (DB_ADMIN_PASSWORD_SECRET_NAMESPACE environ) ""
                then namespace else DB_ADMIN_PASSWORD_SECRET_NAMESPACE environ,
                DB_ADMIN_PASSWORD_SECRET environ) = Some secret ->
  value_at [Attr "data"; Attr (DB_ADMIN_PASSWORD_SECRET_KEY environ)] secret
  = Some (VStr (b64 password)) ->
  fst (read_admin_password environ namespace w) = Ok password.
Proof.
  intros Hcalm Hsecret Hdata.
  unfold read_admin_password, try_except.
  assert (Hread : read_namespaced Secret (DB_ADMIN_PASSWORD_SECRET environ)
                    (if String.eqb (DB_ADMIN_PASSWORD_SECRET_NAMESPACE environ) ""
                     then namespace else DB_ADMIN_PASSWORD_SECRET_NAMESPACE environ) w
                  = (Ok secret, tick w)).
  { unfold read_namespaced. rewrite external_calm by exact Hcalm.
    cbn [cluster tick]. rewrite Hsecret. reflexivity. }
  rewrite (bind_ok _ _ _ _ _ Hread).
  destruct secret as [| | | | |d]; try discriminate Hdata.
  cbn [value_at] in Hdata. cbn [py_attr]. unfold dict_get.
  destruct (dict_lookup "data" d) as [data|]; [|discriminate Hdata].
  destruct data as [| | | | |dd]; try discriminate Hdata.
  rewrite (bind_ok (lift (Ok (VDict dd))) _ _ (VDict dd) _ eq_refl).
  cbn [subscript].
  destruct (dict_lookup (DB_ADMIN_PASSWORD_SECRET_KEY environ) dd) as [e|];
    [|discriminate Hdata].
  injection Hdata as ->.
  rewrite (bind_ok (lift (Ok (VStr (b64 password)))) _ _ (VStr (b64 password)) _ eq_refl).
  pose proof (b64_read_back password) as Hback.
  unfold bind, lift. destruct (b64decode (b64 password)) as [raw|x]; [|discriminate Hback].
  rewrite Hback. reflexivity.
Qed.

Lemma admin_password_read_back_witness :
  fst (read_admin_password no_environ "default" demo_world) = Ok "s3cret".
Proof.
  apply (admin_password_read_back no_environ "default" "s3cret" demo_world
           (VDict [("data", VDict [("password", VStr (b64 "s3cret"))])])).
  - intros n ep. reflexivity.
  - reflexivity.
  - reflexivity.
Defined.

(** ** What an update leaves in the cluster *)

Lemma spares_ret {A} key (a : A) : spares key (ret a).
Proof. intros w. reflexivity. Qed.

Lemma spares_raise {A} key e : spares key (@raise A e).
Proof. intros w. reflexivity. Qed.

Lemma spares_lift {A} key (r : Result A) : spares key (lift r).
Proof. intros w. reflexivity. Qed.

Lemma spares_logger key lvl msg : spares key (logger lvl msg).
Proof. intros w. reflexivity. Qed.

Lemma spares_bind {A B} key (m : M A) (f : A -> M B) :
  spares key m -> (forall a, spares key (f a)) -> spares key (bind m f).
Proof.
  intros Hm Hf w. unfold bind. specialize (Hm w).
  destruct (m w) as [[a|e] w1]; cbn [snd] in *; [|exact Hm].
  rewrite (Hf a w1). exact Hm.
Qed.

Lemma spares_bind_lift {A B} key (r : Result A) (f : A -> M B) :
  (forall a, r = Ok a -> spares key (f a)) -> spares key (bind (lift r) f).
Proof.
  intros Hf w. unfold bind, lift. destruct r as [a|e]; [|reflexivity].
  apply (Hf a eq_refl).
Qed.

Lemma spares_try {A} key (body : M A) handler :
  spares key body ->
  (forall e h, handler e = Some h -> spares key h) ->
  spares key (try_except body handler).
Proof.
  intros Hb Hh w. unfold try_except. specialize (Hb w).
  destruct (body w) as [[a|e] w1]; cbn [snd] in *; [exact Hb|].
  destruct (handler e) as [h|] eqn:E; [|exact Hb].
  rewrite (Hh e h E w1). exact Hb.
Qed.

Lemma spares_external {A} key ep (usual : M A) :
  (forall w, cluster (snd (usual (tick w))) !! key = cluster w !! key) ->
  spares key (external ep usual).
Proof.
  intros Hu w. unfold external. destruct (faults w (clock w) ep); [reflexivity|]. apply Hu.
Qed.

Lemma spares_read_namespaced key k name namespace :
  spares key (read_namespaced k name namespace).
Proof.
  apply spares_external. intros w. cbn [cluster tick].
  destruct (cluster w !! _); reflexivity.
Qed.

Lemma spares_get_custom_object key namespace name :
  spares key (get_namespaced_custom_object namespace name).
Proof.
  apply spares_external. intros w. cbn [instances tick].
  destruct (instances w !! _); reflexivity.
Qed.

Lemma spares_patch_status_call key namespace name body :
  spares key (patch_namespaced_custom_object_status namespace name body).
Proof.
  apply spares_external. intros w. cbn [instances tick].
  destruct (instances w !! _); reflexivity.
Qed.

Lemma spares_create_other k0 ns0 n0 k namespace body :
  k <> k0 -> spares (k0, ns0, n0) (create_namespaced k namespace body).
Proof.
  intros Hne. apply spares_external. intros w.
  destruct (metadata_name body) as [n|]; [|reflexivity]. cbn [cluster tick].
  destruct (cluster w !! (k, namespace, n)); [reflexivity|].
  cbn. apply lookup_insert_ne. congruence.
Qed.

Lemma spares_create_named k0 ns0 n0 k namespace body n :
  metadata_name body = Some n -> n <> n0 ->
  spares (k0, ns0, n0) (create_namespaced k namespace body).
Proof.
  intros Hn Hne. apply spares_external. intros w. rewrite Hn. cbn [cluster tick].
  destruct (cluster w !! (k, namespace, n)); [reflexivity|].
  cbn. apply lookup_insert_ne. congruence.
Qed.

Lemma spares_patch_other k0 ns0 n0 k name namespace body :
  k <> k0 -> spares (k0, ns0, n0) (patch_namespaced k name namespace body).
Proof.
  intros Hne. apply spares_external. intros w. cbn [cluster tick].
  destruct (cluster w !! (k, namespace, name)); [|reflexivity].
  cbn. apply lookup_insert_ne. congruence.
Qed.

Lemma spares_delete_named k0 ns0 n0 k name namespace :
  name <> n0 -> spares (k0, ns0, n0) (delete_namespaced k name namespace).
Proof.
  intros Hne. apply spares_external. intros w. cbn [cluster tick].
  destruct (cluster w !! (k, namespace, name)); [|reflexivity].
  cbn. apply lookup_delete_ne. congruence.
Qed.

Create HintDb spares discriminated.
#[local] Hint Resolve spares_ret spares_raise spares_lift spares_logger
  spares_read_namespaced spares_get_custom_object spares_patch_status_call : spares.
#[local] Hint Extern 1 (spares _ (create_namespaced _ _ _)) =>
  apply spares_create_other; congruence : spares.
#[local] Hint Extern 1 (spares _ (patch_namespaced _ _ _ _)) =>
  apply spares_patch_other; congruence : spares.

Ltac spares_step :=
  lazymatch goal with
  | |- spares _ (bind _ _) => apply spares_bind; [|intros ?]
  | |- spares _ (try_except _ _) =>
      apply spares_try;
      [|let e := fresh "e" in let h := fresh "h" in let H := fresh "H" in
        intros e h H; destruct e; cbn in H; try discriminate H; injection H as <-]
  | |- spares _ (if ?c then _ else _) => destruct c
  | |- spares _ (let '(_, _) := ?p in _) => destruct p
  | |- spares _ (match ?x with _ => _ end) => destruct x
  | |- spares _ _ => solve [auto with spares]
  end.

Ltac spares_all := cbv zeta; repeat (spares_step; cbv zeta).

Lemma spares_owner_references key name namespace :
  spares key (owner_references name namespace).
Proof. unfold owner_references. spares_all. Qed.
#[local] Hint Resolve spares_owner_references : spares.

Lemma spares_patch_status key name namespace status_patch :
  spares key (patch_status name namespace status_patch).
Proof. unfold patch_status. spares_all. Qed.
#[local] Hint Resolve spares_patch_status : spares.

Lemma spares_log_changes key diff : spares key (log_changes diff).
Proof.
  induction diff as [|[[[op path] old_val] new_val] rest IH]; [apply spares_ret|].
  cbn [log_changes]. apply spares_bind; [apply spares_logger | intros _; exact IH].
Qed.
#[local] Hint Resolve spares_log_changes : spares.

Lemma spares_instance_url key spec : spares key (instance_url spec).
Proof. unfold instance_url. spares_all. Qed.
#[local] Hint Resolve spares_instance_url : spares.

Lemma spares_create_config_map k0 ns0 n0 name namespace spec :
  k0 <> ConfigMap -> spares (k0, ns0, n0) (create_config_map name namespace spec).
Proof. intros Hk. unfold create_config_map. spares_all. Qed.
#[local] Hint Extern 1 (spares _ (create_config_map _ _ _)) =>
  apply spares_create_config_map; congruence : spares.

Lemma spares_update_config_map k0 ns0 n0 name namespace spec :
  k0 <> ConfigMap -> spares (k0, ns0, n0) (update_config_map name namespace spec).
Proof. intros Hk. unfold update_config_map. spares_all. Qed.

Lemma spares_create_service k0 ns0 n0 name namespace spec :
  k0 <> Service -> spares (k0, ns0, n0) (create_service name namespace spec).
Proof. intros Hk. unfold create_service. spares_all. Qed.
#[local] Hint Extern 1 (spares _ (create_service _ _ _)) =>
  apply spares_create_service; congruence : spares.

Lemma spares_update_service k0 ns0 n0 name namespace spec :
  k0 <> Service -> spares (k0, ns0, n0) (update_service name namespace spec).
Proof. intros Hk. unfold update_service. spares_all. Qed.

Lemma spares_create_deployment k0 ns0 n0 environ name namespace spec :
  k0 <> Deployment -> spares (k0, ns0, n0) (create_deployment environ name namespace spec).
Proof. intros Hk. unfold create_deployment. spares_all. Qed.
#[local] Hint Extern 1 (spares _ (create_deployment _ _ _ _)) =>
  apply spares_create_deployment; congruence : spares.

Lemma spares_update_deployment k0 ns0 n0 environ name namespace spec :
  k0 <> Deployment -> spares (k0, ns0, n0) (update_deployment environ name namespace spec).
Proof. intros Hk. unfold update_deployment. spares_all. Qed.

Lemma spares_create_ingress k0 ns0 n0 environ name namespace spec :
  k0 <> Ingress -> spares (k0, ns0, n0) (create_ingress environ name namespace spec).
Proof. intros Hk. unfold create_ingress. spares_all. Qed.

Lemma spares_create_filestore_pvc k0 ns0 n0 environ name namespace spec :
  ("odoo-filestore-" ++ name)%string <> n0 ->
  spares (k0, ns0, n0) (create_filestore_pvc environ name namespace spec).
Proof.
  intros Hn. unfold create_filestore_pvc.
  apply spares_bind; [apply spares_ret | intros filestore_spec].
  apply spares_bind; [apply spares_lift | intros storage_size].
  apply spares_bind; [apply spares_lift | intros storage_class].
  cbv zeta.
  apply spares_bind; [apply spares_owner_references | intros owner].
  apply spares_try.
  - apply (spares_create_named _ _ _ _ _ _ ("odoo-filestore-" ++ name)); [reflexivity|exact Hn].
  - intros e h He. destruct e; try discriminate He. injection He as <-.
    destruct (status =? 409); [apply spares_logger | apply spares_raise].
Qed.

Lemma prefixed_name_differs name : ("odoo-" ++ name)%string <> name.
Proof.
  intros H. apply (f_equal String.length) in H.
  change (S (S (S (S (S (String.length name))))) = String.length name) in H. lia.
Qed.

(** An update that finds ingress switched off deletes the ingress
    [odoo-<name>], while [create_ingress] writes the ingress [<name>]:
    the ingress of the instance is left exactly as it was, whatever the
    cluster holds and whichever calls fail. *)
Theorem disabled_ingress_is_not_removed
  (environ : string -> option string) (spec : dict) (name namespace : string)
  (old : dict) (diff : list (string * list value * value * value)) (w : World)
  (enabled : value) :
  py_get (dict_get spec "ingress" (VDict [])) "enabled" (VBool true) = Ok enabled ->
  truthy enabled = false ->
  cluster (snd (update_odoo_instance environ spec name namespace old diff w))
    !! (Ingress, namespace, name)
  = cluster w !! (Ingress, namespace, name).
Proof.
  intros Hen Hoff.
  assert (H : spares (Ingress, namespace, name)
                (update_odoo_instance environ spec name namespace old diff));
    [|apply H].
  unfold update_odoo_instance.
  apply spares_bind; [apply spares_logger | intros _].
  apply spares_bind; [apply spares_patch_status | intros _].
  apply spares_bind; [apply spares_log_changes | intros _].
  apply spares_try.
  - apply spares_bind; [apply spares_update_config_map; discriminate | intros _].
    apply spares_bind; [apply spares_update_deployment; discriminate | intros _].
    apply spares_bind; [apply spares_update_service; discriminate | intros _].
    apply spares_bind_lift. intros a Ha.
    assert (a = enabled) by congruence. subst a. rewrite Hoff.
    apply spares_bind.
    + apply spares_bind; [apply spares_lift | intros old_enabled].
      apply spares_bind; [|intros _; apply spares_ret].
      destruct (truthy old_enabled); [|apply spares_ret].
      apply spares_try.
      * apply spares_bind; [|intros _; apply spares_logger].
        apply spares_delete_named. apply prefixed_name_differs.
      * intros e h He. destruct e; try discriminate He. injection He as <-.
        destruct (negb (status =? 404)); [apply spares_raise | apply spares_ret].
    + intros url. spares_all.
  - intros e h He. destruct e; try discriminate He. injection He as <-. spares_all.
Qed.

Lemma disabled_ingress_is_not_removed_witness :
  is_Some (cluster world_with_ingress !! (Ingress, "default", "demo"))
  /\ is_Some (cluster (snd (update_odoo_instance no_environ spec_ingress_disabled
                              "demo" "default" spec_ingress_with_hostname []
                              world_with_ingress))
                !! (Ingress, "default", "demo")).
Proof.
  assert (Hthere : is_Some (cluster world_with_ingress !! (Ingress, "default", "demo"))).
  { vm_compute. eexists. reflexivity. }
  split; [exact Hthere|].
  rewrite (disabled_ingress_is_not_removed no_environ spec_ingress_disabled
             "demo" "default" spec_ingress_with_hostname [] world_with_ingress
             (VBool false)).
  - exact Hthere.
  - reflexivity.
  - reflexivity.
Defined.

(** ** Reconciliation and the database server *)

Lemma offline_ret {A} (a : A) : offline (ret a).
Proof. intros w. reflexivity. Qed.

Lemma offline_raise {A} e : offline (@raise A e).
Proof. intros w. reflexivity. Qed.

Lemma offline_lift {A} (r : Result A) : offline (lift r).
Proof. intros w. reflexivity. Qed.

Lemma offline_logger lvl msg : offline (logger lvl msg).
Proof. intros w. reflexivity. Qed.

Lemma offline_bind {A B} (m : M A) (f : A -> M B) :
  offline m -> (forall a, offline (f a)) -> offline (bind m f).
Proof.
  intros Hm Hf w. unfold bind. specialize (Hm w).
  destruct (m w) as [[a|e] w1]; cbn [snd] in *; [|exact Hm].
  rewrite (Hf a w1). exact Hm.
Qed.

Lemma offline_try {A} (body : M A) handler :
  offline body ->
  (forall e h, handler e = Some h -> offline h) ->
  offline (try_except body handler).
Proof.
  intros Hb Hh w. unfold try_except. specialize (Hb w).
  destruct (body w) as [[a|e] w1]; cbn [snd] in *; [exact Hb|].
  destruct (handler e) as [h|] eqn:E; [|exact Hb].
  rewrite (Hh e h E w1). exact Hb.
Qed.

Ltac offline_call :=
  let w := fresh "w" in
  intros w; unfold external;
  destruct (faults w (clock w) _); [reflexivity|];
  repeat match goal with
         | |- context [match ?x with _ => _ end] => destruct x
         end; reflexivity.

Lemma offline_create_namespaced k namespace body :
  offline (create_namespaced k namespace body).
Proof. unfold create_namespaced. offline_call. Qed.

Lemma offline_read_namespaced k name namespace :
  offline (read_namespaced k name namespace).
Proof. unfold read_namespaced. offline_call. Qed.

Lemma offline_patch_namespaced k name namespace body :
  offline (patch_namespaced k name namespace body).
Proof. unfold patch_namespaced. offline_call. Qed.

Lemma offline_delete_namespaced k name namespace :
  offline (delete_namespaced k name namespace).
Proof. unfold delete_namespaced. offline_call. Qed.

Lemma offline_get_custom_object namespace name :
  offline (get_namespaced_custom_object namespace name).
Proof. unfold get_namespaced_custom_object. offline_call. Qed.

Lemma offline_patch_status_call namespace name body :
  offline (patch_namespaced_custom_object_status namespace name body).
Proof. unfold patch_namespaced_custom_object_status. offline_call. Qed.

Create HintDb offline discriminated.
#[local] Hint Resolve offline_ret offline_raise offline_lift offline_logger
  offline_create_namespaced offline_read_namespaced offline_patch_namespaced
  offline_delete_namespaced offline_get_custom_object offline_patch_status_call : offline.

Ltac offline_step :=
  lazymatch goal with
  | |- offline (bind _ _) => apply offline_bind; [|intros ?]
  | |- offline (try_except _ _) =>
      apply offline_try;
      [|let e := fresh "e" in let h := fresh "h" in let H := fresh "H" in
        intros e h H; destruct e; cbn in H; try discriminate H; injection H as <-]
  | |- offline (if ?c then _ else _) => destruct c
  | |- offline (let '(_, _) := ?p in _) => destruct p
  | |- offline (match ?x with _ => _ end) => destruct x
  | |- offline _ => solve [auto with offline]
  end.

Ltac offline_all := cbv zeta; repeat (offline_step; cbv zeta).

Lemma offline_owner_references name namespace : offline (owner_references name namespace).
Proof. unfold owner_references. offline_all. Qed.
#[local] Hint Resolve offline_owner_references : offline.

Lemma offline_patch_status name namespace status_patch :
  offline (patch_status name namespace status_patch).
Proof. unfold patch_status. offline_all. Qed.
#[local] Hint Resolve offline_patch_status : offline.

Lemma offline_log_changes diff : offline (log_changes diff).
Proof.
  induction diff as [|[[[op path] old_val] new_val] rest IH]; [apply offline_ret|].
  cbn [log_changes]. apply offline_bind; [apply offline_logger | intros _; exact IH].
Qed.
#[local] Hint Resolve offline_log_changes : offline.

Lemma offline_create_filestore_pvc environ name namespace spec :
  offline (create_filestore_pvc environ name namespace spec).
Proof. unfold create_filestore_pvc. offline_all. Qed.

Lemma offline_create_config_map name namespace spec :
  offline (create_config_map name namespace spec).
Proof. unfold create_config_map. offline_all. Qed.
#[local] Hint Resolve offline_create_filestore_pvc offline_create_config_map : offline.

Lemma offline_update_config_map name namespace spec :
  offline (update_config_map name namespace spec).
Proof. unfold update_config_map. offline_all. Qed.

Lemma offline_create_service name namespace spec :
  offline (create_service name namespace spec).
Proof. unfold create_service. offline_all. Qed.
#[local] Hint Resolve offline_create_service : offline.

Lemma offline_update_service name namespace spec :
  offline (update_service name namespace spec).
Proof. unfold update_service. offline_all. Qed.

Lemma offline_create_deployment environ name namespace spec :
  offline (create_deployment environ name namespace spec).
Proof. unfold create_deployment. offline_all. Qed.
#[local] Hint Resolve offline_create_deployment : offline.

Lemma offline_update_deployment environ name namespace spec :
  offline (update_deployment environ name namespace spec).
Proof. unfold update_deployment. offline_all. Qed.

Lemma offline_create_ingress environ name namespace spec :
  offline (create_ingress environ name namespace spec).
Proof. unfold create_ingress. offline_all. Qed.
#[local] Hint Resolve offline_create_ingress : offline.

Lemma offline_update_ingress environ name namespace spec :
  offline (update_ingress environ name namespace spec).
Proof. unfold update_ingress. offline_all. Qed.

Lemma offline_instance_url spec : offline (instance_url spec).
Proof. unfold instance_url. offline_all. Qed.
#[local] Hint Resolve offline_update_config_map offline_update_service
  offline_update_deployment offline_update_ingress offline_instance_url : offline.

(** Reconciliation never reaches the database server: whatever the
    specification, the state of the cluster and the failures of the
    calls, a create call and an update call leave the roles, the
    databases and the sessions of the server exactly as they were.  The
    provisioning ([create_database_user]) is called by neither
    handler. *)
Theorem reconciliation_leaves_database_alone
  (environ : string -> option string) (spec : dict) (name namespace : string)
  (old : dict) (diff : list (string * list value * value * value)) (w : World) :
  database_of (snd (create_odoo_instance environ spec name namespace w)) = database_of w
  /\ database_of (snd (update_odoo_instance environ spec name namespace old diff w))
     = database_of w.
Proof.
  split.
  - assert (H : offline (create_odoo_instance environ spec name namespace)); [|apply H].
    unfold create_odoo_instance. offline_all.
  - assert (H : offline (update_odoo_instance environ spec name namespace old diff));
      [|apply H].
    unfold update_odoo_instance. offline_all.
Qed.

(** ** How the created objects refer to each other *)

(** The objects of an instance are wired to each other.  Created in a
    world without scheduled failures that knows the instance, for a
    well-typed specification:
    - the deployment selects, and gives its pods, the labels of the
      instance, and its first container port is [http];
    - the service is stored under the name of the instance, selects the
      same labels and sends its [http] port to the container port
      [http];
    - the ingress routes to the service of that name, at its port
      [http]. *)
Theorem created_objects_are_wired
  (environ : string -> option string) (spec : dict) (name namespace : string)
  (w : World) (obj uid : value) :
  well_typed_spec spec = true ->
  calm w ->
  instances w !! (namespace, name) = Some obj ->
  value_at [Attr "metadata"; Attr "uid"] obj = Some uid ->
  (cluster w !! (Deployment, namespace, name) = None ->
   exists dep,
     cluster (snd (create_deployment environ name namespace spec w))
       !! (Deployment, namespace, name) = Some dep
     /\ value_at [Attr "spec"; Attr "selector"; Attr "matchLabels"] dep
        = Some (instance_labels name)
     /\ value_at [Attr "spec"; Attr "template"; Attr "metadata"; Attr "labels"] dep
        = Some (instance_labels name)
     /\ value_at [Attr "spec"; Attr "template"; Attr "spec"; Attr "containers"; Item 0;
                  Attr "ports"; Item 0; Attr "name"] dep
        = Some (VStr "http"))
  /\ (cluster w !! (Service, namespace, name) = None ->
      exists svc,
        cluster (snd (create_service name namespace spec w))
          !! (Service, namespace, name) = Some svc
        /\ value_at [Attr "spec"; Attr "selector"] svc = Some (instance_labels name)
        /\ value_at [Attr "spec"; Attr "ports"; Item 0; Attr "name"] svc = Some (VStr "http")
        /\ value_at [Attr "spec"; Attr "ports"; Item 0; Attr "targetPort"] svc
           = Some (VStr "http"))
  /\ (cluster w !! (Ingress, namespace, name) = None ->
      exists ing,
        cluster (snd (create_ingress environ name namespace spec w))
          !! (Ingress, namespace, name) = Some ing
        /\ value_at [Attr "spec"; Attr "rules"; Item 0; Attr "http"; Attr "paths"; Item 0;
                     Attr "backend"; Attr "service"; Attr "name"] ing
           = Some (VStr name)
        /\ value_at [Attr "spec"; Attr "rules"; Item 0; Attr "http"; Attr "paths"; Item 0;
                     Attr "backend"; Attr "service"; Attr "port"; Attr "name"] ing
           = Some (VStr "http")).
Proof.
  intros Hspec Hcalm Hobj Huid.
  pose proof (owner_references_value name namespace w obj uid Hobj Huid (Hcalm _ _)) as Hown.
  destruct (well_typed_spec_inv _ Hspec) as (_ & _ & (d & Hd) & Haddons).
  split; [|split].
  - intros Hfree.
    destruct (addon_parts_total _ Haddons) as [[[vs cs] ms] Hparts].
    unfold create_deployment. cbv zeta.
    rewrite (bind_ok _ _ _ _ _ Hown).
    rewrite (bind_pure _ _ _ Hparts). cbv iota beta.
    unfold try_except.
    erewrite bind_ok; cycle 1.
    { apply (create_namespaced_absent Deployment namespace _ name);
        [reflexivity | apply Hcalm | exact Hfree]. }
    cbn [logger snd cluster set_cluster set_log].
    eexists. split; [apply lookup_insert_eq|]. repeat split; reflexivity.
  - intros Hfree. unfold create_service.
    rewrite (bind_ok _ _ _ _ _ Hown). unfold try_except.
    erewrite bind_ok; cycle 1.
    { apply (create_namespaced_absent Service namespace _ name);
        [reflexivity | apply Hcalm | exact Hfree]. }
    cbn [logger snd cluster set_cluster set_log].
    eexists. split; [apply lookup_insert_eq|]. repeat split; reflexivity.
  - intros Hfree. unfold create_ingress. cbv zeta. rewrite Hd. cbn [py_get].
    repeat (erewrite (bind_ok (lift (Ok _))) by reflexivity).
    rewrite (bind_ok _ _ _ _ _ Hown). unfold try_except.
    erewrite bind_ok; cycle 1.
    { apply (create_namespaced_absent Ingress namespace _ name);
        [reflexivity | apply Hcalm | exact Hfree]. }
    cbn [logger snd cluster set_cluster set_log].
    eexists. split; [apply lookup_insert_eq|]. split; reflexivity.
Qed.

Lemma created_objects_are_wired_witness :
  exists svc ing,
    cluster (snd (create_service "demo" "default" spec_ingress_with_hostname demo_world))
      !! (Service, "default", "demo") = Some svc
    /\ value_at [Attr "spec"; Attr "selector"] svc = Some (instance_labels "demo")
    /\ cluster (snd (create_ingress no_environ "demo" "default" spec_ingress_with_hostname
                       demo_world))
         !! (Ingress, "default", "demo") = Some ing
    /\ value_at [Attr "spec"; Attr "rules"; Item 0; Attr "http"; Attr "paths"; Item 0;
                 Attr "backend"; Attr "service"; Attr "name"] ing
       = Some (VStr "demo").
Proof.
  destruct (created_objects_are_wired no_environ spec_ingress_with_hostname
              "demo" "default" demo_world demo_instance (VStr "7d3c2a9e"))
    as (_ & Hsvc & Hing).
  - reflexivity.
  - intros n ep. reflexivity.
  - reflexivity.
  - reflexivity.
  - destruct (Hsvc eq_refl) as (svc & Hs & Hsel & _).
    destruct (Hing eq_refl) as (ing & Hi & Hname & _).
    exists svc, ing. repeat split; assumption.
Defined.

Lemma claim_names_differ name :
  (name ++ "-filestore")%string <> ("odoo-filestore-" ++ name)%string.
Proof.
  intros H. apply (f_equal String.length) in H.
  assert (Hl : forall s : string, String.length (s ++ "-filestore") = (String.length s + 10)%nat).
  { induction s as [|c s IH]; [reflexivity|].
    change (S (String.length (s ++ "-filestore")) = S (String.length s + 10)).
    rewrite IH. reflexivity. }
  rewrite Hl in H.
  change (String.length name + 10
          = S (S (S (S (S (S (S (S (S (S (S (S (S (S (S (String.length name))))))))))))))))%nat
    in H.
  lia.
Qed.

(** The deployment mounts a claim that the operator never creates.
    The deployment that [create_deployment] writes takes its filestore
    from the claim [<name>-filestore]; [create_filestore_pvc] writes the
    claim [odoo-filestore-<name>], a different name; and a create call
    leaves the claim [<name>-filestore] of the cluster exactly as it
    was, whatever the cluster holds and whichever calls fail. *)
Theorem deployment_mounts_claim_never_created
  (environ : string -> option string) (spec : dict) (name namespace : string) :
  well_typed_spec spec = true ->
  (forall w obj uid,
     calm w ->
     instances w !! (namespace, name) = Some obj ->
     value_at [Attr "metadata"; Attr "uid"] obj = Some uid ->
     cluster w !! (Deployment, namespace, name) = None ->
     exists dep,
       cluster (snd (create_deployment environ name namespace spec w))
         !! (Deployment, namespace, name) = Some dep
       /\ value_at [Attr "spec"; Attr "template"; Attr "spec"; Attr "volumes"; Item 0;
                    Attr "persistentVolumeClaim"; Attr "claimName"] dep
          = Some (VStr (name ++ "-filestore")))
  /\ (name ++ "-filestore")%string <> ("odoo-filestore-" ++ name)%string
  /\ (forall w,
        cluster (snd (create_odoo_instance environ spec name namespace w))
          !! (PersistentVolumeClaim, namespace, name ++ "-filestore")
        = cluster w !! (PersistentVolumeClaim, namespace, name ++ "-filestore")).
Proof.
  intros Hspec. split; [|split].
  - intros w obj uid Hcalm Hobj Huid Hfree.
    pose proof (owner_references_value name namespace w obj uid Hobj Huid (Hcalm _ _))
      as Hown.
    destruct (well_typed_spec_inv _ Hspec) as (_ & _ & _ & Haddons).
    destruct (addon_parts_total _ Haddons) as [[[vs cs] ms] Hparts].
    unfold create_deployment. cbv zeta.
    rewrite (bind_ok _ _ _ _ _ Hown).
    rewrite (bind_pure _ _ _ Hparts). cbv iota beta.
    unfold try_except.
    erewrite bind_ok; cycle 1.
    { apply (create_namespaced_absent Deployment namespace _ name);
        [reflexivity | apply Hcalm | exact Hfree]. }
    cbn [logger snd cluster set_cluster set_log].
    eexists. split; [apply lookup_insert_eq | reflexivity].
  - apply claim_names_differ.
  - assert (H : spares (PersistentVolumeClaim, namespace, (name ++ "-filestore")%string)
                  (create_odoo_instance environ spec name namespace)); [|exact H].
    unfold create_odoo_instance.
    apply spares_bind; [apply spares_logger | intros _].
    apply spares_bind; [apply spares_patch_status | intros _].
    apply spares_try.
    + apply spares_bind;
        [apply spares_create_filestore_pvc; intros H; symmetry in H;
         apply (claim_names_differ name H) | intros _].
      apply spares_bind; [apply spares_logger | intros _].
      apply spares_bind; [apply spares_create_config_map; discriminate | intros _].
      apply spares_bind; [apply spares_logger | intros _].
      apply spares_bind; [apply spares_create_deployment; discriminate | intros _].
      apply spares_bind; [apply spares_logger | intros _].
      apply spares_bind; [apply spares_create_service; discriminate | intros _].
      apply spares_bind; [apply spares_logger | intros _].
      apply spares_bind; [apply spares_lift | intros enabled].
      apply spares_bind.
      * destruct (truthy enabled); [|apply spares_ret].
        apply spares_bind; [apply spares_create_ingress; discriminate | intros _].
        apply spares_bind; [apply spares_logger | intros _].
        apply spares_instance_url.
      * intros url. spares_all.
    + intros e h He. destruct e; try discriminate He. injection He as <-. spares_all.
Qed.

Lemma deployment_mounts_claim_never_created_witness :
  (exists dep,
     cluster (snd (create_deployment no_environ "demo" "default" spec_ingress_with_hostname
                     demo_world))
       !! (Deployment, "default", "demo") = Some dep
     /\ value_at [Attr "spec"; Attr "template"; Attr "spec"; Attr "volumes"; Item 0;
                  Attr "persistentVolumeClaim"; Attr "claimName"] dep
        = Some (VStr "demo-filestore"))
  /\ cluster (snd (create_odoo_instance no_environ spec_ingress_with_hostname
                     "demo" "default" demo_world))
       !! (PersistentVolumeClaim, "default", "demo-filestore") = None.
Proof.
  destruct (deployment_mounts_claim_never_created no_environ spec_ingress_with_hostname
              "demo" "default" eq_refl)
    as (Hdep & _ & Hclaim).
  split.
  - apply (Hdep demo_world demo_instance (VStr "7d3c2a9e")).
    + intros n ep. reflexivity.
    + reflexivity.
    + reflexivity.
    + reflexivity.
  - etransitivity; [exact (Hclaim demo_world) | reflexivity].
Defined.
